(** * hdusd.mx_nodes.nodes.base_node: schema-driven MaterialX nodes

    A shallow embedding of [src/hdusd/mx_nodes/nodes/base_node.py]:
    the property mapper ([MxNode.create_property], [parse_val]), the
    node-type builder ([MxNodedef.new], [MxNode.new], [create_node_types])
    and the graph compiler ([MxNode.compute] and friends,
    [MxNode_Output.compute]).

    Python [str] values are Rocq strings whose characters stand for the
    code points below 256.  Exceptions are values of [Exn]; code that can
    raise returns a [Result].  The logger is write-only, so logging is
    modelled as an emitted list of [LogEntry]. *)

From Stdlib Require Import ZArith Ascii String.
From stdpp Require Import base option list strings pretty gmap.

Open Scope string_scope.
Open Scope list_scope.

(** ** What the module imports *)

(** What [base_node.py] takes from Python and from [hdusd.utils]:
    the [float] and [int] constructors on strings and the helpers
    [title_str] and [code_str]. *)
Class Host := {
  pyfloat : Type;
  (** [float(s)]; [None] stands for [ValueError]. *)
  py_float : string -> option pyfloat;
  (** [int(s)]; [None] stands for [ValueError]. *)
  py_int : string -> option Z;
  title_str : string -> string;
  code_str : string -> string;
}.

(** The exceptions of Python the module meets, and those of the
    MaterialX library, by the name of their class. *)
Inductive Exn :=
| ValueError
| KeyError
| AttributeError
| TypeError
| IndexError
| RecursionError
| LibraryError (name : string).

Inductive Result (A : Type) :=
| Ok (a : A)
| Raise (e : Exn).
Arguments Ok {A} a.
Arguments Raise {A} e.

Definition result_bind {A B} (r : Result A) (f : A -> Result B) : Result B :=
  match r with
  | Ok a => f a
  | Raise e => Raise e
  end.

Definition of_option {A} (e : Exn) (o : option A) : Result A :=
  match o with
  | Some a => Ok a
  | None => Raise e
  end.

(** [tuple(f(x) for x in xs)]: the first failing element raises. *)
Fixpoint result_map {A B} (f : A -> Result B) (xs : list A) : Result (list B) :=
  match xs with
  | [] => Ok []
  | x :: xs' =>
      result_bind (f x) (fun y =>
      result_bind (result_map f xs') (fun ys => Ok (y :: ys)))
  end.

Inductive LogEntry :=
| LogInfo (args : list string)
| LogWarn (args : list string)
| LogError (args : list string).

(** ** Python strings *)

Module PyStr.

(** [str.split(sep)] for a one-character separator: never empty. *)
Fixpoint split (sep : ascii) (s : string) : list string :=
  match s with
  | EmptyString => [EmptyString]
  | String c rest =>
      if Ascii.eqb c sep then EmptyString :: split sep rest
      else match split sep rest with
           | h :: t => String c h :: t
           | [] => [String c EmptyString]
           end
  end.

(** [str.isspace] on one character, for code points below 256. *)
Definition is_space (c : ascii) : bool :=
  let n := nat_of_ascii c in
  (((9 <=? n) && (n <=? 13)) || ((28 <=? n) && (n <=? 32))
   || (n =? 133) || (n =? 160))%nat.

Fixpoint lstrip (s : string) : string :=
  match s with
  | EmptyString => EmptyString
  | String c rest => if is_space c then lstrip rest else s
  end.

Fixpoint rstrip (s : string) : string :=
  match s with
  | EmptyString => EmptyString
  | String c rest =>
      match rstrip rest with
      | EmptyString => if is_space c then EmptyString else String c EmptyString
      | r => String c r
      end
  end.

(** [str.strip()]. *)
Definition strip (s : string) : string := rstrip (lstrip s).

(** [\d] of [re], for code points below 256, with its [int] value. *)
Definition digit (c : ascii) : option Z :=
  let n := nat_of_ascii c in
  if ((48 <=? n) && (n <=? 57))%nat then Some (Z.of_nat (n - 48)) else None.

(** [s[n:]]. *)
Fixpoint drop (n : nat) (s : string) : string :=
  match n, s with
  | O, _ => s
  | S n', String _ rest => drop n' rest
  | S _, EmptyString => EmptyString
  end.

(** [s.startswith(pre)], answering the rest of [s]. *)
Fixpoint after_prefix (pre s : string) : option string :=
  match pre, s with
  | EmptyString, _ => Some s
  | String a pre', String b s' =>
      if Ascii.eqb a b then after_prefix pre' s' else None
  | String _ _, EmptyString => None
  end.

(** [re.fullmatch(pre + '(\d)', s)], answering [int(m[1])]. *)
Definition match_digit (pre s : string) : option Z :=
  match after_prefix pre s with
  | Some (String c EmptyString) => digit c
  | _ => None
  end.

(** [re.fullmatch(pre + '(\d)(\d)', s)], answering [int(m[1])] and
    [int(m[2])]. *)
Definition match_digit2 (pre s : string) : option (Z * Z) :=
  match after_prefix pre s with
  | Some (String r (String c EmptyString)) =>
      match digit r, digit c with
      | Some x, Some y => Some (x, y)
      | _, _ => None
      end
  | _ => None
  end.

(** The character class [.] of [re]: anything but a newline. *)
Definition is_dot (c : ascii) : bool := negb (Ascii.eqb c "010"%char).

Fixpoint all_dot (s : string) : bool :=
  match s with
  | EmptyString => true
  | String c rest => is_dot c && all_dot rest
  end.

(** [re.fullmatch('(.+)array', s)]: since the literal tail has a fixed
    length, group 1 can only be everything before the last five
    characters. *)
Fixpoint match_array (s : string) : bool :=
  match s with
  | EmptyString => false
  | String c rest =>
      is_dot c && (String.eqb rest "array" || match_array rest)
  end.

End PyStr.

(** ** Values *)

Local Set Warnings "-register-all".

Inductive PyVal `{Host} :=
| VNone
| VStr (s : string)
| VInt (z : Z)
| VFloat (x : pyfloat)
| VBool (b : bool)
| VTuple (xs : list PyVal).

(** The classes of [bpy.props] the module imports. *)
Inductive PropType :=
| StringProperty
| IntProperty
| FloatProperty
| EnumProperty
| FloatVectorProperty
| IntVectorProperty
| BoolProperty
| PointerProperty.

Global Instance PropType_eq_dec : EqDecision PropType.
Proof. solve_decision. Defined.

Section ParseVal.
Context `{Host}.

(** [parse_val(prop_type, val, first_only=False)].  [res[0]] cannot
    fail, [split] never returning an empty list; the [match] keeps the
    [IndexError] of the general case. *)
Definition parse_val (prop_type : PropType) (val : string) (first_only : bool)
  : Result PyVal :=
  match prop_type with
  | StringProperty => Ok (VStr val)
  | IntProperty => of_option ValueError (VInt <$> py_int val)
  | FloatProperty => of_option ValueError (VFloat <$> py_float val)
  | BoolProperty => Ok (VBool (String.eqb val "true"))
  | FloatVectorProperty =>
      result_bind
        (result_map (fun x => of_option ValueError (VFloat <$> py_float x))
                    (PyStr.split "," val))
        (fun res =>
           if first_only then of_option IndexError (head res)
           else Ok (VTuple res))
  | EnumProperty =>
      let res := map (fun x => VStr (PyStr.strip x)) (PyStr.split "," val) in
      if first_only then of_option IndexError (head res)
      else Ok (VTuple res)
  | IntVectorProperty | PointerProperty => Ok VNone
  end.

End ParseVal.

(** ** The schema objects of MaterialX, as the module reads them *)

(** An [mx.Parameter], [mx.Input] or [mx.Output] of a nodedef.
    [getAttribute] answers the empty string for an attribute that is
    not set. *)
Record MxParam := {
  mp_name : string;
  mp_type : string;
  mp_attrs : gmap string string;
  mp_parent_name : string;
}.

Definition hasAttribute (attrs : gmap string string) (k : string) : bool :=
  bool_decide (is_Some (attrs !! k)).

Definition getAttribute (attrs : gmap string string) (k : string) : string :=
  default "" (attrs !! k).

(** An [mx.NodeDef]. *)
Record MxNodeDef := {
  nd_name : string;
  nd_node_string : string;
  nd_attrs : gmap string string;
  nd_parameters : list MxParam;
  nd_inputs : list MxParam;
  nd_outputs : list MxParam;
}.

Definition find_by_name (name : string) (ps : list MxParam) : option MxParam :=
  find (fun p => String.eqb (mp_name p) name) ps.

Definition getInput (nd : MxNodeDef) (name : string) : option MxParam :=
  find_by_name name (nd_inputs nd).

Definition getOutput (nd : MxNodeDef) (name : string) : option MxParam :=
  find_by_name name (nd_outputs nd).

(** ** Property descriptors *)

Section Properties.
Context `{Host}.

(** The dictionary [prop_attrs]; every key the module ever sets is a
    literal, so the dictionary is a record of optional fields. *)
Record PropAttrs := {
  pa_items : option (list (string * string * string));
  pa_subtype : option string;
  pa_size : option Z;
  pa_name : option string;
  pa_description : option string;
  pa_min : option PyVal;
  pa_max : option PyVal;
  pa_soft_min : option PyVal;
  pa_soft_max : option PyVal;
  pa_default : option PyVal;
}.

Definition no_attrs : PropAttrs :=
  {| pa_items := None; pa_subtype := None; pa_size := None;
     pa_name := None; pa_description := None;
     pa_min := None; pa_max := None;
     pa_soft_min := None; pa_soft_max := None; pa_default := None |}.

Definition set_items v (a : PropAttrs) : PropAttrs :=
  {| pa_items := Some v; pa_subtype := pa_subtype a; pa_size := pa_size a;
     pa_name := pa_name a; pa_description := pa_description a;
     pa_min := pa_min a; pa_max := pa_max a;
     pa_soft_min := pa_soft_min a; pa_soft_max := pa_soft_max a;
     pa_default := pa_default a |}.

Definition set_subtype v (a : PropAttrs) : PropAttrs :=
  {| pa_items := pa_items a; pa_subtype := Some v; pa_size := pa_size a;
     pa_name := pa_name a; pa_description := pa_description a;
     pa_min := pa_min a; pa_max := pa_max a;
     pa_soft_min := pa_soft_min a; pa_soft_max := pa_soft_max a;
     pa_default := pa_default a |}.

Definition set_size v (a : PropAttrs) : PropAttrs :=
  {| pa_items := pa_items a; pa_subtype := pa_subtype a; pa_size := Some v;
     pa_name := pa_name a; pa_description := pa_description a;
     pa_min := pa_min a; pa_max := pa_max a;
     pa_soft_min := pa_soft_min a; pa_soft_max := pa_soft_max a;
     pa_default := pa_default a |}.

Definition set_name v (a : PropAttrs) : PropAttrs :=
  {| pa_items := pa_items a; pa_subtype := pa_subtype a; pa_size := pa_size a;
     pa_name := Some v; pa_description := pa_description a;
     pa_min := pa_min a; pa_max := pa_max a;
     pa_soft_min := pa_soft_min a; pa_soft_max := pa_soft_max a;
     pa_default := pa_default a |}.

Definition set_description v (a : PropAttrs) : PropAttrs :=
  {| pa_items := pa_items a; pa_subtype := pa_subtype a; pa_size := pa_size a;
     pa_name := pa_name a; pa_description := Some v;
     pa_min := pa_min a; pa_max := pa_max a;
     pa_soft_min := pa_soft_min a; pa_soft_max := pa_soft_max a;
     pa_default := pa_default a |}.

Definition set_min v (a : PropAttrs) : PropAttrs :=
  {| pa_items := pa_items a; pa_subtype := pa_subtype a; pa_size := pa_size a;
     pa_name := pa_name a; pa_description := pa_description a;
     pa_min := Some v; pa_max := pa_max a;
     pa_soft_min := pa_soft_min a; pa_soft_max := pa_soft_max a;
     pa_default := pa_default a |}.

Definition set_max v (a : PropAttrs) : PropAttrs :=
  {| pa_items := pa_items a; pa_subtype := pa_subtype a; pa_size := pa_size a;
     pa_name := pa_name a; pa_description := pa_description a;
     pa_min := pa_min a; pa_max := Some v;
     pa_soft_min := pa_soft_min a; pa_soft_max := pa_soft_max a;
     pa_default := pa_default a |}.

Definition set_soft_min v (a : PropAttrs) : PropAttrs :=
  {| pa_items := pa_items a; pa_subtype := pa_subtype a; pa_size := pa_size a;
     pa_name := pa_name a; pa_description := pa_description a;
     pa_min := pa_min a; pa_max := pa_max a;
     pa_soft_min := Some v; pa_soft_max := pa_soft_max a;
     pa_default := pa_default a |}.

Definition set_soft_max v (a : PropAttrs) : PropAttrs :=
  {| pa_items := pa_items a; pa_subtype := pa_subtype a; pa_size := pa_size a;
     pa_name := pa_name a; pa_description := pa_description a;
     pa_min := pa_min a; pa_max := pa_max a;
     pa_soft_min := pa_soft_min a; pa_soft_max := Some v;
     pa_default := pa_default a |}.

Definition set_default v (a : PropAttrs) : PropAttrs :=
  {| pa_items := pa_items a; pa_subtype := pa_subtype a; pa_size := pa_size a;
     pa_name := pa_name a; pa_description := pa_description a;
     pa_min := pa_min a; pa_max := pa_max a;
     pa_soft_min := pa_soft_min a; pa_soft_max := pa_soft_max a;
     pa_default := Some v |}.

End Properties.

(** ** [MxNode.create_property] *)

Section CreateProperty.
Context `{Host}.

(** Iterating the value [parse_val] gave for an enum list. *)
Definition iter_str (v : PyVal) : Result (list string) :=
  match v with
  | VTuple xs =>
      result_map (fun x => match x with
                           | VStr s => Ok s
                           | _ => Raise TypeError
                           end) xs
  | _ => Raise TypeError
  end.

Definition shader_types : list string :=
  ["surfaceshader"; "displacementshader"; "volumeshader"; "lightshader";
   "material"; "BSDF"; "VDF"; "EDF"].

(** The one-way [while True] loop: the first rule that applies decides
    [prop_type] and the first entries of [prop_attrs]; the last rule
    also warns. *)
Definition type_rule (mx_param : MxParam)
  : Result (PropType * PropAttrs) * list LogEntry :=
  let mx_type := mp_type mx_param in
  if String.eqb mx_type "string" then
    if hasAttribute (mp_attrs mx_param) "enum" then
      (result_bind
         (parse_val EnumProperty (getAttribute (mp_attrs mx_param) "enum") false)
         (fun v =>
          result_bind (iter_str v) (fun items =>
          Ok (EnumProperty,
              set_items (map (fun it => (it, title_str it, title_str it)) items)
                        no_attrs))),
       [])
    else (Ok (StringProperty, no_attrs), [])
  else if String.eqb mx_type "filename" then
    (Ok (StringProperty, set_subtype "FILE_PATH" no_attrs), [])
  else if String.eqb mx_type "integer" then (Ok (IntProperty, no_attrs), [])
  else if String.eqb mx_type "float" then (Ok (FloatProperty, no_attrs), [])
  else if String.eqb mx_type "boolean" then (Ok (BoolProperty, no_attrs), [])
  else if existsb (String.eqb mx_type) shader_types then
    (Ok (StringProperty, no_attrs), [])
  else
    match PyStr.match_digit2 "matrix" mx_type with
    | Some (r, c) =>
        (Ok (FloatVectorProperty,
             set_size (r * c) (set_subtype "MATRIX" no_attrs)), [])
    | None =>
    match PyStr.match_digit "color" mx_type with
    | Some n =>
        (Ok (FloatVectorProperty,
             set_size n (set_subtype "COLOR" no_attrs)), [])
    | None =>
    match PyStr.match_digit "vector" mx_type with
    | Some dim =>
        (Ok (FloatVectorProperty,
             set_size dim
               (set_subtype (if Z.eqb dim 3 then "XYZ" else "NONE") no_attrs)),
         [])
    | None =>
        if PyStr.match_array mx_type then (Ok (StringProperty, no_attrs), [])
        else
          (Ok (StringProperty, no_attrs),
           [LogWarn ["Unsupported mx_type"; mx_type; mp_name mx_param;
                     mp_parent_name mx_param]])
    end end end.

(** [if mx_param.hasAttribute(key): prop_attrs[..] = parse_val(prop_type,
    mx_param.getAttribute(key), first_only)]. *)
Definition parsed_attr (mx_param : MxParam) (prop_type : PropType)
    (key : string) (first_only : bool)
    (set : PyVal -> PropAttrs -> PropAttrs) (a : PropAttrs) : Result PropAttrs :=
  if hasAttribute (mp_attrs mx_param) key then
    result_bind
      (parse_val prop_type (getAttribute (mp_attrs mx_param) key) first_only)
      (fun v => Ok (set v a))
  else Ok a.

(** What follows the loop: the display name, the description, the four
    bounds and the default. *)
Definition fill_attrs (mx_param : MxParam) (prop_type : PropType)
    (a : PropAttrs) : Result PropAttrs :=
  let a := set_name (if hasAttribute (mp_attrs mx_param) "uiname"
                     then getAttribute (mp_attrs mx_param) "uiname"
                     else title_str (mp_name mx_param)) a in
  let a := set_description (getAttribute (mp_attrs mx_param) "doc") a in
  result_bind (parsed_attr mx_param prop_type "uimin" true set_min a) (fun a =>
  result_bind (parsed_attr mx_param prop_type "uimax" true set_max a) (fun a =>
  result_bind (parsed_attr mx_param prop_type "uisoftmin" true set_soft_min a) (fun a =>
  result_bind (parsed_attr mx_param prop_type "uisoftmax" true set_soft_max a) (fun a =>
  parsed_attr mx_param prop_type "value"
              (bool_decide (prop_type = EnumProperty)) set_default a)))).

Definition create_property (mx_param : MxParam)
  : Result (string * PropType * PropAttrs) * list LogEntry :=
  let '(rule, log) := type_rule mx_param in
  (result_bind rule (fun '(prop_type, a) =>
   result_bind (fill_attrs mx_param prop_type a) (fun a =>
   Ok (mp_name mx_param, prop_type, a))),
   log).

End CreateProperty.

(** ** Node types built from the schema *)

Section NodeTypes.
Context `{Host}.

(** The class [MxNodedef.new] makes with [type(...)]. *)
Record MxNodedefType := {
  nt_class_name : string;
  mx_nodedef : MxNodeDef;
  nt_annotations : gmap string (PropType * PropAttrs);
}.

(** One of the three [for] loops of [MxNodedef.new]:
    [annotations[prefix + prop_name] = prop_type, prop_attrs]. *)
Fixpoint annotate (prefix : string) (ps : list MxParam)
    (annotations : gmap string (PropType * PropAttrs))
  : Result (gmap string (PropType * PropAttrs)) * list LogEntry :=
  match ps with
  | [] => (Ok annotations, [])
  | mx_param :: ps' =>
      match create_property mx_param with
      | (Ok (prop_name, prop_type, prop_attrs), log) =>
          let '(r, log') :=
            annotate prefix ps'
              (<[prefix +:+ prop_name := (prop_type, prop_attrs)]> annotations) in
          (r, log ++ log')
      | (Raise e, log) => (Raise e, log)
      end
  end.

Definition MxNodedef_new (nd : MxNodeDef)
  : Result MxNodedefType * list LogEntry :=
  match annotate "p_" (nd_parameters nd) ∅ with
  | (Raise e, l1) => (Raise e, l1)
  | (Ok a1, l1) =>
  match annotate "in_" (nd_inputs nd) a1 with
  | (Raise e, l2) => (Raise e, l1 ++ l2)
  | (Ok a2, l2) =>
  match annotate "out_" (nd_outputs nd) a2 with
  | (Raise e, l3) => (Raise e, l1 ++ l2 ++ l3)
  | (Ok a3, l3) =>
      (Ok {| nt_class_name := "Mx" +:+ nd_name nd;
             mx_nodedef := nd;
             nt_annotations := a3 |},
       l1 ++ l2 ++ l3)
  end end end.

(** An entry of the [__annotations__] of a class made by [MxNode.new]. *)
Inductive NodeAnnotation :=
| APointer (nd_type : MxNodedefType)
| ADataType (items : list (string * string * string)) (dflt : string).

(** The class [MxNode.new] makes with [type(...)]. *)
Record MxNodeType := {
  mn_class_name : string;
  bl_label : string;
  bl_idname : string;
  bl_description : string;
  mx_nodedefs : list MxNodeDef;
  mn_annotations : gmap string NodeAnnotation;
  (** The [items] and [default] given to the [data_type] property. *)
  var_items : list (string * string * string);
  var_default : string;
}.

Definition var_item (node_name : string) (nd_type : MxNodedefType)
  : string * string * string :=
  let nd_name := nd_name (mx_nodedef nd_type) in
  let var_name := PyStr.drop (4 + String.length node_name) nd_name in
  (nd_name, title_str var_name, title_str var_name).

Definition MxNode_new (nodedef_types : list MxNodedefType) : Result MxNodeType :=
  match nodedef_types with
  | [] => Raise IndexError
  | first :: _ =>
      let nd := mx_nodedef first in
      let node_name := nd_node_string nd in
      let annotations :=
        foldl (fun a nd_type =>
                 <[nd_name (mx_nodedef nd_type) := APointer nd_type]> a)
              ∅ nodedef_types in
      let items := map (var_item node_name) nodedef_types in
      match items with
      | [] => Raise IndexError
      | (dflt, _, _) :: _ =>
          Ok {| mn_class_name := "MxNode_" +:+ node_name;
                bl_label := title_str (nd_node_string nd);
                bl_idname := "hdusd.MxNode" +:+ "_" +:+ nd_name nd;
                bl_description :=
                  if hasAttribute (nd_attrs nd) "doc"
                  then getAttribute (nd_attrs nd) "doc"
                  else title_str (nd_name nd);
                mx_nodedefs := map mx_nodedef nodedef_types;
                mn_annotations :=
                  <["data_type" := ADataType items dflt]> annotations;
                var_items := items;
                var_default := dflt |}
      end
  end.

(** The inner loop of [create_node_types], over the nodedefs of one
    document: a definition whose [MxNodedef.new] raises is logged and
    left out. *)
Fixpoint load_nodedefs (mx_node_defs : list MxNodeDef)
  : list MxNodedefType * list LogEntry :=
  match mx_node_defs with
  | [] => ([], [])
  | nd :: rest =>
      let '(r, log) := MxNodedef_new nd in
      let '(types, log') := load_nodedefs rest in
      match r with
      | Ok t => (t :: types, log ++ log')
      | Raise e => (types, log ++ [LogError [nd_name nd]] ++ log')
      end
  end.

(** The key of the [defaultdict]. *)
Definition group_key (nd_type : MxNodedefType) : string * string :=
  (nd_node_string (mx_nodedef nd_type),
   getAttribute (nd_attrs (mx_nodedef nd_type)) "nodegroup").

(** [d[key].append(x)] on a [defaultdict(list)], which keeps its keys
    in order of first insertion. *)
Fixpoint dict_append {K V} `{EqDecision K} (key : K) (x : V)
    (d : list (K * list V)) : list (K * list V) :=
  match d with
  | [] => [(key, [x])]
  | (k, xs) :: d' =>
      if decide (k = key) then (k, xs ++ [x]) :: d'
      else (k, xs) :: dict_append key x d'
  end.

Definition group_nodedefs (nodedef_types : list MxNodedefType)
  : list (string * string * list MxNodedefType) :=
  foldl (fun d nd_type => dict_append (group_key nd_type) nd_type d)
        [] nodedef_types.

(** The outer loop of [create_node_types], over [file_paths].
    [readFromXmlFile p] stands for the three lines that make a document,
    read the file at [str(p)] into it with [mx.readFromXmlFile] and take
    [doc.getNodeDefs()]: the nodedefs the file holds, or the exception
    the MaterialX library raises on a file that is missing or cannot be
    parsed.  The call is outside the [try], so that exception ends the
    loop and leaves [create_node_types]. *)
Fixpoint load_files (readFromXmlFile : string -> Result (list MxNodeDef))
    (file_paths : list string)
  : Result (list MxNodedefType) * list LogEntry :=
  match file_paths with
  | [] => (Ok [], [])
  | p :: rest =>
      match readFromXmlFile p with
      | Raise e => (Raise e, [])
      | Ok mx_node_defs =>
          let '(types, log) := load_nodedefs mx_node_defs in
          let '(r, log') := load_files readFromXmlFile rest in
          (result_bind r (fun types' => Ok (types ++ types')), log ++ log')
      end
  end.

Definition create_node_types
    (readFromXmlFile : string -> Result (list MxNodeDef))
    (file_paths : list string)
  : Result (list MxNodedefType * list MxNodeType) * list LogEntry :=
  match load_files readFromXmlFile file_paths with
  | (Raise e, log) => (Raise e, log)
  | (Ok nodedef_types, log) =>
      (result_bind
         (result_map (fun g => MxNode_new (snd g))
                     (group_nodedefs nodedef_types))
         (fun node_types => Ok (nodedef_types, node_types)),
       log)
  end.

End NodeTypes.

(** ** The node graph of the editor *)

(** Nodes are objects; a link holds a reference to its source node.  A
    [NodeId] is that reference, and a [Graph] gives the object behind
    each reference. *)
Abbreviation NodeId := nat (only parsing).

Record NodeLink := {
  is_valid : bool;
  from_node : NodeId;
  from_socket_name : string;
}.

Record NodeSocket := {
  sock_name : string;
  node_prop_name : string;
  links : list NodeLink;
}.

(** A key of [self.inputs] or [self.outputs]: a position or a name. *)
Inductive Key :=
| KInt (i : nat)
| KStr (s : string).

Definition key_repr (k : Key) : string :=
  match k with
  | KInt i => pretty i
  | KStr s => s
  end.

(** [collection[key]] on a [bpy] collection. *)
Definition coll_get (c : list NodeSocket) (k : Key) : Result NodeSocket :=
  match k with
  | KInt i => of_option IndexError (c !! i)
  | KStr s => of_option KeyError (find (fun x => String.eqb (sock_name x) s) c)
  end.

(** What every [bpy] node has. *)
Record BNode := {
  bn_name : string;
  inputs : list NodeSocket;
  outputs : list NodeSocket;
}.

Section Graph.
Context `{Host}.

(** [self.prop] of a schema node: the property group selected by
    [data_type], with its nodedef and its attribute values. *)
Record NodeProp := {
  prop_nodedef : MxNodeDef;
  prop_values : gmap string PyVal;
}.

(** The three kinds [isinstance] and method dispatch tell apart: an
    instance of a class made by [MxNode.new], an [MxNode_Output], and
    any other node of the editor. *)
Inductive GraphNode :=
| GMxNode (b : BNode) (prop : NodeProp)
| GOutput (b : BNode)
| GForeign (b : BNode).

Definition Graph := NodeId -> GraphNode.

Definition node_base (n : GraphNode) : BNode :=
  match n with
  | GMxNode b _ => b
  | GOutput b => b
  | GForeign b => b
  end.

End Graph.

(** ** The document *)

(** [getattr(mx, name, None)] and the call of the class found, which may
    raise; [mx_value] is what such a class builds. *)
Class MaterialX `{Host} := {
  mx_value : Type;
  mx_getattr : string -> option (PyVal -> Result mx_value);
}.

Section Document.
Context `{MaterialX}.

(** What a port of a document node was set to. *)
Inductive Binding :=
| BNodeName (name : string)
| BValueString (v : PyVal)
| BValueMx (v : mx_value)
| BValue (v : PyVal).

Record DocPort := {
  port_name : string;
  port_type : string;
  port_binding : option Binding;
}.

Record DocNode := {
  dn_category : string;
  dn_name : string;
  dn_type : string;
  dn_inputs : list DocPort;
  dn_parameters : list DocPort;
}.

(** Modelled from the spec: the document object of the MaterialX
    library, which is not part of the repository.  Section 6 of the
    spec gives its interface: [addNode(category, name, type)] on the
    document, [addInput] and [addParameter(name, type)] on a node,
    [setNodeName], [setValueString] and [setValue] on what they
    return.  The document is the list of its nodes in the order they
    were added; an [mx.Node] held by the program is a [NodeRef], the
    position of the node in that list. *)
Local Abbreviation Document := (list DocNode) (only parsing).
Local Abbreviation NodeRef := nat (only parsing).

Inductive PortKind := IsInput | IsParameter.

Record PortRef := {
  pr_node : NodeRef;
  pr_kind : PortKind;
  pr_index : nat;
}.

(** Code that reads and changes the document, logs and may raise. *)
Definition M (A : Type) : Type := Document -> Result A * Document * list LogEntry.

Definition ret {A} (a : A) : M A := fun d => (Ok a, d, []).

Definition raise {A} (e : Exn) : M A := fun d => (Raise e, d, []).

Definition bind {A B} (m : M A) (f : A -> M B) : M B :=
  fun d =>
    match m d with
    | (Ok a, d', l) =>
        let '(r, d'', l') := f a d' in (r, d'', l ++ l')
    | (Raise e, d', l) => (Raise e, d', l)
    end.

Definition lift {A} (r : Result A) : M A := fun d => (r, d, []).

Definition emit (e : LogEntry) : M unit := fun d => (Ok tt, d, [e]).

Definition ports (k : PortKind) (n : DocNode) : list DocPort :=
  match k with
  | IsInput => dn_inputs n
  | IsParameter => dn_parameters n
  end.

Definition with_ports (k : PortKind) (f : list DocPort -> list DocPort)
    (n : DocNode) : DocNode :=
  match k with
  | IsInput =>
      {| dn_category := dn_category n; dn_name := dn_name n;
         dn_type := dn_type n; dn_inputs := f (dn_inputs n);
         dn_parameters := dn_parameters n |}
  | IsParameter =>
      {| dn_category := dn_category n; dn_name := dn_name n;
         dn_type := dn_type n; dn_inputs := dn_inputs n;
         dn_parameters := f (dn_parameters n) |}
  end.

Definition addNode (category name type : string) : M NodeRef :=
  fun d =>
    (Ok (length d),
     d ++ [{| dn_category := category; dn_name := name; dn_type := type;
              dn_inputs := []; dn_parameters := [] |}],
     []).

(** [node.addInput(name, type)] and [node.addParameter(name, type)]. *)
Definition addPort (k : PortKind) (node : NodeRef) (name type : string)
  : M PortRef :=
  fun d =>
    (Ok {| pr_node := node; pr_kind := k;
           pr_index := length (default [] (ports k <$> d !! node)) |},
     alter (with_ports k (fun ps =>
              ps ++ [{| port_name := name; port_type := type;
                        port_binding := None |}])) node d,
     []).

Definition addInput := addPort IsInput.
Definition addParameter := addPort IsParameter.

(** [setNodeName], [setValueString] and [setValue], by what they store. *)
Definition set_binding (p : PortRef) (b : Binding) : M unit :=
  fun d =>
    (Ok tt,
     alter (with_ports (pr_kind p)
              (alter (fun port =>
                        {| port_name := port_name port;
                           port_type := port_type port;
                           port_binding := Some b |}) (pr_index p)))
           (pr_node p) d,
     []).

Definition getName (node : NodeRef) : M string :=
  fun d => (Ok (default "" (dn_name <$> d !! node)), d, []).

Definition getType (node : NodeRef) : M string :=
  fun d => (Ok (default "" (dn_type <$> d !! node)), d, []).

End Document.

Abbreviation Document := (list DocNode) (only parsing).
Abbreviation NodeRef := nat (only parsing).

Notation "'let!' x ':=' m 'in' k" := (bind m (fun x => k))
  (at level 10, x name, m at level 100, k at level 200,
   format "'[v' 'let!'  x  ':='  m  'in' '/' k ']'").
Notation "'run!' m 'in' k" := (bind m (fun _ => k))
  (at level 10, m at level 100, k at level 200,
   format "'[v' 'run!'  m  'in' '/' k ']'").

(** ** The graph compiler *)

Section Compiler.
Context `{MaterialX}.

(** What [get_input_value] answers: a compiled node or a literal. *)
Inductive InputValue :=
| INode (node : NodeRef)
| ILit (v : PyVal).

(** [set_value(param, val, nd_type)], local to [MxNode.compute]. *)
Definition set_value (param : PortRef) (val : InputValue) (nd_type : string)
  : M unit :=
  match val with
  | INode node =>
      let! name := getName node in
      set_binding param (BNodeName name)
  | ILit v =>
      if String.eqb nd_type "filename" then set_binding param (BValueString v)
      else
        match mx_getattr (title_str nd_type) with
        | Some mx_type =>
            let! x := lift (mx_type v) in
            set_binding param (BValueMx x)
        | None => set_binding param (BValue v)
        end
  end.

Variable graph : Graph.

(** [node.compute(out_key, **kwargs)] on a node known to be an
    [MxNode]: the method of the node's own class. *)
Variable dispatch : NodeId -> Key -> M (option NodeRef).

Definition _compute_node (node : NodeId) (out_key : Key) : M (option NodeRef) :=
  match graph node with
  | GForeign b =>
      run! emit (LogWarn ["Ignoring unsupported node"; bn_name b]) in
      ret None
  | _ => dispatch node out_key
  end.

Definition get_input_link (self : BNode) (in_key : Key) : M (option NodeRef) :=
  let! socket_in := lift (coll_get (inputs self) in_key) in
  match links socket_in with
  | [] => ret None
  | link :: _ =>
      run! (if is_valid link then ret tt
            else emit (LogError ["Invalid link found"; from_socket_name link;
                                 sock_name socket_in; bn_name self])) in
      _compute_node (from_node link) (KStr (from_socket_name link))
  end.

(** [getattr(self.prop, name)]. *)
Definition prop_getattr (prop : NodeProp) (name : string) : M PyVal :=
  lift (of_option AttributeError (prop_values prop !! name)).

Definition get_input_default (self : BNode) (prop : NodeProp) (in_key : Key)
  : M PyVal :=
  let! socket_in := lift (coll_get (inputs self) in_key) in
  prop_getattr prop (node_prop_name socket_in).

Definition get_input_value (self : BNode) (prop : NodeProp) (in_key : Key)
  : M InputValue :=
  let! node := get_input_link self in_key in
  match node with
  | Some n => ret (INode n)
  | None =>
      let! v := get_input_default self prop in_key in
      ret (ILit v)
  end.

Definition get_param_value (prop : NodeProp) (name : string) : M PyVal :=
  prop_getattr prop ("p_" +:+ name).

Definition get_nodedef_input (self : BNode) (prop : NodeProp) (in_key : Key)
  : M (option MxParam) :=
  let! socket_in := lift (coll_get (inputs self) in_key) in
  ret (getInput (prop_nodedef prop) (PyStr.drop 3 (node_prop_name socket_in))).

Definition get_nodedef_output (self : BNode) (prop : NodeProp) (out_key : Key)
  : M (option MxParam) :=
  let! socket_out := lift (coll_get (outputs self) out_key) in
  ret (getOutput (prop_nodedef prop) (code_str (sock_name socket_out))).

(** A method call on what [getInput] or [getOutput] answered. *)
Definition deref {A} (o : option A) : M A := lift (of_option AttributeError o).

(** [for in_key in range(len(self.inputs)): values.append(...)], from
    position [in_key] on. *)
Fixpoint input_values (self : BNode) (prop : NodeProp) (in_key : nat)
    (count : nat) : M (list InputValue) :=
  match count with
  | O => ret []
  | S count' =>
      let! v := get_input_value self prop (KInt in_key) in
      let! vs := input_values self prop (S in_key) count' in
      ret (v :: vs)
  end.

(** [for in_key, val in enumerate(values): ...], from position [in_key]
    on. *)
Fixpoint add_inputs (self : BNode) (prop : NodeProp) (node : NodeRef)
    (in_key : nat) (values : list InputValue) : M unit :=
  match values with
  | [] => ret tt
  | val :: values' =>
      let! nd_input := get_nodedef_input self prop (KInt in_key) in
      let! nd_input := deref nd_input in
      let! input := addInput node (mp_name nd_input) (mp_type nd_input) in
      run! set_value input val (mp_type nd_input) in
      add_inputs self prop node (S in_key) values'
  end.

(** [for nd_param in nodedef.getParameters(): ...]. *)
Fixpoint add_parameters (prop : NodeProp) (node : NodeRef)
    (params : list MxParam) : M unit :=
  match params with
  | [] => ret tt
  | nd_param :: params' =>
      let! val := get_param_value prop (mp_name nd_param) in
      let! param := addParameter node (mp_name nd_param) (mp_type nd_param) in
      run! set_value param (ILit val) (mp_type nd_param) in
      add_parameters prop node params'
  end.

(** [MxNode.compute(self, out_key, **kwargs)], with [kwargs['doc']] the
    document of the monad. *)
Definition MxNode_compute (self : BNode) (prop : NodeProp) (out_key : Key)
  : M (option NodeRef) :=
  run! emit (LogInfo ["compute"; bn_name self; key_repr out_key]) in
  let nodedef := prop_nodedef prop in
  let! nd_output := get_nodedef_output self prop out_key in
  let! values := input_values self prop 0 (length (inputs self)) in
  let! out_type := deref (mp_type <$> nd_output) in
  let! node := addNode (nd_node_string nodedef) (code_str (bn_name self)) out_type in
  run! add_inputs self prop node 0 values in
  run! add_parameters prop node (nd_parameters nodedef) in
  ret (Some node).

(** [MxNode_Output.compute(self, out_key, **kwargs)]. *)
Definition MxNode_Output_compute (self : BNode) (out_key : Key)
  : M (option NodeRef) :=
  run! emit (LogInfo ["compute"; bn_name self]) in
  let! node := get_input_link self (KStr "Surface") in
  match node with
  | None => ret None
  | Some node =>
      let! type := getType node in
      if String.eqb type "surfaceshader" then ret (Some node)
      else
        let! surface := addNode "surface" "surface" "surfaceshader" in
        let! type := getType node in
        let! input := addInput surface "bsdf" type in
        let! name := getName node in
        run! set_binding input (BNodeName name) in
        ret (Some surface)
  end.

End Compiler.

Section Dispatch.
Context `{MaterialX}.

(** Method dispatch on the class of the node.  Each call to a
    [compute] method takes one unit of [fuel], the depth Python leaves
    to the recursion; at depth zero the call raises [RecursionError].
    A node of another class has no such method to call. *)
Fixpoint compute (fuel : nat) (graph : Graph) (node : NodeId) (out_key : Key)
  : M (option NodeRef) :=
  match fuel with
  | O => raise RecursionError
  | S fuel' =>
      match graph node with
      | GMxNode self prop =>
          MxNode_compute graph (compute fuel' graph) self prop out_key
      | GOutput self =>
          MxNode_Output_compute graph (compute fuel' graph) self out_key
      | GForeign _ => raise AttributeError
      end
  end.

End Dispatch.

(** ** Sockets *)

Section Init.
Context `{Host}.

(** The name a socket is shown under: [uiname] when the nodedef gives
    one, [title_str] of the name when it does not. *)
Definition socket_label (mx_param : MxParam) : string :=
  if hasAttribute (mp_attrs mx_param) "uiname"
  then getAttribute (mp_attrs mx_param) "uiname"
  else title_str (mp_name mx_param).

(** [MxNode.create_input]: the socket [self.inputs.new] makes, once
    [node_prop_name] is set. *)
Definition create_input (mx_input : MxParam) : NodeSocket :=
  {| sock_name := socket_label mx_input;
     node_prop_name := "in_" +:+ mp_name mx_input;
     links := [] |}.

(** [MxNode.create_output]: a plain shader socket, which has no
    [node_prop_name] of its own. *)
Definition create_output (mx_output : MxParam) : NodeSocket :=
  {| sock_name := socket_label mx_output; node_prop_name := ""; links := [] |}.

(** [MxNode.init]: [new] adds each socket after those the node has. *)
Definition MxNode_init (self : BNode) (prop : NodeProp) : BNode :=
  {| bn_name := bn_name self;
     inputs := inputs self ++ (create_input <$> nd_inputs (prop_nodedef prop));
     outputs := outputs self ++ (create_output <$> nd_outputs (prop_nodedef prop)) |}.

(** [MxNode_Output.init]. *)
Definition MxNode_Output_init (self : BNode) : BNode :=
  {| bn_name := bn_name self;
     inputs := inputs self
               ++ [ {| sock_name := "Surface"; node_prop_name := ""; links := [] |};
                    {| sock_name := "Volume"; node_prop_name := ""; links := [] |};
                    {| sock_name := "Displacement"; node_prop_name := "";
                       links := [] |} ];
     outputs := outputs self |}.

(** A node as the editor hands it to [init]: named, with no socket. *)
Definition bare_node (name : string) : BNode :=
  {| bn_name := name; inputs := []; outputs := [] |}.

End Init.

(** ** A concrete host, to run the definitions *)

Module Sample.

Fixpoint digits (acc : Z) (s : string) : option Z :=
  match s with
  | EmptyString => Some acc
  | String c rest =>
      match PyStr.digit c with
      | Some d => digits (10 * acc + d) rest
      | None => None
      end
  end.

(** Unsigned decimal numerals only. *)
Definition numeral (s : string) : option Z :=
  match s with
  | EmptyString => None
  | _ => digits 0 s
  end.

Definition host : Host :=
  {| pyfloat := Z; py_float := numeral; py_int := numeral;
     title_str := fun s => s; code_str := fun s => s |}.

(** An [mx] module that has [Color3] and nothing else the examples
    ask for. *)
Definition materialx : @MaterialX host :=
  {| mx_value := string * @PyVal host;
     mx_getattr := fun name =>
       if String.eqb name "color3" then Some (fun v => Ok ("Color3", v))
       else None |}.

(** *** Schema *)

Definition param (name type : string) (attrs : list (string * string))
    (parent : string) : MxParam :=
  {| mp_name := name; mp_type := type; mp_attrs := list_to_map attrs;
     mp_parent_name := parent |}.

Definition nodedef (name node : string) (parameters ins outs : list MxParam)
  : MxNodeDef :=
  {| nd_name := name; nd_node_string := node; nd_attrs := ∅;
     nd_parameters := parameters; nd_inputs := ins; nd_outputs := outs |}.

Definition ND_constant_color3 : MxNodeDef :=
  nodedef "ND_constant_color3" "constant" []
    [param "value" "color3" [("value", "0,0,0")] "ND_constant_color3"]
    [param "out" "color3" [] "ND_constant_color3"].

Definition ND_constant_float : MxNodeDef :=
  nodedef "ND_constant_float" "constant" []
    [param "value" "float" [("value", "0")] "ND_constant_float"]
    [param "out" "float" [] "ND_constant_float"].

Definition ND_mix_color3 : MxNodeDef :=
  nodedef "ND_mix_color3" "mix"
    [param "amount" "float" [("value", "0")] "ND_mix_color3"]
    [param "fg" "color3" [("value", "0,0,0")] "ND_mix_color3";
     param "bg" "color3" [("value", "0,0,0")] "ND_mix_color3"]
    [param "out" "color3" [] "ND_mix_color3"].

Definition ND_standard_surface : MxNodeDef :=
  nodedef "ND_standard_surface" "standard_surface" []
    [param "base_color" "color3" [("value", "1,1,1")] "ND_standard_surface"]
    [param "out" "surfaceshader" [] "ND_standard_surface"].

Definition matrix34 : MxParam := param "m" "matrix34" [] "ND_sample".
Definition odd_type : MxParam := param "x" "quaternion" [] "ND_sample".

(** An enumeration and a bounded colour. *)
Definition mode : MxParam :=
  param "mode" "string"
    [("enum", "clamp, periodic"); ("value", "periodic"); ("uiname", "Mode")]
    "ND_sample".

Definition tint : MxParam :=
  param "tint" "color3"
    [("value", "1,0,0"); ("uimin", "0,0,0"); ("uimax", "1,1,1")] "ND_sample".

Definition schema_files : list (list MxNodeDef) :=
  [[ND_constant_color3; ND_constant_float]; [ND_mix_color3]].

(** The files of a small library: the two files above, a file that
    holds [ND_constant_color3] once more, and no file under any other
    path. *)
Definition readFromXmlFile (path : string) : Result (list MxNodeDef) :=
  if String.eqb path "stdlib_defs.mtlx"
  then Ok [ND_constant_color3; ND_constant_float]
  else if String.eqb path "mix_defs.mtlx" then Ok [ND_mix_color3]
  else if String.eqb path "more_defs.mtlx" then Ok [ND_constant_color3]
  else Raise (LibraryError "ExceptionFileMissing").

Definition schema_paths : list string := ["stdlib_defs.mtlx"; "mix_defs.mtlx"].

(** *** Graphs *)

Definition link (valid : bool) (node : NodeId) (socket : string) : NodeLink :=
  {| is_valid := valid; from_node := node; from_socket_name := socket |}.

Definition socket (name prop : string) (ls : list NodeLink) : NodeSocket :=
  {| sock_name := name; node_prop_name := prop; links := ls |}.

Definition color (r g b : Z) : @PyVal host :=
  @VTuple host [@VFloat host r; @VFloat host g; @VFloat host b].

(** A constant colour node [K]. *)
Definition K_node : BNode :=
  {| bn_name := "K"; inputs := [socket "Value" "in_value" []];
     outputs := [socket "out" "" []] |}.

Definition K_prop : @NodeProp host :=
  @Build_NodeProp host ND_constant_color3 {[ "in_value" := color 1 0 0 ]}.

Definition K : @GraphNode host := @GMxNode host K_node K_prop.

(** A mix node [M] whose [fg] and [bg] are linked as given. *)
Definition mix_node (fg bg : list NodeLink) : BNode :=
  {| bn_name := "M";
     inputs := [socket "Fg" "in_fg" fg; socket "Bg" "in_bg" bg];
     outputs := [socket "out" "" []] |}.

Definition mix_prop : @NodeProp host :=
  @Build_NodeProp host ND_mix_color3
    (<["in_fg" := color 0 0 0]>
       (<["in_bg" := color 0 0 0]> {[ "p_amount" := @VFloat host 7%Z ]})).

Definition mix (fg bg : list NodeLink) : @GraphNode host :=
  @GMxNode host (mix_node fg bg) mix_prop.

(** The property group of a mix node with a value for each of its
    inputs, parameters and outputs. *)
Definition mix_instance : @NodeProp host :=
  @Build_NodeProp host ND_mix_color3
    (<["out_out" := color 0 0 0]> (@prop_values host mix_prop)).

(** A surface shader node [S], fed by [K]. *)
Definition S : @GraphNode host :=
  @GMxNode host
    {| bn_name := "S";
       inputs := [socket "Base Color" "in_base_color" [link true 1 "out"]];
       outputs := [socket "out" "" []] |}
    (@Build_NodeProp host ND_standard_surface
       {[ "in_base_color" := color 1 1 1 ]}).

Definition output_node (surface : list NodeLink) : BNode :=
  {| bn_name := "Material Output";
     inputs := [socket "Surface" "" surface; socket "Volume" "" [];
                socket "Displacement" "" []];
     outputs := [] |}.

Definition output (surface : list NodeLink) : @GraphNode host :=
  @GOutput host (output_node surface).

(** An output node with links into [Surface] and [Volume]. *)
Definition output_with (surface volume : list NodeLink) : BNode :=
  {| bn_name := "Material Output";
     inputs := [socket "Surface" "" surface; socket "Volume" "" volume;
                socket "Displacement" "" []];
     outputs := [] |}.

Definition foreign_node : BNode :=
  {| bn_name := "Principled BSDF"; inputs := [];
     outputs := [socket "BSDF" "" []] |}.

Definition foreign : @GraphNode host := @GForeign host foreign_node.

(** Node 0 is [top]; node 1 is [K]; node 2 is a node of the editor that
    is no [MxNode]; node 3 is [S]; every other reference is a bare
    output node. *)
Definition graph_of (top : @GraphNode host) : @Graph host :=
  fun id =>
    match id with
    | 0 => top
    | 1 => K
    | 2 => foreign
    | 3 => S
    | _ => output []
    end.

(** [K] feeds both inputs of the mix node. *)
Definition shared : @Graph host :=
  graph_of (mix [link true 1 "out"] [link true 1 "out"]).

(** The link into [fg] is not valid; [bg] is not linked. *)
Definition broken : @Graph host := graph_of (mix [link false 1 "out"] []).

(** Nothing is linked to the mix node. *)
Definition alone : @Graph host := graph_of (mix [] []).

(** [fg] is linked to a node of another kind. *)
Definition alien : @Graph host := graph_of (mix [link true 2 "BSDF"] []).

(** Output nodes fed by [K], by [S], by nothing. *)
Definition wrapped : @Graph host := graph_of (output [link true 1 "out"]).
Definition direct : @Graph host := graph_of (output [link true 3 "out"]).
Definition unlinked : @Graph host := graph_of (output []).

(** [fg] is linked to an output of the mix node itself. *)
Definition looped : @Graph host := graph_of (mix [link true 0 "out"] []).

(** A rank for the graphs above in which [K] feeds the other nodes. *)
Definition rank (id : NodeId) : nat :=
  match id with
  | 1 => 0
  | _ => 1
  end.

(** *** Documents *)

Definition literal (r g b : Z) : @Binding host materialx :=
  @BValueMx host materialx ("Color3", color r g b).

Definition by_name (name : string) : @Binding host materialx :=
  @BNodeName host materialx name.

Definition port (name type : string) (b : @Binding host materialx)
  : @DocPort host materialx :=
  {| port_name := name; port_type := type; port_binding := Some b |}.

(** What [K] compiles to. *)
Definition doc_K : @DocNode host materialx :=
  {| dn_category := "constant"; dn_name := "K"; dn_type := "color3";
     dn_inputs := [port "value" "color3" (literal 1 0 0)];
     dn_parameters := [] |}.

(** What [M] compiles to, given what [fg] and [bg] are bound to. *)
Definition doc_M (fg bg : @Binding host materialx) : @DocNode host materialx :=
  {| dn_category := "mix"; dn_name := "M"; dn_type := "color3";
     dn_inputs := [port "fg" "color3" fg; port "bg" "color3" bg];
     dn_parameters :=
       [port "amount" "float" (@BValue host materialx (@VFloat host 7%Z))] |}.

(** What [S] compiles to. *)
Definition doc_S : @DocNode host materialx :=
  {| dn_category := "standard_surface"; dn_name := "S";
     dn_type := "surfaceshader";
     dn_inputs := [port "base_color" "color3" (by_name "K")];
     dn_parameters := [] |}.

End Sample.

(** * Vocabulary of the properties *)

(** ** Strings *)

(** [sep.join(toks)]. *)
Fixpoint join (sep : ascii) (toks : list string) : string :=
  match toks with
  | [] => EmptyString
  | [t] => t
  | t :: toks' => t +:+ String sep (join sep toks')
  end.

Fixpoint has_char (c : ascii) (s : string) : bool :=
  match s with
  | EmptyString => false
  | String a rest => Ascii.eqb a c || has_char c rest
  end.

(** The last character of a string. *)
Fixpoint last_char (s : string) : option ascii :=
  match s with
  | EmptyString => None
  | String c EmptyString => Some c
  | String _ rest => last_char rest
  end.

(** ** Property descriptors *)

(** The type strings that carry their size or end in [array], with what
    each must lead to: the subtype and size of a float vector, or
    nothing for an array type. *)
Inductive type_shape : string -> option (string * Z) -> Prop :=
| shape_matrix r c R C :
    PyStr.digit r = Some R -> PyStr.digit c = Some C ->
    type_shape ("matrix" +:+ String r (String c EmptyString))
               (Some ("MATRIX", (R * C)%Z))
| shape_color n N :
    PyStr.digit n = Some N ->
    type_shape ("color" +:+ String n EmptyString) (Some ("COLOR", N))
| shape_vector n N :
    PyStr.digit n = Some N ->
    type_shape ("vector" +:+ String n EmptyString)
               (Some (if decide (N = 3%Z) then "XYZ" else "NONE", N))
| shape_array pre :
    type_shape (pre +:+ "array") None.

(** The type strings some rule of [create_property] recognizes. *)
Definition recognized (mx_type : string) : Prop :=
  mx_type ∈ ["string"; "filename"; "integer"; "float"; "boolean";
             "surfaceshader"; "displacementshader"; "volumeshader";
             "lightshader"; "material"; "BSDF"; "VDF"; "EDF"]
  \/ (exists r c, is_Some (PyStr.digit r) /\ is_Some (PyStr.digit c)
                  /\ mx_type = "matrix" +:+ String r (String c EmptyString))
  \/ (exists n, is_Some (PyStr.digit n)
                /\ mx_type = "color" +:+ String n EmptyString)
  \/ (exists n, is_Some (PyStr.digit n)
                /\ mx_type = "vector" +:+ String n EmptyString)
  \/ (exists pre, pre ≠ EmptyString /\ PyStr.all_dot pre = true
                  /\ mx_type = pre +:+ "array").

(** The attributes [create_property] hands to [parse_val]. *)
Definition parsed_keys : list string :=
  ["uimin"; "uimax"; "uisoftmin"; "uisoftmax"; "value"].

Definition is_ok {A} (r : Result A) : bool :=
  match r with
  | Ok _ => true
  | Raise _ => false
  end.

Section SchemaVocabulary.
Context `{Host}.

(** An attribute that is set and holds a token [float] rejects. *)
Definition bad_float_attr (mx_param : MxParam) (key : string) : Prop :=
  hasAttribute (mp_attrs mx_param) key = true
  /\ mapM py_float (PyStr.split "," (getAttribute (mp_attrs mx_param) key)) = None.

(** The entries the type rule wrote are the ones the rest keeps. *)
Definition same_shape (a a' : PropAttrs) : Prop :=
  pa_items a' = pa_items a /\ pa_subtype a' = pa_subtype a
  /\ pa_size a' = pa_size a.

Definition keeps_shape (set : PyVal -> PropAttrs -> PropAttrs) : Prop :=
  forall v a, same_shape a (set v a).

(** The identifiers of the variants of a node type. *)
Definition variant_ids (t : MxNodeType) : list string :=
  (fun it => it.1.1) <$> var_items t.

Definition nodedef_name (nd_type : MxNodedefType) : string :=
  nd_name (mx_nodedef nd_type).

End SchemaVocabulary.

(** ** Grouping *)

(** What the dictionary holds once the values [xs] have been filed
    under their keys: every key once, each key with the values that
    carry it, in the order they came, and no key without a value. *)
Definition files_of {K V : Type} `{EqDecision K} (key_of : V -> K)
    (d : list (K * list V)) (xs : list V) : Prop :=
  NoDup d.*1
  /\ (forall k ms, (k, ms) ∈ d ->
        ms = filter (fun x => key_of x = k) xs /\ ms ≠ [])
  /\ (forall x, x ∈ xs -> key_of x ∈ d.*1).

(** The keys of a list in the order of their first occurrence. *)
Fixpoint first_occurrences {K : Type} `{EqDecision K} (l : list K) : list K :=
  match l with
  | [] => []
  | k :: l' => k :: filter (fun x => x ≠ k) (first_occurrences l')
  end.

(** A key joins the keys seen so far when it is new among them. *)
Definition note_key {K : Type} `{EqDecision K} (acc : list K) (k : K) : list K :=
  if decide (k ∈ acc) then acc else acc ++ [k].

(** ** Documents and compilations *)

(** The socket with its links taken away. *)
Definition without_links (s : NodeSocket) : NodeSocket :=
  {| sock_name := sock_name s; node_prop_name := node_prop_name s; links := [] |}.

(** The node with nothing linked to its input at position [i]. *)
Definition unlink (self : BNode) (i : nat) : BNode :=
  {| bn_name := bn_name self; inputs := alter without_links i (inputs self);
     outputs := outputs self |}.

Section CompilerVocabulary.
Context `{MaterialX}.

(** The names a document node refers to from its ports. *)
Definition references (n : DocNode) : list string :=
  omap (fun p => match port_binding p with
                 | Some (BNodeName name) => Some name
                 | _ => None
                 end)
       (dn_inputs n ++ dn_parameters n).

(** Upstream before downstream: whatever name a node refers to is the
    name of a node added to the document before it. *)
Definition topological (d : Document) : Prop :=
  forall i n, d !! i = Some n ->
    forall name, name ∈ references n -> name ∈ dn_name <$> take i d.

(** What running a piece of the compiler from document [d] gives. *)
Definition yields {A} (m : M A) (d : Document)
    (Q : Result A -> Document -> Prop) : Prop :=
  forall r d' l, m d = (r, d', l) -> Q r d'.

(** The document only gains nodes at its end and stays in order. *)
Definition grows (d d' : Document) : Prop :=
  d `prefix_of` d' /\ (topological d -> topological d').

(** A node handed back is the last of the document, and new. *)
Definition fresh_last (d : Document) (r : Result (option NodeRef))
    (d' : Document) : Prop :=
  forall n, r = Ok (Some n) -> length d <= n /\ S n = length d'.

Definition bound_port (name type : string) (b : option Binding) : DocPort :=
  {| port_name := name; port_type := type; port_binding := b |}.

(** The node [x'] is the node [x] with more ports, and the names the
    new ports refer to are names of nodes of [d]. *)
Definition extends_node (d : Document) (x x' : DocNode) : Prop :=
  dn_name x' = dn_name x /\ dn_type x' = dn_type x
  /\ dn_category x' = dn_category x
  /\ forall name, name ∈ references x' ->
       name ∈ references x \/ name ∈ dn_name <$> d.

(** Steps that only read. *)
Definition reads {A} (m : M A) : Prop :=
  forall d, exists r l, m d = (r, d, l).

(** The wrapper [MxNode_Output.compute] puts around the node [up]. *)
Definition surface_of (up : DocNode) : DocNode :=
  {| dn_category := "surface"; dn_name := "surface"; dn_type := "surfaceshader";
     dn_inputs := [bound_port "bsdf" (dn_type up) (Some (BNodeName (dn_name up)))];
     dn_parameters := [] |}.

(** What a compilation leaves behind. *)
Definition compiled (d : Document) (r : Result (option NodeRef))
    (d' : Document) : Prop :=
  grows d d' /\ fresh_last d r d'.

(** A value is a literal or a node of the document. *)
Definition value_in (d : Document) (r : Result InputValue) (d' : Document) : Prop :=
  grows d d' /\ forall n, r = Ok (INode n) -> n < length d'.

Definition values_in (d : Document) (r : Result (list InputValue))
    (d' : Document) : Prop :=
  grows d d' /\ forall vs, r = Ok vs -> forall n, INode n ∈ vs -> n < length d'.

Definition none_unchanged (d : Document) (r : Result (option NodeRef))
    (d' : Document) : Prop :=
  r = Ok None -> d' = d.

(** Two pieces of code that give the same result and the same document,
    whatever they log. *)
Definition same_run {A} (m m' : M A) : Prop :=
  forall d, (m d).1 = (m' d).1.

(** What [get_input_value] answers when it falls back on the value the
    node holds for the socket [s]. *)
Definition literal_of (prop : NodeProp) (s : NodeSocket) : Result InputValue :=
  match prop_values prop !! node_prop_name s with
  | Some v => Ok (ILit v)
  | None => Raise AttributeError
  end.

End CompilerVocabulary.

(** ** Property descriptors, further *)

Section DescriptorVocabulary.
Context `{Host}.

(** The attribute [key] of the parameter is set and cannot be parsed at
    the parameter's type: no [int] for [integer], no [float] for
    [float], a token that is no [float] for a sized vector type. *)
Definition unparsable (mx_param : MxParam) (key : string) : Prop :=
  hasAttribute (mp_attrs mx_param) key = true
  /\ ((mp_type mx_param = "integer"
       /\ py_int (getAttribute (mp_attrs mx_param) key) = None)
      \/ (mp_type mx_param = "float"
          /\ py_float (getAttribute (mp_attrs mx_param) key) = None)
      \/ ((exists subtype size,
             type_shape (mp_type mx_param) (Some (subtype, size)))
          /\ mapM py_float
               (PyStr.split "," (getAttribute (mp_attrs mx_param) key)) = None)).

(** The entry of [prop_attrs] that [parse_val] fills from the attribute
    [key]: there with the parsed value when the attribute is set, not
    there when it is not. *)
Definition attr_entry (mx_param : MxParam) (prop_type : PropType)
    (key : string) (first_only : bool) (entry : option PyVal) : Prop :=
  if hasAttribute (mp_attrs mx_param) key
  then exists v,
         parse_val prop_type (getAttribute (mp_attrs mx_param) key) first_only
         = Ok v
         /\ entry = Some v
  else entry = None.

(** The attributes [fill_attrs] parses, each with its [first_only]. *)
Definition parsed_with (prop_type : PropType) : list (string * bool) :=
  [("uimin", true); ("uimax", true); ("uisoftmin", true); ("uisoftmax", true);
   ("value", bool_decide (prop_type = EnumProperty))].

(** The entry is the one [parse_val] fills from the attribute [key] when
    the attribute is set, and [before] when it is not. *)
Definition attr_entry_from (before : option PyVal) (mx_param : MxParam)
    (prop_type : PropType) (key : string) (first_only : bool)
    (entry : option PyVal) : Prop :=
  if hasAttribute (mp_attrs mx_param) key
  then exists v,
         parse_val prop_type (getAttribute (mp_attrs mx_param) key) first_only
         = Ok v
         /\ entry = Some v
  else entry = before.

(** The entries the type rule leaves for the rest to fill. *)
Definition unfilled (a : PropAttrs) : Prop :=
  pa_name a = None /\ pa_description a = None /\ pa_min a = None
  /\ pa_max a = None /\ pa_soft_min a = None /\ pa_soft_max a = None
  /\ pa_default a = None.

(** When the attribute [key] is set, the entry is the [float] of the
    first token of the attribute. *)
Definition first_float (mx_param : MxParam) (key : string)
    (entry : option PyVal) : Prop :=
  hasAttribute (mp_attrs mx_param) key = true ->
  exists t rest f,
    PyStr.split "," (getAttribute (mp_attrs mx_param) key) = t :: rest
    /\ py_float t = Some f /\ entry = Some (VFloat f).

(** What [MxNodedef.new] keeps of a parameter: the type and the
    dictionary [create_property] returns for it. *)
Definition annotation_of (mx_param : MxParam) : option (PropType * PropAttrs) :=
  match (create_property mx_param).1 with
  | Ok (_, prop_type, prop_attrs) => Some (prop_type, prop_attrs)
  | Raise _ => None
  end.

(** All the parameters, inputs and outputs of a nodedef. *)
Definition all_params (nd : MxNodeDef) : list MxParam :=
  nd_parameters nd ++ nd_inputs nd ++ nd_outputs nd.

(** The entries [log.error] wrote. *)
Definition is_error (e : LogEntry) : bool :=
  match e with
  | LogError _ => true
  | _ => false
  end.

(** The first and the last character of a string are no white space. *)
Definition trimmed (s : string) : Prop :=
  (forall c rest, s = String c rest -> PyStr.is_space c = false)
  /\ (forall c, last_char s = Some c -> PyStr.is_space c = false).

End DescriptorVocabulary.

(** ** What a compilation emits *)

Section EmissionVocabulary.
Context `{MaterialX}.

(** What [set_value] stores for a value that is no node. *)
Definition stored_as (v : PyVal) (nd_type : string) (b : Binding) : Prop :=
  if String.eqb nd_type "filename" then b = BValueString v
  else match mx_getattr (title_str nd_type) with
       | Some mx_type => exists x, mx_type v = Ok x /\ b = BValueMx x
       | None => b = BValue v
       end.

(** What [set_value] stores for [val], a literal or a node of [d]. *)
Definition bound_to (d : Document) (val : InputValue) (nd_type : string)
    (b : Binding) : Prop :=
  match val with
  | INode n => exists up, d !! n = Some up /\ b = BNodeName (dn_name up)
  | ILit v => stored_as v nd_type b
  end.

(** What [get_input_value] may answer for the socket [s]: a node when
    something is linked, the value the node holds for the socket. *)
Definition socket_value (prop : NodeProp) (s : NodeSocket) (val : InputValue)
  : Prop :=
  match val with
  | INode _ => links s ≠ []
  | ILit v => prop_values prop !! node_prop_name s = Some v
  end.

(** The port made for the socket and the value read for it. *)
Definition port_of (prop : NodeProp) (d : Document)
    (sv : NodeSocket * InputValue) (port : DocPort) : Prop :=
  exists nd_input b,
    getInput (prop_nodedef prop) (PyStr.drop 3 (node_prop_name sv.1))
    = Some nd_input
    /\ port = bound_port (mp_name nd_input) (mp_type nd_input) (Some b)
    /\ bound_to d sv.2 (mp_type nd_input) b.

(** The input port of the node at position [n] of [d] that stands for
    the socket [s]: named and typed as the nodedef input of the socket,
    and set either to the name of a node before [n], or to the value the
    node holds for the socket. *)
Definition input_port (prop : NodeProp) (d : Document) (n : nat)
    (s : NodeSocket) (port : DocPort) : Prop :=
  exists nd_input b,
    getInput (prop_nodedef prop) (PyStr.drop 3 (node_prop_name s))
    = Some nd_input
    /\ port = bound_port (mp_name nd_input) (mp_type nd_input) (Some b)
    /\ ((links s ≠ []
         /\ exists j up, j < n /\ d !! j = Some up /\ b = BNodeName (dn_name up))
        \/ (exists v, prop_values prop !! node_prop_name s = Some v
                      /\ stored_as v (mp_type nd_input) b)).

(** The port that stands for the parameter [p] of the nodedef: set to
    the value the node holds under [p_] and the name. *)
Definition parameter_port (prop : NodeProp) (p : MxParam) (port : DocPort)
  : Prop :=
  exists v b,
    prop_values prop !! ("p_" +:+ mp_name p) = Some v
    /\ stored_as v (mp_type p) b
    /\ port = bound_port (mp_name p) (mp_type p) (Some b).

(** The port that stands for the input [p] of the nodedef when nothing
    is linked to its socket: set to the value the node holds under
    [in_] and the name. *)
Definition unlinked_port (prop : NodeProp) (p : MxParam) (port : DocPort)
  : Prop :=
  exists v b,
    prop_values prop !! ("in_" +:+ mp_name p) = Some v
    /\ stored_as v (mp_type p) b
    /\ port = bound_port (mp_name p) (mp_type p) (Some b).

End EmissionVocabulary.

(** ** The recursion through links *)

Section RecursionVocabulary.
Context `{Host}.

(** The node is a schema node with an input whose first link comes from
    a node of [P]. *)
Definition feeds_on (graph : Graph) (P : NodeId -> Prop) (node : NodeId) : Prop :=
  exists self prop i s link rest,
    graph node = GMxNode self prop
    /\ inputs self !! i = Some s
    /\ links s = link :: rest
    /\ P (from_node link).

(** The sockets whose first link a [compute] method may follow. *)
Definition followed (n : GraphNode) : list NodeSocket :=
  match n with
  | GMxNode self _ => inputs self
  | GOutput self => inputs self
  | GForeign _ => []
  end.

(** Every link that may be followed leads to a node of lower rank. *)
Definition ranked (graph : Graph) (rank : NodeId -> nat) : Prop :=
  forall node s link rest,
    s ∈ followed (graph node) -> links s = link :: rest ->
    rank (from_node link) < rank node.

End RecursionVocabulary.

(** * Properties *)

(** ** Splitting and joining *)

Lemma split_not_nil sep s : PyStr.split sep s ≠ [].
Proof.
  destruct s as [|c rest]; simpl; [done|].
  destruct (Ascii.eqb c sep); [done|].
  by destruct (PyStr.split sep rest).
Qed.

Lemma join_cons sep t toks :
  toks ≠ [] -> join sep (t :: toks) = t +:+ String sep (join sep toks).
Proof. by destruct toks. Qed.

Lemma join_split sep s : join sep (PyStr.split sep s) = s.
Proof.
  induction s as [|c rest IH]; simpl; [done|].
  destruct (Ascii.eqb_spec c sep) as [->|Hne].
  - rewrite join_cons by apply split_not_nil. simpl. by rewrite IH.
  - pose proof (split_not_nil sep rest) as Hnil.
    destruct (PyStr.split sep rest) as [|h t]; [done|].
    destruct t as [|h' t'].
    + simpl in *. by rewrite IH.
    + rewrite <- IH. rewrite !(join_cons _ _ (h' :: t')) by done. reflexivity.
Qed.

Lemma split_sep_free sep s :
  Forall (fun t => has_char sep t = false) (PyStr.split sep s).
Proof.
  induction s as [|c rest IH]; simpl; [by repeat constructor|].
  destruct (Ascii.eqb c sep) eqn:Hc.
  - by constructor.
  - destruct (PyStr.split sep rest) as [|h t].
    + repeat constructor. simpl. by rewrite Hc.
    + inversion IH; subst. constructor; [|done]. simpl. by rewrite Hc.
Qed.

Lemma split_sep_free_string sep t :
  has_char sep t = false -> PyStr.split sep t = [t].
Proof.
  induction t as [|c rest IH]; simpl; [done|].
  destruct (Ascii.eqb c sep); [done|]. simpl. intros Hr. by rewrite IH.
Qed.

Lemma split_append sep t s :
  has_char sep t = false ->
  PyStr.split sep (t +:+ String sep s) = t :: PyStr.split sep s.
Proof.
  induction t as [|c rest IH]; simpl.
  - by rewrite Ascii.eqb_refl.
  - destruct (Ascii.eqb c sep); [done|]. simpl. intros Hr. by rewrite IH.
Qed.

(** A string has one reading as separated tokens. *)
Lemma split_join sep toks :
  toks ≠ [] -> Forall (fun t => has_char sep t = false) toks ->
  PyStr.split sep (join sep toks) = toks.
Proof.
  induction toks as [|t toks IH]; [done|]. intros _ Hfree.
  inversion Hfree as [|? ? Ht Htoks]; subst.
  destruct toks as [|t' toks'].
  - simpl. by apply split_sep_free_string.
  - rewrite join_cons by done. rewrite split_append by done.
    by rewrite IH.
Qed.

(** ** [parse_val] *)

Section ParseValFacts.
Context `{Host}.

Lemma result_map_floats toks :
  result_map (fun x => of_option ValueError (VFloat <$> py_float x)) toks
  = match mapM py_float toks with
    | Some fs => Ok (VFloat <$> fs)
    | None => Raise ValueError
    end.
Proof.
  induction toks as [|t toks IH]; [done|].
  cbn [result_map]. rewrite IH.
  change (mapM py_float (t :: toks))
    with (py_float t ≫= fun y => mapM py_float toks ≫= fun ys => Some (y :: ys)).
  destruct (py_float t); [|done]. simpl.
  by destruct (mapM py_float toks).
Qed.

End ParseValFacts.

(** C8. [parse_val], for every input string [val].  A boolean property
    gives true for the literal [true] and false for any other string,
    whatever [first_only] is.  [val] reads in exactly one way as tokens
    separated by commas ([toks], not empty, no comma inside a token): a
    float-vector property gives the tuple of the tokens' floats, and
    [ValueError] when one of them is no float; an enum property gives the
    tuple of the tokens with the white space around each stripped.  With
    [first_only] both give the first element of that tuple alone. *)
Theorem parse_val_rules `{Host} (val : string) :
  (forall first_only,
     parse_val BoolProperty val first_only
     = Ok (VBool (bool_decide (val = "true"))))
  /\ exists toks,
       toks ≠ []
       /\ Forall (fun t => has_char "," t = false) toks
       /\ join "," toks = val
       /\ (forall toks', toks' ≠ [] ->
             Forall (fun t => has_char "," t = false) toks' ->
             join "," toks' = val -> toks' = toks)
       /\ parse_val FloatVectorProperty val false
          = match mapM py_float toks with
            | Some fs => Ok (VTuple (VFloat <$> fs))
            | None => Raise ValueError
            end
       /\ parse_val FloatVectorProperty val true
          = match mapM py_float toks with
            | Some fs => of_option IndexError (VFloat <$> head fs)
            | None => Raise ValueError
            end
       /\ is_Some (head toks)
       /\ parse_val EnumProperty val false
          = Ok (VTuple ((fun t => VStr (PyStr.strip t)) <$> toks))
       /\ Some (parse_val EnumProperty val true)
          = (fun t => Ok (VStr (PyStr.strip t))) <$> head toks.
Proof.
  split.
  - intros first_only. simpl. f_equal. f_equal.
    destruct (String.eqb_spec val "true") as [->|Hne].
    + by rewrite bool_decide_eq_true_2.
    + by rewrite bool_decide_eq_false_2.
  - exists (PyStr.split "," val).
    pose proof (split_not_nil "," val) as Hnil.
    split_and!.
    + done.
    + apply split_sep_free.
    + apply join_split.
    + intros toks' Hne Hfree <-. symmetry. by apply split_join.
    + unfold parse_val. rewrite result_map_floats.
      by destruct (mapM py_float _).
    + unfold parse_val. rewrite result_map_floats.
      destruct (mapM py_float _) as [fs|]; [|done]. simpl.
      by destruct fs.
    + by destruct (PyStr.split "," val).
    + done.
    + unfold parse_val. by destruct (PyStr.split "," val).
Qed.

(** ** The patterns [create_property] matches types against *)

Lemma after_prefix_app pre rest : PyStr.after_prefix pre (pre +:+ rest) = Some rest.
Proof.
  induction pre as [|a pre IH]; simpl; [done|].
  by rewrite Ascii.eqb_refl.
Qed.

Lemma after_prefix_inv pre s rest :
  PyStr.after_prefix pre s = Some rest -> s = pre +:+ rest.
Proof.
  revert s. induction pre as [|a pre IH]; intros s; simpl.
  - by intros [= ->].
  - destruct s as [|b s]; [done|].
    destruct (Ascii.eqb_spec a b) as [->|]; [|done].
    intros Hs. by rewrite (IH _ Hs).
Qed.

Lemma match_digit_app pre n N :
  PyStr.digit n = Some N ->
  PyStr.match_digit pre (pre +:+ String n EmptyString) = Some N.
Proof. intros Hn. unfold PyStr.match_digit. by rewrite after_prefix_app. Qed.

Lemma match_digit_inv pre s N :
  PyStr.match_digit pre s = Some N ->
  exists n, s = pre +:+ String n EmptyString /\ PyStr.digit n = Some N.
Proof.
  unfold PyStr.match_digit.
  destruct (PyStr.after_prefix pre s) as [[|n [|? ?]]|] eqn:Hs; try done.
  intros Hn. exists n. split; [by apply after_prefix_inv|done].
Qed.

Lemma match_digit2_app pre r c R C :
  PyStr.digit r = Some R -> PyStr.digit c = Some C ->
  PyStr.match_digit2 pre (pre +:+ String r (String c EmptyString)) = Some (R, C).
Proof.
  intros Hr Hc. unfold PyStr.match_digit2.
  by rewrite after_prefix_app, Hr, Hc.
Qed.

Lemma match_digit2_inv pre s R C :
  PyStr.match_digit2 pre s = Some (R, C) ->
  exists r c, s = pre +:+ String r (String c EmptyString)
              /\ PyStr.digit r = Some R /\ PyStr.digit c = Some C.
Proof.
  unfold PyStr.match_digit2.
  destruct (PyStr.after_prefix pre s) as [[|r [|c [|? ?]]]|] eqn:Hs; try done.
  destruct (PyStr.digit r) as [x|] eqn:Hr; [|done].
  destruct (PyStr.digit c) as [y|] eqn:Hc; [|done].
  intros [= <- <-]. exists r, c. split; [by apply after_prefix_inv|done].
Qed.

Lemma match_array_inv s :
  PyStr.match_array s = true ->
  exists pre, pre ≠ EmptyString /\ PyStr.all_dot pre = true /\ s = pre +:+ "array".
Proof.
  induction s as [|c rest IH]; simpl; [done|].
  intros [Hc Hrest]%andb_true_iff.
  apply orb_true_iff in Hrest as [Heq|Hrec].
  - apply String.eqb_eq in Heq as ->.
    exists (String c EmptyString). simpl. by rewrite Hc.
  - destruct (IH Hrec) as (pre & _ & Hdot & ->).
    exists (String c pre). simpl. by rewrite Hc, Hdot.
Qed.

Lemma match_array_app pre :
  pre ≠ EmptyString -> PyStr.all_dot pre = true ->
  PyStr.match_array (pre +:+ "array") = true.
Proof.
  induction pre as [|c pre IH]; [done|]. intros _.
  simpl. intros [Hc Hdot]%andb_true_iff. rewrite Hc. simpl.
  destruct pre as [|c' pre']; [done|].
  rewrite IH by done. apply orb_true_r.
Qed.

Lemma last_char_app s c t :
  last_char (s +:+ String c t) = last_char (String c t).
Proof.
  induction s as [|a s IH]; [done|].
  change (String a s +:+ String c t) with (String a (s +:+ String c t)).
  cbn [last_char]. destruct (s +:+ String c t) eqn:Hs; [|done].
  by destruct s.
Qed.

Lemma match_digit_last pre s N :
  PyStr.match_digit pre s = Some N ->
  exists c, last_char s = Some c /\ PyStr.digit c = Some N.
Proof.
  intros (n & -> & Hn)%match_digit_inv. exists n.
  by rewrite last_char_app.
Qed.

Lemma match_digit2_last pre s R C :
  PyStr.match_digit2 pre s = Some (R, C) ->
  exists c, last_char s = Some c /\ PyStr.digit c = Some C.
Proof.
  intros (r & c & -> & _ & Hc)%match_digit2_inv. exists c.
  by rewrite last_char_app.
Qed.

(** ** [create_property] *)

Section CreatePropertyFacts.
Context `{Host}.

Lemma same_shape_refl a : same_shape a a.
Proof. done. Qed.

Lemma same_shape_trans a b c : same_shape a b -> same_shape b c -> same_shape a c.
Proof. unfold same_shape. intros (?&?&?) (?&?&?). split_and!; congruence. Qed.

Lemma parse_val_float_vector val first_only :
  match mapM py_float (PyStr.split "," val) with
  | Some fs => exists v, parse_val FloatVectorProperty val first_only = Ok v
  | None => parse_val FloatVectorProperty val first_only = Raise ValueError
  end.
Proof.
  unfold parse_val. rewrite result_map_floats.
  pose proof (split_not_nil "," val) as Hnil.
  destruct (mapM py_float _) as [fs|] eqn:Hfs; [|done]. simpl.
  destruct first_only; [|by eexists].
  destruct fs as [|f fs]; [|by eexists].
  apply length_mapM in Hfs. by destruct (PyStr.split "," val).
Qed.

Lemma parsed_attr_float_vector p key first_only set a :
  keeps_shape set ->
  match parsed_attr p FloatVectorProperty key first_only set a with
  | Ok a' => same_shape a a' /\ ~ bad_float_attr p key
  | Raise e => e = ValueError /\ bad_float_attr p key
  end.
Proof.
  intros Hset. unfold parsed_attr, bad_float_attr.
  destruct (hasAttribute _ key) eqn:Hhas.
  - pose proof (parse_val_float_vector
                  (getAttribute (mp_attrs p) key) first_only) as Hp.
    destruct (mapM py_float _) as [fs|].
    + destruct Hp as [v ->]. simpl. split; [apply Hset|]. by intros [_ ?].
    + rewrite Hp. simpl. done.
  - split; [done|]. by intros [? _].
Qed.

Lemma parsed_attr_string p key first_only set a :
  keeps_shape set ->
  exists a', parsed_attr p StringProperty key first_only set a = Ok a'
             /\ same_shape a a'.
Proof.
  intros Hset. unfold parsed_attr.
  destruct (hasAttribute _ key); simpl; eauto using same_shape_refl.
Qed.

Lemma keeps_shape_setters :
  keeps_shape set_min /\ keeps_shape set_max /\ keeps_shape set_soft_min
  /\ keeps_shape set_soft_max /\ keeps_shape set_default.
Proof. by split_and!. Qed.

Lemma fill_attrs_float_vector p a :
  match fill_attrs p FloatVectorProperty a with
  | Ok a' =>
      same_shape a a' /\ forall key, key ∈ parsed_keys -> ~ bad_float_attr p key
  | Raise e =>
      e = ValueError /\ exists key, key ∈ parsed_keys /\ bad_float_attr p key
  end.
Proof.
  destruct keeps_shape_setters as (Hmin & Hmax & Hsmin & Hsmax & Hdef).
  unfold fill_attrs, parsed_keys.
  set (a0 := set_description _ (set_name _ a)).
  assert (same_shape a a0) as H0 by done. clearbody a0.
  pose proof (parsed_attr_float_vector p "uimin" true set_min a0 Hmin) as H1.
  destruct (parsed_attr p _ "uimin" _ _ a0) as [a1|e]; simpl;
    [|split; [apply H1|exists "uimin"; split; [repeat constructor|apply H1]]].
  pose proof (parsed_attr_float_vector p "uimax" true set_max a1 Hmax) as H2.
  destruct (parsed_attr p _ "uimax" _ _ a1) as [a2|e]; simpl;
    [|split; [apply H2|exists "uimax"; split; [repeat constructor|apply H2]]].
  pose proof (parsed_attr_float_vector p "uisoftmin" true set_soft_min a2 Hsmin) as H3.
  destruct (parsed_attr p _ "uisoftmin" _ _ a2) as [a3|e]; simpl;
    [|split; [apply H3|exists "uisoftmin"; split; [repeat constructor|apply H3]]].
  pose proof (parsed_attr_float_vector p "uisoftmax" true set_soft_max a3 Hsmax) as H4.
  destruct (parsed_attr p _ "uisoftmax" _ _ a3) as [a4|e]; simpl;
    [|split; [apply H4|exists "uisoftmax"; split; [repeat constructor|apply H4]]].
  pose proof (parsed_attr_float_vector p "value"
                (bool_decide (FloatVectorProperty = EnumProperty))
                set_default a4 Hdef) as H5.
  destruct (parsed_attr p _ "value" _ _ a4) as [a5|e]; simpl;
    [|split; [apply H5|exists "value"; split; [repeat constructor|apply H5]]].
  split.
  - destruct H1, H2, H3, H4, H5. eauto 10 using same_shape_trans.
  - intros key Hkey.
    destruct H1, H2, H3, H4, H5.
    repeat (apply elem_of_cons in Hkey as [->|Hkey]; [done|]).
    by apply elem_of_nil in Hkey.
Qed.

Lemma fill_attrs_string p a :
  exists a', fill_attrs p StringProperty a = Ok a' /\ same_shape a a'.
Proof.
  destruct keeps_shape_setters as (Hmin & Hmax & Hsmin & Hsmax & Hdef).
  unfold fill_attrs.
  set (a0 := set_description _ (set_name _ a)).
  assert (same_shape a a0) as H0 by done. clearbody a0.
  destruct (parsed_attr_string p "uimin" true set_min a0 Hmin) as (a1 & -> & H1).
  cbn [result_bind].
  destruct (parsed_attr_string p "uimax" true set_max a1 Hmax) as (a2 & -> & H2).
  cbn [result_bind].
  destruct (parsed_attr_string p "uisoftmin" true set_soft_min a2 Hsmin)
    as (a3 & -> & H3).
  cbn [result_bind].
  destruct (parsed_attr_string p "uisoftmax" true set_soft_max a3 Hsmax)
    as (a4 & -> & H4).
  cbn [result_bind].
  destruct (parsed_attr_string p "value"
              (bool_decide (StringProperty = EnumProperty)) set_default a4 Hdef)
    as (a5 & Ha5 & H5).
  exists a5. split; [done|]. eauto 10 using same_shape_trans.
Qed.

End CreatePropertyFacts.

Section TypeRuleFacts.
Context `{Host}.

Lemma type_rule_shape p st sz :
  type_shape (mp_type p) (Some (st, sz)) ->
  type_rule p
  = (Ok (FloatVectorProperty, set_size sz (set_subtype st no_attrs)), []).
Proof.
  intros Hshape. unfold type_rule.
  remember (mp_type p) as ty eqn:Hty.
  remember (Some (st, sz)) as sh eqn:Hsh.
  destruct Hshape as [r c R C Hr Hc|n N Hn|n N Hn|pre];
    [injection Hsh as <- <-..|done].
  - change (String.eqb _ "string") with false.
    change (String.eqb _ "filename") with false.
    change (String.eqb _ "integer") with false.
    change (String.eqb _ "float") with false.
    change (String.eqb _ "boolean") with false.
    change (existsb _ shader_types) with false.
    cbv iota. by rewrite (match_digit2_app "matrix" r c R C).
  - change (String.eqb _ "string") with false.
    change (String.eqb _ "filename") with false.
    change (String.eqb _ "integer") with false.
    change (String.eqb _ "float") with false.
    change (String.eqb _ "boolean") with false.
    change (existsb _ shader_types) with false.
    change (PyStr.match_digit2 "matrix" _) with (@None (Z * Z)).
    cbv iota. by rewrite (match_digit_app "color" n N).
  - change (String.eqb _ "string") with false.
    change (String.eqb _ "filename") with false.
    change (String.eqb _ "integer") with false.
    change (String.eqb _ "float") with false.
    change (String.eqb _ "boolean") with false.
    change (existsb _ shader_types) with false.
    change (PyStr.match_digit2 "matrix" _) with (@None (Z * Z)).
    change (PyStr.match_digit "color" _) with (@None Z).
    cbv iota. rewrite (match_digit_app "vector" n N) by done.
    destruct (Z.eqb_spec N 3) as [->|Hne].
    + by rewrite decide_True.
    + by rewrite decide_False.
Qed.

Lemma digit_y : PyStr.digit "y" = None.
Proof. reflexivity. Qed.

Lemma type_rule_last_y p :
  last_char (mp_type p) = Some "y"%char ->
  exists log, type_rule p = (Ok (StringProperty, no_attrs), log).
Proof.
  intros Hlast. unfold type_rule.
  destruct (String.eqb_spec (mp_type p) "string") as [E|_];
    [by rewrite E in Hlast|].
  destruct (String.eqb_spec (mp_type p) "filename") as [E|_];
    [by rewrite E in Hlast|].
  destruct (String.eqb_spec (mp_type p) "integer") as [E|_];
    [by rewrite E in Hlast|].
  destruct (String.eqb_spec (mp_type p) "float") as [E|_];
    [by rewrite E in Hlast|].
  destruct (String.eqb_spec (mp_type p) "boolean") as [E|_];
    [by rewrite E in Hlast|].
  destruct (existsb _ shader_types) eqn:Hshader.
  { apply existsb_exists in Hshader as (x & Hx & E%String.eqb_eq).
    rewrite E in Hlast. simpl in Hx.
    by destruct Hx as [<-|[<-|[<-|[<-|[<-|[<-|[<-|[<-|[]]]]]]]]]. }
  destruct (PyStr.match_digit2 "matrix" _) as [[R C]|] eqn:Hm.
  { apply match_digit2_last in Hm as (c & Hc & Hd).
    rewrite Hlast in Hc. injection Hc as <-. by rewrite digit_y in Hd. }
  destruct (PyStr.match_digit "color" _) as [N|] eqn:Hcol.
  { apply match_digit_last in Hcol as (c & Hc & Hd).
    rewrite Hlast in Hc. injection Hc as <-. by rewrite digit_y in Hd. }
  destruct (PyStr.match_digit "vector" _) as [N|] eqn:Hvec.
  { apply match_digit_last in Hvec as (c & Hc & Hd).
    rewrite Hlast in Hc. injection Hc as <-. by rewrite digit_y in Hd. }
  destruct (PyStr.match_array _); eauto.
Qed.

Lemma type_rule_unrecognized p :
  ~ recognized (mp_type p) ->
  type_rule p
  = (Ok (StringProperty, no_attrs),
     [LogWarn ["Unsupported mx_type"; mp_type p; mp_name p; mp_parent_name p]]).
Proof.
  intros Hnot. unfold type_rule.
  assert (forall x, x ∈ ["string"; "filename"; "integer"; "float"; "boolean";
                          "surfaceshader"; "displacementshader"; "volumeshader";
                          "lightshader"; "material"; "BSDF"; "VDF"; "EDF"] ->
                    mp_type p ≠ x) as Hlist.
  { intros x Hx E. apply Hnot. left. by rewrite E. }
  destruct (String.eqb_spec (mp_type p) "string") as [E|_];
    [exfalso; eapply Hlist; [|exact E]; repeat constructor|].
  destruct (String.eqb_spec (mp_type p) "filename") as [E|_];
    [exfalso; eapply Hlist; [|exact E]; repeat constructor|].
  destruct (String.eqb_spec (mp_type p) "integer") as [E|_];
    [exfalso; eapply Hlist; [|exact E]; repeat constructor|].
  destruct (String.eqb_spec (mp_type p) "float") as [E|_];
    [exfalso; eapply Hlist; [|exact E]; repeat constructor|].
  destruct (String.eqb_spec (mp_type p) "boolean") as [E|_];
    [exfalso; eapply Hlist; [|exact E]; repeat constructor|].
  destruct (existsb _ shader_types) eqn:Hshader.
  { apply existsb_exists in Hshader as (x & Hx & E%String.eqb_eq).
    exfalso. eapply Hlist; [|exact E]. simpl in Hx.
    destruct Hx as [<-|[<-|[<-|[<-|[<-|[<-|[<-|[<-|[]]]]]]]]];
      repeat constructor. }
  destruct (PyStr.match_digit2 "matrix" _) as [[R C]|] eqn:Hm.
  { exfalso. apply Hnot. right. left.
    apply match_digit2_inv in Hm as (r & c & E & Hr & Hc).
    by exists r, c. }
  destruct (PyStr.match_digit "color" _) as [N|] eqn:Hcol.
  { exfalso. apply Hnot. right. right. left.
    apply match_digit_inv in Hcol as (n & E & Hn). by exists n. }
  destruct (PyStr.match_digit "vector" _) as [N|] eqn:Hvec.
  { exfalso. apply Hnot. do 3 right. left.
    apply match_digit_inv in Hvec as (n & E & Hn). by exists n. }
  destruct (PyStr.match_array _) eqn:Harr; [|done].
  exfalso. apply Hnot. do 4 right. by apply match_array_inv.
Qed.

End TypeRuleFacts.

(** C6. For a parameter whose type is [matrixRC], [colorN] or [vectorN]
    with single digits, [create_property] gives a [FloatVectorProperty]
    under the parameter's name whose size is [R * C] with subtype
    [MATRIX], or [N] with subtype [COLOR], or [N] with subtype [XYZ] when
    [N = 3] and [NONE] otherwise.  It gives that property unless a bound
    or default attribute of the parameter holds a token that is no float,
    the one case in which it raises, and then raises [ValueError].  For a
    type that ends in [array] it gives a [StringProperty] and cannot
    raise. *)
Theorem create_property_sized `{Host} (p : MxParam) (shape : option (string * Z)) :
  type_shape (mp_type p) shape ->
  match shape with
  | Some (subtype, size) =>
      match (create_property p).1 with
      | Ok (prop_name, prop_type, a) =>
          prop_name = mp_name p /\ prop_type = FloatVectorProperty
          /\ pa_subtype a = Some subtype /\ pa_size a = Some size
          /\ forall key, key ∈ parsed_keys -> ~ bad_float_attr p key
      | Raise e =>
          e = ValueError /\ exists key, key ∈ parsed_keys /\ bad_float_attr p key
      end
  | None =>
      exists a, (create_property p).1 = Ok (mp_name p, StringProperty, a)
  end.
Proof.
  intros Hshape. destruct shape as [[subtype size]|].
  - unfold create_property. rewrite (type_rule_shape p subtype size Hshape).
    cbn [fst result_bind].
    pose proof (fill_attrs_float_vector p
                  (set_size size (set_subtype subtype no_attrs))) as Hfill.
    destruct (fill_attrs p FloatVectorProperty _) as [a|e]; cbn [result_bind].
    + destruct Hfill as ((_ & Hsub & Hsize) & Hgood).
      by rewrite Hsub, Hsize.
    + done.
  - assert (last_char (mp_type p) = Some "y"%char) as Hlast.
    { inversion Hshape as [| | |pre Hpre]. apply (last_char_app pre "a" "rray"). }
    destruct (type_rule_last_y p Hlast) as [log Hrule].
    unfold create_property. rewrite Hrule. cbn [fst result_bind].
    destruct (fill_attrs_string p no_attrs) as (a & -> & _).
    by exists a.
Qed.

(** C7. For a parameter whose type no rule recognizes, [create_property]
    gives a [StringProperty] under the parameter's name, with no items,
    subtype or size, and logs one warning that names the type, the
    parameter and the definition that owns it; it cannot raise. *)
Theorem create_property_unrecognized `{Host} (p : MxParam) :
  ~ recognized (mp_type p) ->
  exists a,
    create_property p
    = (Ok (mp_name p, StringProperty, a),
       [LogWarn ["Unsupported mx_type"; mp_type p; mp_name p; mp_parent_name p]])
    /\ pa_items a = None /\ pa_subtype a = None /\ pa_size a = None.
Proof.
  intros Hnot. unfold create_property.
  rewrite (type_rule_unrecognized p Hnot). cbn [result_bind].
  destruct (fill_attrs_string p no_attrs) as (a & -> & Hitems & Hsub & Hsize).
  by exists a.
Qed.

(** ** Grouping *)

Section DictAppend.
Context {K V : Type} `{EqDecision K}.
Variable key_of : V -> K.

Implicit Types (d : list (K * list V)) (xs : list V).

Lemma dict_append_keys k x d :
  (dict_append k x d).*1 = d.*1 ++ (if decide (k ∈ d.*1) then [] else [k]).
Proof.
  induction d as [|[k' ms] d IH]; [done|].
  cbn [dict_append].
  destruct (decide (k' = k)) as [->|Hne]; rewrite !fmap_cons; cbn [fst].
  - rewrite decide_True; [by rewrite app_nil_r|]. apply list_elem_of_here.
  - rewrite IH. rewrite <- app_comm_cons. f_equal. f_equal.
    destruct (decide (k ∈ d.*1)) as [Hin|Hnin].
    + rewrite decide_True; [done|]. by apply list_elem_of_further.
    + rewrite decide_False; [done|].
      intros [?|?]%elem_of_cons; [congruence|done].
Qed.

Lemma dict_append_elem k x d k' ms' :
  NoDup d.*1 ->
  (k', ms') ∈ dict_append k x d ->
  (k' ≠ k /\ (k', ms') ∈ d)
  \/ (k' = k /\ exists ms, (k, ms) ∈ d /\ ms' = ms ++ [x])
  \/ (k' = k /\ (k ∉ d.*1) /\ ms' = [x]).
Proof.
  induction d as [|[k0 ms0] d IH]; simpl; intros Hnd Hin.
  - apply list_elem_of_singleton in Hin as [= -> ->].
    right. right. split_and!; [done| |done]. apply not_elem_of_nil.
  - apply NoDup_cons in Hnd as [Hk0 Hnd].
    destruct (decide (k0 = k)) as [->|Hne].
    + apply elem_of_cons in Hin as [[= -> ->]|Hin].
      * right. left. split; [done|]. exists ms0. split; [|done].
        apply list_elem_of_here.
      * left. split; [|by apply list_elem_of_further].
        intros ->. apply Hk0. apply list_elem_of_fmap. by exists (k, ms').
    + apply elem_of_cons in Hin as [[= -> ->]|Hin].
      * left. split; [done|]. apply list_elem_of_here.
      * destruct (IH Hnd Hin) as [[? ?]|[[-> (ms & ? & ->)]|(-> & ? & ->)]].
        -- left. split; [done|]. by apply list_elem_of_further.
        -- right. left. split; [done|]. exists ms. split; [|done].
           by apply list_elem_of_further.
        -- right. right. split_and!; [done| |done].
           intros [?|?]%elem_of_cons; [congruence|done].
Qed.

Lemma files_of_step d xs x :
  files_of key_of d xs -> files_of key_of (dict_append (key_of x) x d) (xs ++ [x]).
Proof.
  intros (Hnd & Hgroups & Hcover). split_and!.
  - rewrite dict_append_keys. destruct (decide _) as [Hin|Hnin].
    + by rewrite app_nil_r.
    + apply NoDup_app. split_and!; [done| |apply NoDup_singleton].
      intros k Hk ->%list_elem_of_singleton. done.
  - intros k ms Hin. rewrite filter_app.
    destruct (dict_append_elem _ _ _ _ _ Hnd Hin)
      as [[Hne Hold]|[[-> (ms0 & Hold & ->)]|(-> & Hnew & ->)]].
    + destruct (Hgroups _ _ Hold) as [-> Hnil].
      rewrite (filter_cons_False _ x) by (simpl; congruence). simpl.
      by rewrite app_nil_r.
    + destruct (Hgroups _ _ Hold) as [-> Hnil].
      rewrite (filter_cons_True _ x) by done. simpl.
      split; [done|]. by destruct (filter _ xs).
    + rewrite (filter_cons_True _ x) by done. simpl.
      split; [|done].
      assert (filter (fun y => key_of y = key_of x) xs = []) as ->; [|done].
      destruct (filter _ xs) as [|y ys] eqn:E; [done|]. exfalso.
      assert (y ∈ filter (fun y => key_of y = key_of x) xs)
        as [Hkey Hy]%list_elem_of_filter
        by (rewrite E; apply list_elem_of_here).
      apply Hnew. rewrite <- Hkey. by apply Hcover.
  - intros y Hy. rewrite dict_append_keys.
    apply elem_of_app in Hy as [Hy|Hy].
    + apply elem_of_app. left. by apply Hcover.
    + apply list_elem_of_singleton in Hy as ->. destruct (decide _) as [Hin|Hnin].
      * by rewrite app_nil_r.
      * apply elem_of_app. right. apply list_elem_of_here.
Qed.

Lemma files_of_foldl xs d pre :
  files_of key_of d pre ->
  files_of key_of (foldl (fun d x => dict_append (key_of x) x d) d xs) (pre ++ xs).
Proof.
  revert d pre. induction xs as [|x xs IH]; intros d pre Hd; simpl.
  - by rewrite app_nil_r.
  - replace (pre ++ x :: xs) with ((pre ++ [x]) ++ xs)
      by (by rewrite <- app_assoc).
    apply IH. by apply files_of_step.
Qed.

End DictAppend.

(** ** [create_node_types] *)

Section NodeTypeFacts.
Context `{Host}.

Lemma MxNodedef_new_nodedef nd t :
  (MxNodedef_new nd).1 = Ok t -> mx_nodedef t = nd.
Proof.
  unfold MxNodedef_new.
  destruct (annotate "p_" _ _) as [[a1|e1] l1]; [|done].
  destruct (annotate "in_" _ _) as [[a2|e2] l2]; [|done].
  destruct (annotate "out_" _ _) as [[a3|e3] l3]; [|done].
  by intros [= <-].
Qed.

Lemma load_nodedefs_parsed nds :
  mx_nodedef <$> (load_nodedefs nds).1
  = filter (fun nd => is_ok (MxNodedef_new nd).1 = true) nds.
Proof.
  induction nds as [|nd nds IH]; [done|].
  cbn [load_nodedefs].
  destruct (MxNodedef_new nd) as [r log] eqn:Hnew.
  destruct (load_nodedefs nds) as [types log'].
  cbn [fst] in IH.
  destruct r as [t|e].
  - rewrite filter_cons_True by (by rewrite Hnew).
    cbn [fst]. rewrite fmap_cons, IH. f_equal.
    apply MxNodedef_new_nodedef. by rewrite Hnew.
  - rewrite filter_cons_False by (by rewrite Hnew). done.
Qed.

Lemma variant_ids_map node_name (ms : list MxNodedefType) :
  (fun it : string * string * string => it.1.1) <$> (var_item node_name <$> ms) = nodedef_name <$> ms.
Proof. rewrite <- list_fmap_compose. by apply list_fmap_ext. Qed.

Lemma MxNode_new_ok (ms : list MxNodedefType) :
  ms ≠ [] ->
  exists t,
    MxNode_new ms = Ok t
    /\ variant_ids t = nodedef_name <$> ms
    /\ Some (var_default t) = nodedef_name <$> head ms
    /\ mx_nodedefs t = mx_nodedef <$> ms.
Proof.
  destruct ms as [|m ms]; [done|]. intros _.
  eexists. split; [reflexivity|].
  unfold variant_ids. cbn [var_items var_default mx_nodedefs].
  split_and!; [|done|done].
  apply (variant_ids_map _ (m :: ms)).
Qed.

(** One node type for each group, in order. *)
Lemma result_map_new groups :
  Forall (fun g => g.2 ≠ []) groups ->
  exists node_types,
    result_map (fun g => MxNode_new g.2) groups = Ok node_types
    /\ Forall2 (fun (g : string * string * list MxNodedefType) t =>
                  variant_ids t = nodedef_name <$> g.2
                  /\ Some (var_default t) = nodedef_name <$> head g.2
                  /\ mx_nodedefs t = mx_nodedef <$> g.2)
               groups node_types.
Proof.
  induction 1 as [|g groups Hg _ (node_types & Hmap & Hall)].
  - by exists [].
  - destruct (MxNode_new_ok g.2 Hg) as (t & Ht & Hprops).
    exists (t :: node_types). cbn [result_map]. rewrite Ht, Hmap.
    split; [done|]. by constructor.
Qed.

Lemma group_nodedefs_files nodedef_types :
  files_of group_key (group_nodedefs nodedef_types) nodedef_types.
Proof.
  apply (files_of_foldl group_key nodedef_types [] []).
  split_and!; [apply NoDup_nil_2| |].
  - intros k ms Hin. by apply elem_of_nil in Hin.
  - intros x Hin. by apply elem_of_nil in Hin.
Qed.

End NodeTypeFacts.

Section LoadFiles.
Context `{Host}.
Variable readFromXmlFile : string -> Result (list MxNodeDef).

Lemma load_nodedefs_app nds nds' :
  load_nodedefs (nds ++ nds')
  = ((load_nodedefs nds).1 ++ (load_nodedefs nds').1,
     (load_nodedefs nds).2 ++ (load_nodedefs nds').2).
Proof.
  induction nds as [|nd nds IH]; cbn [load_nodedefs app].
  - by destruct (load_nodedefs nds').
  - destruct (MxNodedef_new nd) as [r log]. rewrite IH.
    destruct (load_nodedefs nds) as [types log1],
      (load_nodedefs nds') as [types' log2].
    destruct r as [t|e]; cbn [fst snd app]; by rewrite <- !app_assoc.
Qed.

(** When every file can be read, the outer loop gives what the inner
    loop gives on the nodedefs of all the files, one file after the
    other. *)
Lemma load_files_read file_paths files :
  Forall2 (fun p f => readFromXmlFile p = Ok f) file_paths files ->
  load_files readFromXmlFile file_paths
  = (Ok (load_nodedefs (concat files)).1, (load_nodedefs (concat files)).2).
Proof.
  induction 1 as [|p f file_paths files Hp _ IH]; [done|].
  cbn [load_files concat]. rewrite Hp, IH, load_nodedefs_app.
  by destruct (load_nodedefs f).
Qed.

(** The outer loop returns when every file can be read, and raises
    what reading the first file that cannot be read raises. *)
Lemma load_files_cases file_paths :
  match (load_files readFromXmlFile file_paths).1 with
  | Ok _ =>
      exists files,
        Forall2 (fun p f => readFromXmlFile p = Ok f) file_paths files
  | Raise e =>
      exists before p after files,
        file_paths = before ++ p :: after
        /\ Forall2 (fun p f => readFromXmlFile p = Ok f) before files
        /\ readFromXmlFile p = Raise e
        /\ (load_files readFromXmlFile file_paths).2
           = (load_nodedefs (concat files)).2
  end.
Proof.
  induction file_paths as [|p file_paths IH]; [by exists []|].
  cbn [load_files].
  destruct (readFromXmlFile p) as [f|e] eqn:Hp.
  2:{ cbn [fst snd]. by exists [], p, file_paths, []. }
  destruct (load_nodedefs f) as [types log] eqn:Hf.
  destruct (load_files readFromXmlFile file_paths) as [[nts|e] log'];
    cbn [fst snd result_bind] in *.
  - destruct IH as (files & Hfiles). exists (f :: files). by constructor.
  - destruct IH as (before & q & after & files & -> & Hbefore & Hq & ->).
    exists (p :: before), q, after, (f :: files).
    split_and!; [done|by constructor|done|].
    cbn [concat]. by rewrite load_nodedefs_app, Hf.
Qed.

Lemma create_node_types_read file_paths files :
  Forall2 (fun p f => readFromXmlFile p = Ok f) file_paths files ->
  create_node_types readFromXmlFile file_paths
  = (result_bind
       (result_map (fun g => MxNode_new g.2)
                   (group_nodedefs (load_nodedefs (concat files)).1))
       (fun node_types => Ok ((load_nodedefs (concat files)).1, node_types)),
     (load_nodedefs (concat files)).2).
Proof.
  intros Hfiles. unfold create_node_types.
  by rewrite (load_files_read _ _ Hfiles).
Qed.

End LoadFiles.

(** The builder on any list of nodedef types: they are filed under
    their keys, and each group gives one node type whose variants are
    the names of the group's members. *)
Lemma group_nodedefs_partition `{Host} (nodedef_types : list MxNodedefType) :
  exists groups node_types,
    result_map (fun g => MxNode_new g.2) (group_nodedefs nodedef_types)
    = Ok node_types
    /\ groups = group_nodedefs nodedef_types
    /\ NoDup groups.*1
    /\ (forall t, t ∈ nodedef_types -> group_key t ∈ groups.*1)
    /\ Forall (fun g => g.2 ≠ []
                        /\ g.2 = filter (fun t => group_key t = g.1) nodedef_types)
              groups
    /\ Forall2 (fun g t =>
                  variant_ids t = nodedef_name <$> g.2
                  /\ Some (var_default t) = nodedef_name <$> head g.2
                  /\ mx_nodedefs t = mx_nodedef <$> g.2)
               groups node_types.
Proof.
  destruct (group_nodedefs_files nodedef_types) as (Hnd & Hgroups & Hcover).
  assert (Forall (fun g => g.2 ≠ []
                           /\ g.2 = filter (fun t => group_key t = g.1) nodedef_types)
                 (group_nodedefs nodedef_types)) as Hall.
  { apply Forall_forall. intros [k ms] Hin.
    destruct (Hgroups k ms Hin). done. }
  destruct (result_map_new (group_nodedefs nodedef_types))
    as (node_types & Hmap & Htypes).
  { eapply Forall_impl; [exact Hall|]. by intros g [? _]. }
  exists (group_nodedefs nodedef_types), node_types.
  done.
Qed.

(** C9, as the code has it.  Given schema files that can be read,
    [create_node_types] returns; the definitions that parse are filed by
    [(node string, nodegroup)], every key once and every parsed
    definition under its key, and one node type is made for each group,
    in order.  The variants of a type are the names of the members of its
    group in the group's order, so as many as the group has members, and
    the default is the name of the first member.  The builder does not
    look at the names: the identifiers of a type are distinct exactly
    when the names of the members of its group are, and so they are in
    every type when no two definitions read have the same name. *)
Theorem create_node_types_variants `{Host}
    (readFromXmlFile : string -> Result (list MxNodeDef))
    (file_paths : list string) (files : list (list MxNodeDef)) :
  Forall2 (fun p f => readFromXmlFile p = Ok f) file_paths files ->
  exists nodedef_types groups node_types,
    (create_node_types readFromXmlFile file_paths).1
    = Ok (nodedef_types, node_types)
    /\ mx_nodedef <$> nodedef_types
       = filter (fun nd => is_ok (MxNodedef_new nd).1 = true) (concat files)
    /\ groups = group_nodedefs nodedef_types
    /\ NoDup groups.*1
    /\ (forall t, t ∈ nodedef_types -> group_key t ∈ groups.*1)
    /\ Forall2 (fun g t =>
                  g.2 ≠ []
                  /\ g.2 = filter (fun t => group_key t = g.1) nodedef_types
                  /\ length (variant_ids t) = length g.2
                  /\ variant_ids t = nodedef_name <$> g.2
                  /\ (NoDup (variant_ids t) <-> NoDup (nodedef_name <$> g.2))
                  /\ Some (var_default t) = nodedef_name <$> head g.2)
               groups node_types
    /\ (NoDup (nd_name <$> concat files) ->
        Forall (fun t => NoDup (variant_ids t)) node_types).
Proof.
  intros Hfiles. rewrite (create_node_types_read _ _ _ Hfiles).
  pose proof (load_nodedefs_parsed (concat files)) as Hparsed.
  destruct (load_nodedefs (concat files)) as [nodedef_types log].
  cbn [fst snd] in *.
  destruct (group_nodedefs_partition nodedef_types)
    as (groups & node_types
        & Hmap & Hgroups & Hkeys & Hcover & Hmembers & Htypes).
  rewrite Hmap. cbn [result_bind].
  exists nodedef_types, groups, node_types.
  split_and!; try done.
  - clear Hmap Hparsed Hgroups Hkeys Hcover.
    induction Htypes as [|g t groups node_types (Hids & Hdef & _) _ IH].
    + constructor.
    + apply Forall_cons in Hmembers as [[Hnil Hfilter] Hmembers].
      constructor; [|by apply IH].
      split_and!; try done.
      * by rewrite Hids, length_fmap.
      * by rewrite Hids.
  - intros Hnames.
    assert (NoDup (nodedef_name <$> nodedef_types)) as Hnd.
    { change nodedef_name with (nd_name ∘ mx_nodedef).
      rewrite (list_fmap_compose mx_nodedef nd_name), Hparsed.
      eapply sublist_NoDup; [exact Hnames|].
      apply fmap_sublist, sublist_filter. }
    clear Hmap Hparsed Hgroups Hkeys Hcover.
    induction Htypes as [|g t groups node_types (Hids & _) _ IH].
    + constructor.
    + apply Forall_cons in Hmembers as [[_ Hfilter] Hmembers].
      constructor; [|by apply IH].
      rewrite Hids, Hfilter.
      eapply sublist_NoDup; [exact Hnd|].
      apply fmap_sublist, sublist_filter.
Qed.

(** ** The document during a compilation *)

Section DocumentOrder.
Context `{MaterialX}.

Lemma topological_nil : topological [].
Proof. intros i n Hi. by rewrite lookup_nil in Hi. Qed.

Lemma topological_snoc d x :
  topological (d ++ [x])
  <-> topological d /\ forall name, name ∈ references x -> name ∈ dn_name <$> d.
Proof.
  split.
  - intros Htopo. split.
    + intros i n Hi name Hname.
      pose proof (lookup_lt_Some _ _ _ Hi) as Hlt.
      rewrite <- (take_app_le d [x] i) by lia.
      apply (Htopo i n); [|done]. by apply lookup_app_l_Some.
    + intros name Hname.
      rewrite <- (take_app_length d [x]).
      apply (Htopo (length d) x); [|done].
      by rewrite list_lookup_middle.
  - intros [Htopo Hx] i n Hi name Hname.
    apply lookup_app_Some in Hi as [Hi|[Hge Hi]].
    + pose proof (lookup_lt_Some _ _ _ Hi) as Hlt.
      rewrite take_app_le by lia. by apply (Htopo i n).
    + apply list_lookup_singleton_Some in Hi as [Hi ->].
      replace i with (length d) by lia.
      rewrite take_app_length. by apply Hx.
Qed.

Lemma grows_refl d : grows d d.
Proof. by split. Qed.

Lemma grows_trans d1 d2 d3 : grows d1 d2 -> grows d2 d3 -> grows d1 d3.
Proof.
  intros [Hp1 Ht1] [Hp2 Ht2]. split; [by etrans|auto].
Qed.

Lemma grows_length d d' : grows d d' -> length d <= length d'.
Proof. intros [Hp _]. by apply prefix_length. Qed.

(** *** Rules for [yields] *)

Lemma yields_ret {A} (a : A) d (Q : Result A -> Document -> Prop) :
  Q (Ok a) d -> yields (ret a) d Q.
Proof. intros HQ r d' l [= <- <- _]. done. Qed.

Lemma yields_raise {A} e d (Q : Result A -> Document -> Prop) :
  Q (Raise e) d -> yields (raise e) d Q.
Proof. intros HQ r d' l [= <- <- _]. done. Qed.

Lemma yields_lift {A} (x : Result A) d (Q : Result A -> Document -> Prop) :
  Q x d -> yields (lift x) d Q.
Proof. intros HQ r d' l [= <- <- _]. done. Qed.

Lemma yields_emit e d (Q : Result unit -> Document -> Prop) :
  Q (Ok tt) d -> yields (emit e) d Q.
Proof. intros HQ r d' l [= <- <- _]. done. Qed.

Lemma yields_bind {A B} (m : M A) (f : A -> M B) d
    (Q1 : Result A -> Document -> Prop) (Q : Result B -> Document -> Prop) :
  yields m d Q1 ->
  (forall a d1, Q1 (Ok a) d1 -> yields (f a) d1 Q) ->
  (forall e d1, Q1 (Raise e) d1 -> Q (Raise e) d1) ->
  yields (bind m f) d Q.
Proof.
  intros Hm Hf He r d' l. unfold bind.
  destruct (m d) as [[[a|e] d1] l1] eqn:Hmd.
  - destruct (f a d1) as [[r2 d2] l2] eqn:Hfa. intros [= <- <- _].
    apply (Hf a d1 (Hm _ _ _ Hmd) _ _ _ Hfa).
  - intros [= <- <- _]. apply He. by apply (Hm _ _ _ Hmd).
Qed.

Lemma yields_weaken {A} (m : M A) d (Q1 Q2 : Result A -> Document -> Prop) :
  yields m d Q1 -> (forall r d', Q1 r d' -> Q2 r d') -> yields m d Q2.
Proof. intros Hm HQ r d' l Hrun. eauto. Qed.

End DocumentOrder.

(** ** Ports are added to the last node *)

Section LastNode.
Context `{MaterialX}.

Lemma alter_last {A} (f : A -> A) (l : list A) (x : A) :
  alter f (length l) (l ++ [x]) = l ++ [f x].
Proof. by rewrite alter_app_r_alt, Nat.sub_diag by lia. Qed.

Lemma extends_node_refl d x : extends_node d x x.
Proof. split_and!; auto. Qed.

Lemma extends_node_trans d x1 x2 x3 :
  extends_node d x1 x2 -> extends_node d x2 x3 -> extends_node d x1 x3.
Proof.
  intros (?&?&?&H12) (?&?&?&H23). split_and!; try congruence.
  intros name Hname. destruct (H23 name Hname) as [?|?]; auto.
Qed.

Lemma references_add_port k x p name :
  name ∈ references (with_ports k (fun ps => ps ++ [p]) x)
  <-> name ∈ references x \/ port_binding p = Some (BNodeName name).
Proof.
  unfold references. rewrite !list_elem_of_omap. split.
  - intros (q & Hq & Hname).
    assert (q ∈ dn_inputs x ++ dn_parameters x \/ q = p) as [Hold| ->].
    { destruct k; cbn [with_ports dn_inputs dn_parameters] in Hq;
        rewrite !elem_of_app, ?list_elem_of_singleton in Hq;
        rewrite elem_of_app; tauto. }
    + left. by exists q.
    + right. destruct (port_binding p) as [[]|]; congruence.
  - intros [(q & Hq & Hname)|Hp].
    + exists q. split; [|done].
      destruct k; cbn [with_ports dn_inputs dn_parameters];
        rewrite !elem_of_app in *; tauto.
    + exists p. split; [|by rewrite Hp].
      destruct k; cbn [with_ports dn_inputs dn_parameters];
        rewrite !elem_of_app, list_elem_of_singleton; tauto.
Qed.

Lemma with_ports_bind_last k x name type b :
  with_ports k
    (alter (fun port => {| port_name := port_name port;
                           port_type := port_type port;
                           port_binding := Some b |})
           (length (ports k x)))
    (with_ports k (fun ps => ps ++ [bound_port name type None]) x)
  = with_ports k (fun ps => ps ++ [bound_port name type (Some b)]) x.
Proof. destruct k; cbn [with_ports ports dn_inputs dn_parameters];
         by rewrite alter_last. Qed.

Lemma addPort_last k d x name type :
  addPort k (length d) name type (d ++ [x])
  = (Ok {| pr_node := length d; pr_kind := k; pr_index := length (ports k x) |},
     d ++ [with_ports k (fun ps => ps ++ [bound_port name type None]) x],
     []).
Proof.
  unfold addPort. rewrite list_lookup_middle by done.
  by rewrite alter_last.
Qed.

Lemma set_binding_last k d x name type b :
  set_binding {| pr_node := length d; pr_kind := k;
                 pr_index := length (ports k x) |} b
    (d ++ [with_ports k (fun ps => ps ++ [bound_port name type None]) x])
  = (Ok tt,
     d ++ [with_ports k (fun ps => ps ++ [bound_port name type (Some b)]) x],
     []).
Proof.
  unfold set_binding. cbn [pr_node pr_kind pr_index].
  by rewrite alter_last, with_ports_bind_last.
Qed.

Lemma extends_node_add_port d k x p :
  (forall name, port_binding p = Some (BNodeName name) -> name ∈ dn_name <$> d) ->
  extends_node d x (with_ports k (fun ps => ps ++ [p]) x).
Proof.
  intros Hp. split_and!; try by destruct k.
  intros name [?|?]%references_add_port; auto.
Qed.

(** [port = node.addInput(name, type); set_value(port, val, type)] on
    the last node of the document, when [val] is a literal or a node of
    the document before it. *)
Lemma add_port_set_value k d x name type val :
  (forall n, val = INode n -> n < length d) ->
  yields (let! port := addPort k (length d) name type in
          set_value port val type)
         (d ++ [x])
         (fun _ d' => exists x', d' = d ++ [x'] /\ extends_node d x x').
Proof.
  intros Hval r d' l. unfold bind. rewrite addPort_last.
  destruct val as [n|v]; cbn [set_value].
  - unfold bind, getName.
    rewrite (set_binding_last k d x name type).
    intros [= <- <- _]. eexists. split; [done|].
    apply extends_node_add_port. cbn [bound_port port_binding].
    intros nm [= <-].
    specialize (Hval n eq_refl).
    destruct (lookup_lt_is_Some_2 d n Hval) as [y Hy].
    rewrite (lookup_app_l_Some _ _ _ _ Hy). cbn [fmap option_fmap option_map default].
    apply list_elem_of_fmap. exists y. split; [done|].
    by eapply list_elem_of_lookup_2.
  - destruct (String.eqb type "filename").
    { rewrite (set_binding_last k d x name type).
      intros [= <- <- _]. eexists. split; [done|].
      by apply extends_node_add_port. }
    destruct (mx_getattr (title_str type)) as [mx_type|].
    + unfold bind, lift. destruct (mx_type v) as [y|e].
      * rewrite (set_binding_last k d x name type).
        intros [= <- <- _]. eexists. split; [done|].
        by apply extends_node_add_port.
      * intros [= <- <- _]. eexists. split; [done|].
        by apply extends_node_add_port.
    + rewrite (set_binding_last k d x name type).
      intros [= <- <- _]. eexists. split; [done|].
      by apply extends_node_add_port.
Qed.

End LastNode.

(** ** The compiler keeps the document in order *)

Section MonadFacts.
Context `{MaterialX}.

Lemma bind_assoc {A B C} (m : M A) (f : A -> M B) (g : B -> M C) d :
  bind (bind m f) g d = bind m (fun a => bind (f a) g) d.
Proof.
  unfold bind. destruct (m d) as [[[a|e] d1] l1]; [|done].
  destruct (f a d1) as [[[b|e] d2] l2]; [|done].
  destruct (g b d2) as [[r d3] l3]. by rewrite app_assoc.
Qed.

Lemma yields_ext {A} (m m' : M A) d (Q : Result A -> Document -> Prop) :
  m d = m' d -> yields m d Q -> yields m' d Q.
Proof. intros Heq Hm r d' l Hrun. apply (Hm r d' l). by rewrite Heq. Qed.

Lemma bind_ok {A B} (m : M A) (f : A -> M B) d a d1 l1 :
  m d = (Ok a, d1, l1) ->
  bind m f d = let '(r, d2, l2) := f a d1 in (r, d2, l1 ++ l2).
Proof. intros Hm. unfold bind. by rewrite Hm. Qed.

Lemma bind_raise {A B} (m : M A) (f : A -> M B) d e d1 l1 :
  m d = (Raise e, d1, l1) -> bind m f d = (Raise e, d1, l1).
Proof. intros Hm. unfold bind. by rewrite Hm. Qed.

Lemma getType_run (d : Document) node up :
  d !! node = Some up -> getType node d = (Ok (dn_type up), d, []).
Proof. intros Hup. unfold getType. by rewrite Hup. Qed.

Lemma getName_run (d : Document) node up :
  d !! node = Some up -> getName node d = (Ok (dn_name up), d, []).
Proof. intros Hup. unfold getName. by rewrite Hup. Qed.

Lemma reads_lift {A} (x : Result A) : reads (lift x).
Proof. intros d. by eexists _, _. Qed.

Lemma reads_ret {A} (a : A) : reads (ret a).
Proof. intros d. by eexists _, _. Qed.

Lemma reads_emit e : reads (emit e).
Proof. intros d. by eexists _, _. Qed.

Lemma reads_bind {A B} (m : M A) (f : A -> M B) :
  reads m -> (forall a, reads (f a)) -> reads (bind m f).
Proof.
  intros Hm Hf d. unfold bind. destruct (Hm d) as (r & l & ->).
  destruct r as [a|e]; [|by eexists _, _].
  destruct (Hf a d) as (r' & l' & ->). by eexists _, _.
Qed.

Lemma yields_reads {A} (m : M A) d (Q : Result A -> Document -> Prop) :
  reads m -> (forall r, Q r d) -> yields m d Q.
Proof.
  intros Hm HQ r d' l Hrun. destruct (Hm d) as (r0 & l0 & Hd).
  rewrite Hd in Hrun. injection Hrun as <- <- _. apply HQ.
Qed.

Lemma reads_get_nodedef_input self prop in_key :
  reads (get_nodedef_input self prop in_key).
Proof. apply reads_bind; [apply reads_lift|]. intros a. apply reads_ret. Qed.

Lemma reads_get_nodedef_output self prop out_key :
  reads (get_nodedef_output self prop out_key).
Proof. apply reads_bind; [apply reads_lift|]. intros a. apply reads_ret. Qed.

Lemma reads_get_input_default self prop in_key :
  reads (get_input_default self prop in_key).
Proof. apply reads_bind; [apply reads_lift|]. intros a. apply reads_lift. Qed.

Lemma add_inputs_last self prop d in_key values x :
  (forall n, INode n ∈ values -> n < length d) ->
  yields (add_inputs self prop (length d) in_key values) (d ++ [x])
         (fun _ d' => exists x', d' = d ++ [x'] /\ extends_node d x x').
Proof.
  revert in_key x. induction values as [|val values IH]; intros in_key x Hvals.
  - apply yields_ret. exists x. split; [done|apply extends_node_refl].
  - cbn [add_inputs].
    assert (exists x', d ++ [x] = d ++ [x'] /\ extends_node d x x') as Hsame
      by (exists x; split; [done|apply extends_node_refl]).
    eapply yields_bind;
      [apply (yields_reads _ _ (fun _ d' => d' = d ++ [x]));
         [apply reads_get_nodedef_input|done]
      |intros nd_input ? ->|by intros ? ? ->].
    eapply yields_bind;
      [apply (yields_reads _ _ (fun _ d' => d' = d ++ [x]));
         [apply reads_lift|done]
      |intros nd ? ->|by intros ? ? ->].
    eapply yields_ext; [apply bind_assoc|].
    eapply yields_bind.
    + apply (add_port_set_value IsInput d x). intros n ->.
      apply Hvals, list_elem_of_here.
    + cbn beta. intros _ d1 (x1 & -> & Hx1).
      eapply yields_weaken.
      * apply IH. intros n Hn. by apply Hvals, list_elem_of_further.
      * cbn beta. intros _ d2 (x2 & -> & Hx2). exists x2.
        split; [done|]. by eapply extends_node_trans.
    + cbn beta. intros _ d1 Hd1. exact Hd1.
Qed.

Lemma add_parameters_last prop d params x :
  yields (add_parameters prop (length d) params) (d ++ [x])
         (fun _ d' => exists x', d' = d ++ [x'] /\ extends_node d x x').
Proof.
  revert x. induction params as [|nd_param params IH]; intros x.
  - apply yields_ret. exists x. split; [done|apply extends_node_refl].
  - cbn [add_parameters].
    assert (exists x', d ++ [x] = d ++ [x'] /\ extends_node d x x') as Hsame
      by (exists x; split; [done|apply extends_node_refl]).
    eapply yields_bind;
      [apply (yields_reads _ _ (fun _ d' => d' = d ++ [x]));
         [apply reads_lift|done]
      |intros val ? ->|by intros ? ? ->].
    eapply yields_ext; [apply bind_assoc|].
    eapply yields_bind.
    + by apply (add_port_set_value IsParameter d x).
    + cbn beta. intros _ d1 (x1 & -> & Hx1).
      eapply yields_weaken; [apply IH|].
      cbn beta. intros _ d2 (x2 & -> & Hx2). exists x2.
      split; [done|]. by eapply extends_node_trans.
    + cbn beta. intros _ d1 Hd1. exact Hd1.
Qed.

End MonadFacts.

Section OutputRun.
Context `{MaterialX}.
Variable graph : Graph.
Variable dispatch : NodeId -> Key -> M (option NodeRef).

Lemma output_compute_linked self out_key d node d1 l1 up :
  get_input_link graph dispatch self (KStr "Surface") d = (Ok (Some node), d1, l1) ->
  d1 !! node = Some up ->
  MxNode_Output_compute graph dispatch self out_key d
  = if String.eqb (dn_type up) "surfaceshader"
    then (Ok (Some node), d1, LogInfo ["compute"; bn_name self] :: l1)
    else (Ok (Some (length d1)), d1 ++ [surface_of up],
          LogInfo ["compute"; bn_name self] :: l1).
Proof.
  intros Hlink Hup. unfold MxNode_Output_compute.
  rewrite (bind_ok _ _ d tt d [LogInfo ["compute"; bn_name self]]) by done.
  rewrite (bind_ok _ _ d _ d1 l1 Hlink).
  rewrite (bind_ok _ _ d1 _ d1 [] (getType_run _ _ _ Hup)).
  destruct (String.eqb (dn_type up) "surfaceshader").
  - cbn [ret app]. by rewrite !app_nil_r.
  - pose proof (lookup_app_l_Some _ [surface_of up] _ _ Hup) as Hup'.
    rewrite (bind_ok _ _ d1 (length d1) _ [] eq_refl).
    assert (forall x : DocNode, (d1 ++ [x]) !! node = Some up) as Hnode
      by (intros x; by apply lookup_app_l_Some).
    rewrite (bind_ok _ _ _ _ _ [] (getType_run _ _ _ (Hnode _))).
    unfold addInput.
    rewrite (bind_ok _ _ _ _ _ [] (addPort_last IsInput d1 _ _ _)).
    rewrite (bind_ok _ _ _ _ _ [] (getName_run _ _ _ (Hnode _))).
    rewrite (bind_ok _ _ _ _ _ []
               (set_binding_last IsInput d1 _ "bsdf" (dn_type up) _)).
    cbn [ret app]. by rewrite !app_nil_r.
Qed.

Lemma output_compute_none self out_key d d1 l1 :
  get_input_link graph dispatch self (KStr "Surface") d = (Ok None, d1, l1) ->
  MxNode_Output_compute graph dispatch self out_key d
  = (Ok None, d1, LogInfo ["compute"; bn_name self] :: l1).
Proof.
  intros Hlink. unfold MxNode_Output_compute.
  rewrite (bind_ok _ _ d tt d [LogInfo ["compute"; bn_name self]]) by done.
  rewrite (bind_ok _ _ d _ d1 l1 Hlink).
  cbn [ret app]. by rewrite !app_nil_r.
Qed.

Lemma output_compute_raise self out_key d e d1 l1 :
  get_input_link graph dispatch self (KStr "Surface") d = (Raise e, d1, l1) ->
  MxNode_Output_compute graph dispatch self out_key d
  = (Raise e, d1, LogInfo ["compute"; bn_name self] :: l1).
Proof.
  intros Hlink. unfold MxNode_Output_compute.
  rewrite (bind_ok _ _ d tt d [LogInfo ["compute"; bn_name self]]) by done.
  by rewrite (bind_raise _ _ d _ d1 l1 Hlink).
Qed.

End OutputRun.

Section CompilerOrder.
Context `{MaterialX}.
Variable graph : Graph.
Variable dispatch : NodeId -> Key -> M (option NodeRef).

Hypothesis dispatch_compiled :
  forall node out_key d, yields (dispatch node out_key) d (compiled d).

Lemma compiled_none d : compiled d (Ok None) d.
Proof. split; [apply grows_refl|]. by intros n [=]. Qed.

Lemma compiled_raise d d' e : grows d d' -> compiled d (Raise e) d'.
Proof. intros Hg. split; [done|]. by intros n [=]. Qed.

Lemma _compute_node_compiled node out_key d :
  yields (_compute_node graph dispatch node out_key) d (compiled d).
Proof.
  unfold _compute_node. destruct (graph node) as [b prop|b|b];
    try apply dispatch_compiled.
  eapply yields_bind; [apply (yields_emit _ _ (fun _ d' => d' = d)); done| |].
  - intros _ ? ->. apply yields_ret, compiled_none.
  - intros e ? ->. apply compiled_raise, grows_refl.
Qed.

Lemma get_input_link_compiled self in_key d :
  yields (get_input_link graph dispatch self in_key) d (compiled d).
Proof.
  unfold get_input_link.
  eapply yields_bind;
    [apply (yields_lift _ _ (fun _ d' => d' = d)); done| |].
  - intros socket_in ? ->. destruct (links socket_in) as [|link rest].
    + apply yields_ret, compiled_none.
    + eapply yields_bind;
        [apply (yields_reads _ _ (fun _ d' => d' = d));
           [destruct (is_valid link); [apply reads_ret|apply reads_emit]|done]
        | |].
      * intros _ ? ->. apply _compute_node_compiled.
      * intros e ? ->. apply compiled_raise, grows_refl.
  - intros e ? ->. apply compiled_raise, grows_refl.
Qed.

Lemma get_input_value_in self prop in_key d :
  yields (get_input_value graph dispatch self prop in_key) d (value_in d).
Proof.
  unfold get_input_value.
  eapply yields_bind; [apply get_input_link_compiled| |].
  - intros [n|] d1 [Hg Hfresh].
    + apply yields_ret. split; [done|]. intros ? [= <-].
      destruct (Hfresh n eq_refl). lia.
    + eapply yields_bind;
        [apply (yields_reads _ _ (fun _ d' => d' = d1));
           [apply reads_get_input_default|done]
        | |].
      * intros v ? ->. apply yields_ret. split; [done|]. by intros ? [=].
      * intros e ? ->. split; [done|]. by intros ? [=].
  - intros e d1 [Hg _]. split; [done|]. by intros ? [=].
Qed.

Lemma input_values_in self prop in_key count d :
  yields (input_values graph dispatch self prop in_key count) d (values_in d).
Proof.
  revert in_key d. induction count as [|count IH]; intros in_key d.
  - apply yields_ret. split; [apply grows_refl|].
    intros vs [= <-] n Hn. by apply elem_of_nil in Hn.
  - cbn [input_values].
    eapply yields_bind; [apply get_input_value_in| |].
    + intros v d1 [Hg1 Hv].
      eapply yields_bind; [apply IH| |].
      * intros vs d2 [Hg2 Hvs]. apply yields_ret.
        split; [by eapply grows_trans|].
        intros ? [= <-] n [Heq|Hn]%elem_of_cons.
        -- subst v. specialize (Hv n eq_refl). apply grows_length in Hg2. lia.
        -- by apply (Hvs vs).
      * intros e d2 [Hg2 _]. split; [by eapply grows_trans|]. by intros ? [=].
    + intros e d1 [Hg1 _]. split; [done|]. by intros ? [=].
Qed.

Lemma grows_snoc d x x0 :
  references x0 = [] -> extends_node d x0 x -> grows d (d ++ [x]).
Proof.
  intros Hx0 (_ & _ & _ & Hrefs). split; [by apply prefix_app_r|].
  intros Htopo. apply topological_snoc. split; [done|].
  intros name Hname. destruct (Hrefs name Hname) as [Hin|Hin]; [|done].
  rewrite Hx0 in Hin. by apply elem_of_nil in Hin.
Qed.

Lemma MxNode_compute_compiled self prop out_key d :
  yields (MxNode_compute graph dispatch self prop out_key) d (compiled d).
Proof.
  unfold MxNode_compute.
  eapply yields_bind; [apply (yields_emit _ _ (fun _ d' => d' = d)); done| |];
    [intros _ ? ->|intros e ? ->; apply compiled_raise, grows_refl].
  eapply yields_bind;
    [apply (yields_reads _ _ (fun _ d' => d' = d));
       [apply reads_get_nodedef_output|done]
    | |];
    [intros nd_output ? ->|intros e ? ->; apply compiled_raise, grows_refl].
  eapply yields_bind; [apply input_values_in| |];
    [intros values d1 [Hg1 Hvalues]|intros e d1 [Hg1 _]; by apply compiled_raise].
  eapply yields_bind;
    [apply (yields_reads _ _ (fun _ d' => d' = d1)); [apply reads_lift|done]
    | |];
    [intros out_type ? ->|intros e ? ->; by apply compiled_raise].
  set (x0 := {| dn_category := nd_node_string (prop_nodedef prop);
                dn_name := code_str (bn_name self); dn_type := out_type;
                dn_inputs := []; dn_parameters := [] |}).
  eapply (yields_bind _ _ _ (fun r d' => r = Ok (length d1) /\ d' = d1 ++ [x0])).
  { intros r d' l [= <- <- _]. done. }
  2:{ by intros e ? [[=] _]. }
  intros node ? [[= ->] ->].
  eapply yields_bind;
    [apply add_inputs_last; intros n Hn; by apply (Hvalues values)| |].
  - cbn beta. intros _ ? (x1 & -> & Hx1).
    eapply yields_bind; [apply add_parameters_last| |].
    + cbn beta. intros _ ? (x2 & -> & Hx2).
      apply yields_ret.
      assert (grows d1 (d1 ++ [x2])) as Hg2.
      { apply (grows_snoc d1 x2 x0); [done|]. by eapply extends_node_trans. }
      split; [by eapply grows_trans|].
      intros n [= <-]. apply grows_length in Hg1.
      rewrite length_app. simpl. lia.
    + cbn beta. intros e ? (x2 & -> & Hx2).
      apply compiled_raise. eapply grows_trans; [exact Hg1|].
      apply (grows_snoc d1 x2 x0); [done|]. by eapply extends_node_trans.
  - cbn beta. intros e ? (x1 & -> & Hx1).
    apply compiled_raise. eapply grows_trans; [exact Hg1|].
    by apply (grows_snoc d1 x1 x0).
Qed.

Lemma MxNode_Output_compute_compiled self out_key d :
  yields (MxNode_Output_compute graph dispatch self out_key) d (compiled d).
Proof.
  intros r d' l.
  pose proof (get_input_link_compiled self (KStr "Surface") d) as Hlink.
  destruct (get_input_link graph dispatch self (KStr "Surface") d)
    as [[[[node|]|e] d1] l1] eqn:Hrun;
    destruct (Hlink _ _ _ Hrun) as [Hg1 Hfresh].
  - destruct (Hfresh node eq_refl) as [Hge Hlast].
    destruct (lookup_lt_is_Some_2 d1 node) as [up Hup]; [lia|].
    rewrite (output_compute_linked _ _ _ _ _ _ _ _ up Hrun Hup).
    destruct (String.eqb (dn_type up) "surfaceshader"); intros [= <- <- _].
    + done.
    + split.
      * eapply grows_trans; [exact Hg1|].
        split; [by apply prefix_app_r|].
        intros Htopo. apply topological_snoc. split; [done|].
        intros name Hname. unfold references in Hname.
        cbn in Hname. apply list_elem_of_singleton in Hname as ->.
        apply list_elem_of_fmap. exists up. split; [done|].
        by eapply list_elem_of_lookup_2.
      * intros n [= <-]. rewrite length_app. simpl. lia.
  - rewrite (output_compute_none _ _ _ _ _ _ _ Hrun). by intros [= <- <- _].
  - rewrite (output_compute_raise _ _ _ _ _ _ _ _ Hrun). by intros [= <- <- _].
Qed.

End CompilerOrder.

Lemma compute_compiled `{MaterialX} fuel graph node out_key d :
  yields (compute fuel graph node out_key) d (compiled d).
Proof.
  revert node out_key d. induction fuel as [|fuel IH]; intros node out_key d.
  - apply yields_raise, compiled_raise, grows_refl.
  - cbn [compute]. destruct (graph node) as [self prop|self|b].
    + by apply MxNode_compute_compiled.
    + by apply MxNode_Output_compute_compiled.
    + apply yields_raise, compiled_raise, grows_refl.
Qed.

(** ** A compilation that yields nothing adds nothing *)

Section NothingAdded.
Context `{MaterialX}.
Variable graph : Graph.
Variable dispatch : NodeId -> Key -> M (option NodeRef).

Hypothesis dispatch_none :
  forall node out_key d, yields (dispatch node out_key) d (none_unchanged d).

Lemma yields_bind_any {A B} (m : M A) (f : A -> M B) d
    (Q : Result B -> Document -> Prop) :
  (forall a d1, yields (f a) d1 Q) ->
  (forall e d1, Q (Raise e) d1) ->
  yields (bind m f) d Q.
Proof.
  intros Hf He. apply (yields_bind m f d (fun _ _ => True)); auto.
  by intros r d' l _.
Qed.

Lemma MxNode_compute_some self prop out_key d :
  yields (MxNode_compute graph dispatch self prop out_key) d
         (fun r _ => r ≠ Ok None).
Proof.
  unfold MxNode_compute.
  repeat (apply yields_bind_any; [intros ? ?|done]).
  by apply yields_ret.
Qed.

Lemma get_input_link_none self in_key d :
  yields (get_input_link graph dispatch self in_key) d (none_unchanged d).
Proof.
  unfold get_input_link.
  eapply yields_bind;
    [apply (yields_lift _ _ (fun _ d' => d' = d)); done| |by intros e ? ->].
  intros socket_in ? ->. destruct (links socket_in) as [|link rest].
  - by apply yields_ret.
  - eapply yields_bind;
      [apply (yields_reads _ _ (fun _ d' => d' = d));
         [destruct (is_valid link); [apply reads_ret|apply reads_emit]|done]
      | |by intros e ? ->].
    intros _ ? ->. unfold _compute_node.
    destruct (graph (from_node link)) as [b prop|b|b];
      try apply dispatch_none.
    eapply yields_bind;
      [apply (yields_emit _ _ (fun _ d' => d' = d)); done| |by intros e ? ->].
    intros _ ? ->. by apply yields_ret.
Qed.

Lemma MxNode_Output_compute_none self out_key d :
  yields (MxNode_Output_compute graph dispatch self out_key) d (none_unchanged d).
Proof.
  intros r d' l.
  pose proof (get_input_link_none self (KStr "Surface") d) as Hlink.
  destruct (get_input_link graph dispatch self (KStr "Surface") d)
    as [[[[node|]|e] d1] l1] eqn:Hrun;
    specialize (Hlink _ _ _ Hrun).
  - unfold MxNode_Output_compute.
    rewrite (bind_ok _ _ d tt d [LogInfo ["compute"; bn_name self]]) by done.
    rewrite (bind_ok _ _ d _ d1 l1 Hrun).
    destruct (bind _ _ d1) as [[r2 d2] l2] eqn:Hrest.
    intros [= <- <- _]. intros ->. exfalso.
    match type of Hrest with
    | ?m d1 = _ => assert (yields m d1 (fun r _ => r ≠ Ok None)) as Hsome
    end.
    { apply yields_bind_any; [|done].
      intros type d3. destruct (String.eqb type "surfaceshader").
      + by apply yields_ret.
      + repeat (apply yields_bind_any; [intros ? ?|done]). by apply yields_ret. }
    by apply (Hsome _ _ _ Hrest).
  - rewrite (output_compute_none _ _ _ _ _ _ _ Hrun).
    intros [= <- <- _] _. by apply Hlink.
  - rewrite (output_compute_raise _ _ _ _ _ _ _ _ Hrun). by intros [= <- <- _].
Qed.

End NothingAdded.

Lemma compute_none `{MaterialX} fuel graph node out_key d :
  yields (compute fuel graph node out_key) d (none_unchanged d).
Proof.
  revert node out_key d. induction fuel as [|fuel IH]; intros node out_key d.
  - by apply yields_raise.
  - cbn [compute]. destruct (graph node) as [self prop|self|b].
    + eapply yields_weaken; [apply MxNode_compute_some|]. by intros r d' Hr ->.
    + by apply MxNode_Output_compute_none.
    + by apply yields_raise.
Qed.

(** ** Order, and the output node *)

(** C10. Whatever node and output are compiled, with whatever depth left,
    from a document that is in order: when the call is over (with a
    result or with an exception) the document still has all it had, in
    the same places, and is in order, so every name a node refers to is
    the name of a node added before it; and a node handed back is a new
    one and the last of the document, added after all that its inputs
    needed. *)
Theorem compute_topological `{MaterialX} (fuel : nat) (graph : Graph)
    (node : NodeId) (out_key : Key) (d : Document) :
  topological d ->
  let out := compute fuel graph node out_key d in
  topological out.1.2
  /\ d `prefix_of` out.1.2
  /\ forall n, out.1.1 = Ok (Some n) -> length d <= n /\ S n = length out.1.2.
Proof.
  intros Htopo out. subst out.
  destruct (compute fuel graph node out_key d) as [[r d'] l] eqn:Hrun.
  destruct (compute_compiled fuel graph node out_key d r d' l Hrun)
    as [[Hprefix Hkeep] Hlast].
  cbn [fst snd]. auto.
Qed.

(** C5. An output node whose [Surface] input has no link, or whose
    [Surface] link compiles to nothing: [compute] answers [None], raises
    nothing and leaves the document as it was. *)
Theorem output_without_surface `{MaterialX} (fuel : nat) (graph : Graph)
    (node : NodeId) (self : BNode) (out_key : Key) (d : Document) :
  graph node = GOutput self ->
  (exists s, coll_get (inputs self) (KStr "Surface") = Ok s /\ links s = [])
  \/ (get_input_link graph (compute fuel graph) self (KStr "Surface") d).1.1
     = Ok None ->
  exists log, compute (S fuel) graph node out_key d = (Ok None, d, log).
Proof.
  intros Hnode Hsurface. cbn [compute]. rewrite Hnode.
  assert (exists l1, get_input_link graph (compute fuel graph) self
                       (KStr "Surface") d = (Ok None, d, l1)) as [l1 Hlink].
  { destruct Hsurface as [(s & Hs & Hlinks)|Hnone].
    - exists []. unfold get_input_link.
      rewrite (bind_ok _ _ d s d []) by (by unfold lift; rewrite Hs).
      by rewrite Hlinks.
    - destruct (get_input_link _ _ _ _ d) as [[r d1] l1] eqn:Hrun.
      cbn [fst] in Hnone. subst r. exists l1. f_equal. f_equal.
      eapply (get_input_link_none graph (compute fuel graph)); [|exact Hrun|done].
      intros. apply compute_none. }
  rewrite (output_compute_none _ _ _ _ _ _ _ Hlink). by eexists.
Qed.

(** C4. An output node whose [Surface] link compiles to the node [up]
    of the document.  If the type of [up] is [surfaceshader], [compute]
    answers [up] and adds nothing.  If not, [compute] adds one node to
    the document, of category [surface], whose one port is the input
    [bsdf] bound to the name of [up], and answers that node. *)
Theorem output_resolution `{MaterialX} (fuel : nat) (graph : Graph)
    (node : NodeId) (self : BNode) (out_key : Key) (d : Document)
    (up_node : NodeRef) (d1 : Document) (l1 : list LogEntry) :
  graph node = GOutput self ->
  get_input_link graph (compute fuel graph) self (KStr "Surface") d
  = (Ok (Some up_node), d1, l1) ->
  exists up log,
    d1 !! up_node = Some up
    /\ (dn_type up = "surfaceshader" ->
        compute (S fuel) graph node out_key d = (Ok (Some up_node), d1, log))
    /\ (dn_type up ≠ "surfaceshader" ->
        compute (S fuel) graph node out_key d
        = (Ok (Some (length d1)),
           d1 ++ [{| dn_category := "surface"; dn_name := "surface";
                     dn_type := "surfaceshader";
                     dn_inputs :=
                       [{| port_name := "bsdf"; port_type := dn_type up;
                           port_binding := Some (BNodeName (dn_name up)) |}];
                     dn_parameters := [] |}],
           log)).
Proof.
  intros Hnode Hlink.
  destruct (get_input_link_compiled graph (compute fuel graph)
              (compute_compiled fuel graph) self (KStr "Surface") d _ _ _ Hlink)
    as [_ Hfresh].
  destruct (Hfresh up_node eq_refl) as [_ Hlast].
  destruct (lookup_lt_is_Some_2 d1 up_node) as [up Hup]; [lia|].
  exists up, (LogInfo ["compute"; bn_name self] :: l1).
  split; [done|].
  cbn [compute]. rewrite Hnode.
  rewrite (output_compute_linked _ _ _ _ _ _ _ _ up Hlink Hup).
  split; intros Htype.
  - by rewrite Htype.
  - by rewrite (proj2 (String.eqb_neq _ _) Htype).
Qed.

(** ** A link from a node of another kind *)

Section SameRun.
Context `{MaterialX}.

Lemma same_run_refl {A} (m : M A) : same_run m m.
Proof. by intros d. Qed.

Lemma same_run_bind {A B} (m m' : M A) (f f' : A -> M B) :
  same_run m m' -> (forall a, same_run (f a) (f' a)) ->
  same_run (bind m f) (bind m' f').
Proof.
  intros Hm Hf d. unfold bind. specialize (Hm d).
  destruct (m d) as [[r d1] l1], (m' d) as [[r' d1'] l1'].
  cbn [fst] in Hm. injection Hm as <- <-.
  destruct r as [a|e]; [|done].
  specialize (Hf a d1).
  destruct (f a d1) as [[r2 d2] l2], (f' a d1) as [[r2' d2'] l2'].
  cbn [fst] in *. by injection Hf as <- <-.
Qed.

Variable graph : Graph.
Variable dispatch : NodeId -> Key -> M (option NodeRef).

Lemma get_input_default_run self prop i s d :
  inputs self !! i = Some s ->
  get_input_default self prop (KInt i) d
  = (of_option AttributeError (prop_values prop !! node_prop_name s), d, []).
Proof.
  intros Hs. unfold get_input_default, prop_getattr.
  rewrite (bind_ok _ _ d s d []) by (unfold lift, coll_get; by rewrite Hs).
  unfold lift. done.
Qed.

Lemma get_input_value_fallback self prop i s d log :
  inputs self !! i = Some s ->
  get_input_link graph dispatch self (KInt i) d = (Ok None, d, log) ->
  get_input_value graph dispatch self prop (KInt i) d
  = (literal_of prop s, d, log).
Proof.
  intros Hs Hlink. unfold get_input_value.
  rewrite (bind_ok _ _ d None d log Hlink). cbn beta iota.
  pose proof (get_input_default_run self prop i s d Hs) as Hdefault.
  unfold literal_of.
  destruct (prop_values prop !! node_prop_name s) as [v|]; cbn [of_option] in *.
  - rewrite (bind_ok _ _ d v d [] Hdefault). cbn [ret]. by rewrite !app_nil_r.
  - rewrite (bind_raise _ _ d _ d [] Hdefault). by rewrite !app_nil_r.
Qed.

Lemma get_input_value_unlinked self prop i s d :
  inputs self !! i = Some s -> links s = [] ->
  get_input_value graph dispatch self prop (KInt i) d = (literal_of prop s, d, []).
Proof.
  intros Hs Hlinks. apply get_input_value_fallback; [done|].
  unfold get_input_link.
  rewrite (bind_ok _ _ d s d []) by (unfold lift, coll_get; by rewrite Hs).
  by rewrite Hlinks.
Qed.

Lemma get_input_value_foreign self prop i s link rest b d :
  inputs self !! i = Some s -> links s = link :: rest ->
  graph (from_node link) = GForeign b ->
  get_input_value graph dispatch self prop (KInt i) d
  = (literal_of prop s, d,
     (if is_valid link then []
      else [LogError ["Invalid link found"; from_socket_name link;
                      sock_name s; bn_name self]])
     ++ [LogWarn ["Ignoring unsupported node"; bn_name b]]).
Proof.
  intros Hs Hlinks Hforeign. apply get_input_value_fallback; [done|].
  unfold get_input_link.
  rewrite (bind_ok _ _ d s d []) by (unfold lift, coll_get; by rewrite Hs).
  rewrite Hlinks. unfold _compute_node. rewrite Hforeign.
  by destruct (is_valid link).
Qed.

Lemma get_input_value_other self prop i j d :
  i ≠ j ->
  get_input_value graph dispatch (unlink self i) prop (KInt j) d
  = get_input_value graph dispatch self prop (KInt j) d.
Proof.
  intros Hne.
  unfold get_input_value, get_input_link, get_input_default, coll_get.
  cbn [unlink inputs bn_name]. by rewrite list_lookup_alter_ne.
Qed.

Lemma get_nodedef_input_unlink self prop i j d :
  get_nodedef_input (unlink self i) prop (KInt j) d
  = get_nodedef_input self prop (KInt j) d.
Proof.
  unfold get_nodedef_input, coll_get, bind, lift. cbn [unlink inputs].
  destruct (decide (i = j)) as [->|Hne].
  - rewrite list_lookup_alter_eq. by destruct (inputs self !! j).
  - by rewrite list_lookup_alter_ne.
Qed.

Lemma bind_ext {A B} (m m' : M A) (f f' : A -> M B) d :
  m d = m' d -> (forall a d1, f a d1 = f' a d1) -> bind m f d = bind m' f' d.
Proof.
  intros Hm Hf. unfold bind. rewrite Hm.
  destruct (m' d) as [[[a|e] d1] l1]; [|done]. by rewrite Hf.
Qed.

Lemma add_inputs_unlink self prop i node in_key values d :
  add_inputs (unlink self i) prop node in_key values d
  = add_inputs self prop node in_key values d.
Proof.
  revert in_key d. induction values as [|val values IH]; intros in_key d; [done|].
  cbn [add_inputs]. apply bind_ext; [apply get_nodedef_input_unlink|].
  intros nd_input d1. apply bind_ext; [done|].
  intros nd d2. apply bind_ext; [done|].
  intros input d3. apply bind_ext; [done|]. intros _ d4. apply IH.
Qed.

Section Foreign.
Variables (self : BNode) (prop : NodeProp) (i : nat) (s : NodeSocket).
Variables (link : NodeLink) (rest : list NodeLink) (b : BNode).
Hypothesis socket_at : inputs self !! i = Some s.
Hypothesis linked : links s = link :: rest.
Hypothesis foreign : graph (from_node link) = GForeign b.

Lemma get_input_value_same j :
  same_run (get_input_value graph dispatch self prop (KInt j))
           (get_input_value graph dispatch (unlink self i) prop (KInt j)).
Proof.
  intros d. destruct (decide (i = j)) as [<-|Hne].
  - rewrite (get_input_value_foreign self prop i s link rest b d) by done.
    rewrite (get_input_value_unlinked (unlink self i) prop i (without_links s) d);
      [done| |done].
    cbn [unlink inputs]. by rewrite list_lookup_alter_eq, socket_at.
  - by rewrite get_input_value_other.
Qed.

Lemma input_values_same in_key count :
  same_run (input_values graph dispatch self prop in_key count)
           (input_values graph dispatch (unlink self i) prop in_key count).
Proof.
  revert in_key. induction count as [|count IH]; intros in_key.
  - apply same_run_refl.
  - cbn [input_values]. apply same_run_bind; [apply get_input_value_same|].
    intros v. apply same_run_bind; [apply IH|]. intros vs. apply same_run_refl.
Qed.

Lemma MxNode_compute_same out_key :
  same_run (MxNode_compute graph dispatch self prop out_key)
           (MxNode_compute graph dispatch (unlink self i) prop out_key).
Proof.
  unfold MxNode_compute. cbn [unlink bn_name].
  apply same_run_bind; [apply same_run_refl|]. intros _.
  apply same_run_bind; [apply same_run_refl|]. intros nd_output.
  apply same_run_bind.
  { cbn [unlink inputs]. rewrite length_alter. apply input_values_same. }
  intros values.
  apply same_run_bind; [apply same_run_refl|]. intros out_type.
  apply same_run_bind; [apply same_run_refl|]. intros node.
  apply same_run_bind; [|intros _; apply same_run_refl].
  intros d. by rewrite add_inputs_unlink.
Qed.

End Foreign.

End SameRun.

(** C3. An input whose link comes from a node that is no [MxNode].
    [get_input_value] logs the warning (after the error for a link that
    is not valid), compiles nothing, leaves the document as it is and
    answers the value the node itself holds for the input, exactly as it
    does for the same input with no link; and the node compiles to the
    same result and the same document as it does with the link taken
    away, so the link is the cause of no exception. *)
Theorem foreign_link_ignored `{MaterialX} (graph : Graph)
    (dispatch : NodeId -> Key -> M (option NodeRef))
    (self : BNode) (prop : NodeProp) (i : nat) (s : NodeSocket)
    (link : NodeLink) (rest : list NodeLink) (b : BNode)
    (out_key : Key) (d : Document) :
  inputs self !! i = Some s ->
  links s = link :: rest ->
  graph (from_node link) = GForeign b ->
  (exists log,
     get_input_value graph dispatch self prop (KInt i) d
     = (literal_of prop s, d, log)
     /\ LogWarn ["Ignoring unsupported node"; bn_name b] ∈ log)
  /\ get_input_value graph dispatch (unlink self i) prop (KInt i) d
     = (literal_of prop s, d, [])
  /\ (MxNode_compute graph dispatch self prop out_key d).1
     = (MxNode_compute graph dispatch (unlink self i) prop out_key d).1.
Proof.
  intros Hs Hlinks Hforeign. split_and!.
  - eexists. split; [by apply (get_input_value_foreign graph dispatch
                                 self prop i s link rest b d)|].
    apply elem_of_app. right. apply list_elem_of_here.
  - rewrite (get_input_value_unlinked graph dispatch
               (unlink self i) prop i (without_links s) d); [done| |done].
    cbn [unlink inputs]. by rewrite list_lookup_alter_eq, Hs.
  - by apply (MxNode_compute_same graph dispatch self prop i s link rest b).
Qed.

(** A link that is not valid is logged and followed all the same. *)
Lemma get_input_link_invalid `{MaterialX} (graph : Graph)
    (dispatch : NodeId -> Key -> M (option NodeRef))
    (self : BNode) (i : nat) (s : NodeSocket) (link : NodeLink)
    (rest : list NodeLink) (d : Document) :
  inputs self !! i = Some s -> links s = link :: rest -> is_valid link = false ->
  get_input_link graph dispatch self (KInt i) d
  = let '(r, d', l) :=
      _compute_node graph dispatch (from_node link)
                    (KStr (from_socket_name link)) d in
    (r, d', LogError ["Invalid link found"; from_socket_name link;
                      sock_name s; bn_name self] :: l).
Proof.
  intros Hs Hlinks Hvalid. unfold get_input_link.
  rewrite (bind_ok _ _ d s d []) by (unfold lift, coll_get; by rewrite Hs).
  rewrite Hlinks, Hvalid.
  rewrite (bind_ok _ _ d tt d [LogError ["Invalid link found";
             from_socket_name link; sock_name s; bn_name self]]) by done.
  by destruct (_compute_node _ _ _ _ d) as [[r d'] l].
Qed.

(** ** The compiler on concrete graphs *)

Section Runs.
Local Existing Instance Sample.host.
Local Existing Instance Sample.materialx.

(** C1, on the code.  [compute] keeps no record of what it compiled:
    compiling [K] again in the same pass adds a second node named [K]
    and answers that one, and the mix node whose two inputs are fed by
    [K] compiles to a document that holds [K] twice. *)
Theorem shared_node_compiled_twice :
  compute 3 Sample.shared 1 (KStr "out") []
  = (Ok (Some 0), [Sample.doc_K], [LogInfo ["compute"; "K"; "out"]])
  /\ compute 3 Sample.shared 1 (KStr "out") [Sample.doc_K]
     = (Ok (Some 1), [Sample.doc_K; Sample.doc_K],
        [LogInfo ["compute"; "K"; "out"]])
  /\ (compute 3 Sample.shared 0 (KStr "out") []).1
     = (Ok (Some 2),
        [Sample.doc_K; Sample.doc_K;
         Sample.doc_M (Sample.by_name "K") (Sample.by_name "K")]).
Proof. split_and!; reflexivity. Qed.

(** C2, on the code.  The link into [fg] is not valid: the error is
    logged, and then [K] is compiled and [fg] is bound to it by name,
    where the node with no link has [fg] bound to the value it holds. *)
Theorem invalid_link_still_compiled :
  compute 3 Sample.broken 0 (KStr "out") []
  = (Ok (Some 1),
     [Sample.doc_K;
      Sample.doc_M (Sample.by_name "K") (Sample.literal 0 0 0)],
     [LogInfo ["compute"; "M"; "out"];
      LogError ["Invalid link found"; "out"; "Fg"; "M"];
      LogInfo ["compute"; "K"; "out"]])
  /\ compute 3 Sample.alone 0 (KStr "out") []
     = (Ok (Some 0),
        [Sample.doc_M (Sample.literal 0 0 0) (Sample.literal 0 0 0)],
        [LogInfo ["compute"; "M"; "out"]]).
Proof. split; reflexivity. Qed.

End Runs.

(** ** The theorems at concrete inputs *)

Section Witnesses.
Local Existing Instance Sample.host.
Local Existing Instance Sample.materialx.

Lemma quaternion_unrecognized : ~ recognized "quaternion".
Proof.
  intros [Hin|[(r & c & _ & _ & E)|[(n & _ & E)|[(n & _ & E)|(pre & _ & _ & E)]]]];
    try discriminate E.
  - repeat (apply elem_of_cons in Hin as [Hin|Hin]; [discriminate Hin|]).
    by apply elem_of_nil in Hin.
  - apply (f_equal last_char) in E.
    rewrite (last_char_app pre "a" "rray") in E. discriminate E.
Qed.

Lemma create_property_sized_witness :
  type_shape (mp_type Sample.matrix34) (Some ("MATRIX", 12%Z))
  /\ match (create_property Sample.matrix34).1 with
     | Ok (prop_name, prop_type, a) =>
         prop_name = mp_name Sample.matrix34 /\ prop_type = FloatVectorProperty
         /\ pa_subtype a = Some "MATRIX" /\ pa_size a = Some 12%Z
         /\ forall key, key ∈ parsed_keys -> ~ bad_float_attr Sample.matrix34 key
     | Raise e =>
         e = ValueError
         /\ exists key, key ∈ parsed_keys /\ bad_float_attr Sample.matrix34 key
     end.
Proof.
  assert (type_shape (mp_type Sample.matrix34) (Some ("MATRIX", 12%Z))) as Hshape
    by exact (shape_matrix "3" "4" 3 4 eq_refl eq_refl).
  split; [exact Hshape|].
  exact (create_property_sized Sample.matrix34 (Some ("MATRIX", 12%Z)) Hshape).
Defined.

Lemma create_property_unrecognized_witness :
  ~ recognized (mp_type Sample.odd_type)
  /\ exists a,
       create_property Sample.odd_type
       = (Ok ("x", StringProperty, a),
          [LogWarn ["Unsupported mx_type"; "quaternion"; "x"; "ND_sample"]])
       /\ pa_items a = None /\ pa_subtype a = None /\ pa_size a = None.
Proof.
  split; [exact quaternion_unrecognized|].
  exact (create_property_unrecognized Sample.odd_type quaternion_unrecognized).
Defined.

Lemma schema_files_read :
  Forall2 (fun p f => Sample.readFromXmlFile p = Ok f)
          Sample.schema_paths Sample.schema_files.
Proof. repeat constructor. Qed.

Lemma create_node_types_variants_witness :
  Forall2 (fun p f => Sample.readFromXmlFile p = Ok f)
          Sample.schema_paths Sample.schema_files
  /\ exists nodedef_types groups node_types,
       (create_node_types Sample.readFromXmlFile Sample.schema_paths).1
       = Ok (nodedef_types, node_types)
       /\ mx_nodedef <$> nodedef_types
          = filter (fun nd => is_ok (MxNodedef_new nd).1 = true)
                   (concat Sample.schema_files)
       /\ groups = group_nodedefs nodedef_types
       /\ NoDup groups.*1
       /\ (forall t, t ∈ nodedef_types -> group_key t ∈ groups.*1)
       /\ Forall2 (fun g t =>
                     g.2 ≠ []
                     /\ g.2 = filter (fun t => group_key t = g.1) nodedef_types
                     /\ length (variant_ids t) = length g.2
                     /\ variant_ids t = nodedef_name <$> g.2
                     /\ (NoDup (variant_ids t) <-> NoDup (nodedef_name <$> g.2))
                     /\ Some (var_default t) = nodedef_name <$> head g.2)
                  groups node_types
       /\ (NoDup (nd_name <$> concat Sample.schema_files) ->
           Forall (fun t => NoDup (variant_ids t)) node_types).
Proof.
  split; [exact schema_files_read|].
  exact (create_node_types_variants Sample.readFromXmlFile Sample.schema_paths
           Sample.schema_files schema_files_read).
Defined.

(** C9, as the claim has it, fails: nothing keeps a definition of the
    same name from being read twice.  With [ND_constant_color3] in two
    files, the type made for [constant] offers the identifier
    [ND_constant_color3] twice. *)
Lemma create_node_types_duplicate_variants :
  exists nodedef_types node_types t,
    (create_node_types Sample.readFromXmlFile
       ["stdlib_defs.mtlx"; "more_defs.mtlx"]).1
    = Ok (nodedef_types, node_types)
    /\ t ∈ node_types
    /\ variant_ids t
       = ["ND_constant_color3"; "ND_constant_float"; "ND_constant_color3"]
    /\ ~ NoDup (variant_ids t).
Proof.
  eexists _, _, _. split; [reflexivity|].
  split; [apply list_elem_of_here|]. split; [reflexivity|].
  intros Hnd. apply NoDup_cons in Hnd as [Hfresh _]. apply Hfresh.
  apply list_elem_of_further, list_elem_of_here.
Qed.

Lemma compute_topological_witness :
  topological []
  /\ let out := compute 3 Sample.shared 0 (KStr "out") [] in
     topological out.1.2
     /\ [] `prefix_of` out.1.2
     /\ forall n, out.1.1 = Ok (Some n) -> length (@nil DocNode) <= n
                                          /\ S n = length out.1.2.
Proof.
  split; [exact topological_nil|].
  exact (compute_topological 3 Sample.shared 0 (KStr "out") [] topological_nil).
Defined.

Lemma output_without_surface_witness :
  Sample.unlinked 0 = GOutput (Sample.output_node [])
  /\ ((exists s, coll_get (inputs (Sample.output_node [])) (KStr "Surface") = Ok s
                 /\ links s = [])
      \/ (get_input_link Sample.unlinked (compute 2 Sample.unlinked)
            (Sample.output_node []) (KStr "Surface") []).1.1 = Ok None)
  /\ exists log, compute 3 Sample.unlinked 0 (KStr "") [] = (Ok None, [], log).
Proof.
  assert ((exists s, coll_get (inputs (Sample.output_node [])) (KStr "Surface") = Ok s
                     /\ links s = [])
          \/ (get_input_link Sample.unlinked (compute 2 Sample.unlinked)
                (Sample.output_node []) (KStr "Surface") []).1.1 = Ok None)
    as Hsurface.
  { left. exists (Sample.socket "Surface" "" []). split; reflexivity. }
  split; [reflexivity|]. split; [exact Hsurface|].
  exact (output_without_surface 2 Sample.unlinked 0 (Sample.output_node [])
           (KStr "") [] eq_refl Hsurface).
Defined.

Lemma output_resolution_witness :
  Sample.wrapped 0 = GOutput (Sample.output_node [Sample.link true 1 "out"])
  /\ get_input_link Sample.wrapped (compute 2 Sample.wrapped)
       (Sample.output_node [Sample.link true 1 "out"]) (KStr "Surface") []
     = (Ok (Some 0), [Sample.doc_K], [LogInfo ["compute"; "K"; "out"]])
  /\ exists up log,
       [Sample.doc_K] !! 0 = Some up
       /\ (dn_type up = "surfaceshader" ->
           compute 3 Sample.wrapped 0 (KStr "") []
           = (Ok (Some 0), [Sample.doc_K], log))
       /\ (dn_type up ≠ "surfaceshader" ->
           compute 3 Sample.wrapped 0 (KStr "") []
           = (Ok (Some 1),
              [Sample.doc_K] ++
              [{| dn_category := "surface"; dn_name := "surface";
                  dn_type := "surfaceshader";
                  dn_inputs :=
                    [{| port_name := "bsdf"; port_type := dn_type up;
                        port_binding := Some (BNodeName (dn_name up)) |}];
                  dn_parameters := [] |}],
              log)).
Proof.
  assert (get_input_link Sample.wrapped (compute 2 Sample.wrapped)
            (Sample.output_node [Sample.link true 1 "out"]) (KStr "Surface") []
          = (Ok (Some 0), [Sample.doc_K], [LogInfo ["compute"; "K"; "out"]]))
    as Hlink by reflexivity.
  split; [reflexivity|]. split; [exact Hlink|].
  exact (output_resolution 2 Sample.wrapped 0
           (Sample.output_node [Sample.link true 1 "out"]) (KStr "") []
           0 [Sample.doc_K] [LogInfo ["compute"; "K"; "out"]] eq_refl Hlink).
Defined.

Lemma foreign_link_ignored_witness :
  let self := Sample.mix_node [Sample.link true 2 "BSDF"] [] in
  let s := Sample.socket "Fg" "in_fg" [Sample.link true 2 "BSDF"] in
  let dispatch := compute 2 Sample.alien in
  inputs self !! 0 = Some s
  /\ links s = [Sample.link true 2 "BSDF"]
  /\ Sample.alien (from_node (Sample.link true 2 "BSDF"))
     = GForeign Sample.foreign_node
  /\ (exists log,
        get_input_value Sample.alien dispatch self Sample.mix_prop (KInt 0) []
        = (literal_of Sample.mix_prop s, [], log)
        /\ LogWarn ["Ignoring unsupported node"; bn_name Sample.foreign_node] ∈ log)
  /\ get_input_value Sample.alien dispatch (unlink self 0) Sample.mix_prop
       (KInt 0) []
     = (literal_of Sample.mix_prop s, [], [])
  /\ (MxNode_compute Sample.alien dispatch self Sample.mix_prop (KStr "out") []).1
     = (MxNode_compute Sample.alien dispatch (unlink self 0) Sample.mix_prop
          (KStr "out") []).1.
Proof.
  intros self s dispatch.
  split; [reflexivity|]. split; [reflexivity|]. split; [reflexivity|].
  exact (foreign_link_ignored Sample.alien dispatch self Sample.mix_prop 0 s
           (Sample.link true 2 "BSDF") [] Sample.foreign_node (KStr "out") []
           eq_refl eq_refl eq_refl).
Defined.

End Witnesses.

(** * Further properties *)

(** ** [parse_val] and [create_property], all types *)

Section DescriptorFacts.
Context `{Host}.

Lemma iter_str_strs (l : list string) : iter_str (VTuple (VStr <$> l)) = Ok l.
Proof.
  cbn [iter_str]. induction l as [|x l IH]; [done|].
  rewrite fmap_cons. cbn [result_map result_bind]. by rewrite IH.
Qed.

Lemma parse_val_enum_tokens val :
  parse_val EnumProperty val false
  = Ok (VTuple (VStr <$> (PyStr.strip <$> PyStr.split "," val))).
Proof.
  cbn [parse_val]. do 2 f_equal.
  by rewrite <- list_fmap_compose.
Qed.

Lemma parse_val_enum_first val :
  exists t rest,
    PyStr.split "," val = t :: rest
    /\ parse_val EnumProperty val true = Ok (VStr (PyStr.strip t)).
Proof.
  pose proof (split_not_nil "," val) as Hnil. cbn [parse_val].
  destruct (PyStr.split "," val) as [|t rest]; [done|]. by exists t, rest.
Qed.

(** What makes [parse_val] raise, type by type. *)
Lemma parse_val_raise prop_type val first_only e :
  parse_val prop_type val first_only = Raise e ->
  e = ValueError
  /\ ((prop_type = IntProperty /\ py_int val = None)
      \/ (prop_type = FloatProperty /\ py_float val = None)
      \/ (prop_type = FloatVectorProperty
          /\ mapM py_float (PyStr.split "," val) = None)).
Proof.
  destruct prop_type; cbn [parse_val]; try done.
  - destruct (py_int val); [done|]. intros [= <-]. auto.
  - destruct (py_float val); [done|]. intros [= <-]. auto.
  - destruct (parse_val_enum_first val) as (t & rest & -> & _).
    by destruct first_only.
  - intros Hraise.
    pose proof (parse_val_float_vector val first_only) as Hp.
    cbn [parse_val] in Hp.
    destruct (mapM py_float _) as [fs|].
    + destruct Hp as [v Hv]. congruence.
    + rewrite Hp in Hraise. injection Hraise as <-. auto 10.
Qed.

Lemma parse_val_int_none val first_only :
  py_int val = None -> parse_val IntProperty val first_only = Raise ValueError.
Proof. intros Hv. cbn [parse_val]. by rewrite Hv. Qed.

Lemma parse_val_float_none val first_only :
  py_float val = None -> parse_val FloatProperty val first_only = Raise ValueError.
Proof. intros Hv. cbn [parse_val]. by rewrite Hv. Qed.

Lemma parse_val_vector_none val first_only :
  mapM py_float (PyStr.split "," val) = None ->
  parse_val FloatVectorProperty val first_only = Raise ValueError.
Proof.
  intros Hv. pose proof (parse_val_float_vector val first_only) as Hp.
  by rewrite Hv in Hp.
Qed.

Lemma parsed_attr_cases p prop_type key first_only set a :
  match parsed_attr p prop_type key first_only set a with
  | Ok a' =>
      if hasAttribute (mp_attrs p) key
      then exists v,
             parse_val prop_type (getAttribute (mp_attrs p) key) first_only = Ok v
             /\ a' = set v a
      else a' = a
  | Raise e =>
      hasAttribute (mp_attrs p) key = true
      /\ parse_val prop_type (getAttribute (mp_attrs p) key) first_only = Raise e
  end.
Proof.
  unfold parsed_attr. destruct (hasAttribute _ key); [|done].
  destruct (parse_val _ _ _) as [v|e]; cbn [result_bind]; [|done].
  by exists v.
Qed.

End DescriptorFacts.

Section FillAttrsFacts.
Context `{Host}.

Lemma attr_entry_from_None p prop_type key first_only entry :
  attr_entry_from None p prop_type key first_only entry
  <-> attr_entry p prop_type key first_only entry.
Proof. unfold attr_entry_from, attr_entry. by destruct (hasAttribute _ key). Qed.

(** [fill_attrs], step by step: what it raises, and what each entry of
    the dictionary is when it does not. *)
Lemma fill_attrs_cases p prop_type a :
  match fill_attrs p prop_type a with
  | Ok a' =>
      same_shape a a'
      /\ pa_name a'
         = Some (if hasAttribute (mp_attrs p) "uiname"
                 then getAttribute (mp_attrs p) "uiname"
                 else title_str (mp_name p))
      /\ pa_description a' = Some (getAttribute (mp_attrs p) "doc")
      /\ attr_entry_from (pa_min a) p prop_type "uimin" true (pa_min a')
      /\ attr_entry_from (pa_max a) p prop_type "uimax" true (pa_max a')
      /\ attr_entry_from (pa_soft_min a) p prop_type "uisoftmin" true
           (pa_soft_min a')
      /\ attr_entry_from (pa_soft_max a) p prop_type "uisoftmax" true
           (pa_soft_max a')
      /\ attr_entry_from (pa_default a) p prop_type "value"
           (bool_decide (prop_type = EnumProperty)) (pa_default a')
  | Raise e =>
      exists key first_only,
        (key, first_only) ∈ parsed_with prop_type
        /\ hasAttribute (mp_attrs p) key = true
        /\ parse_val prop_type (getAttribute (mp_attrs p) key) first_only = Raise e
  end.
Proof.
  unfold fill_attrs, parsed_with, attr_entry_from.
  set (a0 := set_description _ (set_name _ a)).
  pose proof (parsed_attr_cases p prop_type "uimin" true set_min a0) as H1.
  destruct (parsed_attr p _ "uimin" _ _ a0) as [a1|e]; cbn [result_bind];
    [|exists "uimin", true; split; [repeat constructor|exact H1]].
  pose proof (parsed_attr_cases p prop_type "uimax" true set_max a1) as H2.
  destruct (parsed_attr p _ "uimax" _ _ a1) as [a2|e]; cbn [result_bind];
    [|exists "uimax", true; split; [repeat constructor|exact H2]].
  pose proof (parsed_attr_cases p prop_type "uisoftmin" true set_soft_min a2) as H3.
  destruct (parsed_attr p _ "uisoftmin" _ _ a2) as [a3|e]; cbn [result_bind];
    [|exists "uisoftmin", true; split; [repeat constructor|exact H3]].
  pose proof (parsed_attr_cases p prop_type "uisoftmax" true set_soft_max a3) as H4.
  destruct (parsed_attr p _ "uisoftmax" _ _ a3) as [a4|e]; cbn [result_bind];
    [|exists "uisoftmax", true; split; [repeat constructor|exact H4]].
  pose proof (parsed_attr_cases p prop_type "value"
                (bool_decide (prop_type = EnumProperty)) set_default a4) as H5.
  destruct (parsed_attr p _ "value" _ _ a4) as [a5|e];
    [|exists "value", (bool_decide (prop_type = EnumProperty));
      split; [repeat constructor|exact H5]].
  destruct (hasAttribute (mp_attrs p) "uimin");
    [destruct H1 as (v1 & Hv1 & ->)|subst a1];
  (destruct (hasAttribute (mp_attrs p) "uimax");
    [destruct H2 as (v2 & Hv2 & ->)|subst a2]);
  (destruct (hasAttribute (mp_attrs p) "uisoftmin");
    [destruct H3 as (v3 & Hv3 & ->)|subst a3]);
  (destruct (hasAttribute (mp_attrs p) "uisoftmax");
    [destruct H4 as (v4 & Hv4 & ->)|subst a4]);
  (destruct (hasAttribute (mp_attrs p) "value");
    [destruct H5 as (v5 & Hv5 & ->)|subst a5]);
  subst a0; cbn; split_and!; eauto; done.
Qed.

End FillAttrsFacts.

(** ** [str.strip] *)

Lemma lstrip_head s c rest :
  PyStr.lstrip s = String c rest -> PyStr.is_space c = false.
Proof.
  induction s as [|a s IH]; [done|]. cbn [PyStr.lstrip].
  destruct (PyStr.is_space a) eqn:Ha; [done|]. by intros [= <- _].
Qed.

Lemma rstrip_head s c rest :
  PyStr.rstrip s = String c rest -> exists rest', s = String c rest'.
Proof.
  destruct s as [|a s]; [done|]. cbn [PyStr.rstrip].
  destruct (PyStr.rstrip s); [destruct (PyStr.is_space a); [done|]|];
    intros [= <- _]; by eexists.
Qed.

Lemma rstrip_last s c :
  last_char (PyStr.rstrip s) = Some c -> PyStr.is_space c = false.
Proof.
  induction s as [|a s IH]; [done|]. cbn [PyStr.rstrip].
  destruct (PyStr.rstrip s) as [|b r].
  - destruct (PyStr.is_space a) eqn:Ha; [done|]. by intros [= <-].
  - exact IH.
Qed.

Lemma strip_trimmed s : trimmed (PyStr.strip s).
Proof.
  unfold trimmed, PyStr.strip. split.
  - intros c rest Hs. apply rstrip_head in Hs as [rest' Hs].
    by apply lstrip_head in Hs.
  - apply rstrip_last.
Qed.

Lemma lstrip_has_char c s :
  has_char c s = false -> has_char c (PyStr.lstrip s) = false.
Proof.
  induction s as [|a s IH]; [done|]. cbn [PyStr.lstrip has_char].
  intros [Ha Hs]%orb_false_iff.
  destruct (PyStr.is_space a); [by apply IH|]. cbn [has_char]. by rewrite Ha, Hs.
Qed.

Lemma rstrip_has_char c s :
  has_char c s = false -> has_char c (PyStr.rstrip s) = false.
Proof.
  induction s as [|a s IH]; [done|]. cbn [PyStr.rstrip has_char].
  intros [Ha Hs]%orb_false_iff. specialize (IH Hs).
  destruct (PyStr.rstrip s) as [|b r].
  - destruct (PyStr.is_space a); [done|]. cbn [has_char]. by rewrite Ha.
  - cbn [has_char] in *. by rewrite Ha, IH.
Qed.

Lemma strip_has_char c s :
  has_char c s = false -> has_char c (PyStr.strip s) = false.
Proof. intros Hs. by apply rstrip_has_char, lstrip_has_char. Qed.

(** ** The type rule, all types *)

Section TypeRuleKinds.
Context `{Host}.

Lemma type_rule_integer p :
  mp_type p = "integer" -> type_rule p = (Ok (IntProperty, no_attrs), []).
Proof. intros Hty. unfold type_rule. by rewrite Hty. Qed.

Lemma type_rule_float p :
  mp_type p = "float" -> type_rule p = (Ok (FloatProperty, no_attrs), []).
Proof. intros Hty. unfold type_rule. by rewrite Hty. Qed.

Lemma type_rule_enum p :
  mp_type p = "string" -> hasAttribute (mp_attrs p) "enum" = true ->
  type_rule p
  = (Ok (EnumProperty,
         set_items ((fun it => (it, title_str it, title_str it))
                      <$> (PyStr.strip
                             <$> PyStr.split "," (getAttribute (mp_attrs p) "enum")))
                   no_attrs),
     []).
Proof.
  intros Hty Henum. unfold type_rule. rewrite Hty, Henum.
  change (String.eqb "string" "string") with true. cbv iota.
  rewrite parse_val_enum_tokens. cbn [result_bind].
  by rewrite iter_str_strs.
Qed.

(** The rule never raises, and the type it picks tells the type string. *)
Lemma type_rule_kinds p :
  exists prop_type a log,
    type_rule p = (Ok (prop_type, a), log)
    /\ unfilled a
    /\ (prop_type = IntProperty -> mp_type p = "integer")
    /\ (prop_type = FloatProperty -> mp_type p = "float")
    /\ (prop_type = FloatVectorProperty ->
        exists subtype size, type_shape (mp_type p) (Some (subtype, size)))
    /\ prop_type ≠ IntVectorProperty /\ prop_type ≠ PointerProperty.
Proof.
  unfold type_rule.
  destruct (String.eqb_spec (mp_type p) "string") as [E|_].
  { destruct (hasAttribute (mp_attrs p) "enum").
    - rewrite parse_val_enum_tokens. cbn [result_bind].
      rewrite iter_str_strs. cbn [result_bind].
      eexists _, _, _. split; [done|]. by split_and!.
    - eexists _, _, _. split; [done|]. by split_and!. }
  destruct (String.eqb_spec (mp_type p) "filename") as [E|_].
  { eexists _, _, _. split; [done|]. by split_and!. }
  destruct (String.eqb_spec (mp_type p) "integer") as [E|_].
  { eexists _, _, _. split; [done|]. by split_and!. }
  destruct (String.eqb_spec (mp_type p) "float") as [E|_].
  { eexists _, _, _. split; [done|]. by split_and!. }
  destruct (String.eqb_spec (mp_type p) "boolean") as [E|_].
  { eexists _, _, _. split; [done|]. by split_and!. }
  destruct (existsb _ shader_types).
  { eexists _, _, _. split; [done|]. by split_and!. }
  destruct (PyStr.match_digit2 "matrix" _) as [[R C]|] eqn:Hm.
  { apply match_digit2_inv in Hm as (r & c & E & Hr & Hc).
    eexists _, _, _. split; [done|]. split_and!; try done.
    intros _. exists "MATRIX", (R * C)%Z. rewrite E. by constructor. }
  destruct (PyStr.match_digit "color" _) as [N|] eqn:Hcol.
  { apply match_digit_inv in Hcol as (n & E & Hn).
    eexists _, _, _. split; [done|]. split_and!; try done.
    intros _. exists "COLOR", N. rewrite E. by constructor. }
  destruct (PyStr.match_digit "vector" _) as [N|] eqn:Hvec.
  { apply match_digit_inv in Hvec as (n & E & Hn).
    eexists _, _, _. split; [done|]. split_and!; try done.
    intros _. eexists _, N. rewrite E. by constructor. }
  destruct (PyStr.match_array _);
    eexists _, _, _; (split; [done|]); by split_and!.
Qed.

Lemma parsed_with_keys prop_type key first_only :
  (key, first_only) ∈ parsed_with prop_type -> key ∈ parsed_keys.
Proof.
  unfold parsed_with, parsed_keys. intros Hin.
  repeat (apply elem_of_cons in Hin as [[= -> _]|Hin]; [repeat constructor|]).
  by apply elem_of_nil in Hin.
Qed.

End TypeRuleKinds.

(** X1. [create_property] raises nothing but [ValueError], and raises it
    exactly when one of the attributes [uimin], [uimax], [uisoftmin],
    [uisoftmax], [value] is set and cannot be parsed at the parameter's
    type: it is no [int] for an [integer], no [float] for a [float], or
    holds a token that is no [float] for a matrix, colour or vector.  For
    every other type, whatever the attributes hold, it returns. *)
Theorem create_property_raises `{Host} (p : MxParam) :
  match (create_property p).1 with
  | Ok _ => forall key, key ∈ parsed_keys -> ~ unparsable p key
  | Raise e =>
      e = ValueError /\ exists key, key ∈ parsed_keys /\ unparsable p key
  end.
Proof.
  unfold create_property.
  destruct (type_rule_kinds p)
    as (prop_type & a & log & Hrule & Hunfilled & Hint & Hfloat & Hvec & _ & _).
  rewrite Hrule. cbn [fst result_bind].
  pose proof (fill_attrs_cases p prop_type a) as Hfill.
  destruct (fill_attrs p prop_type a) as [a'|e]; cbn [result_bind].
  - intros key Hkey (Hhas & Hbad).
    assert (exists first_only v,
              parse_val prop_type (getAttribute (mp_attrs p) key) first_only
              = Ok v) as (first_only & v & Hv).
    { destruct Hfill as (_ & _ & _ & E1 & E2 & E3 & E4 & E5).
      unfold attr_entry_from, parsed_keys in *.
      repeat (apply elem_of_cons in Hkey as [->|Hkey];
              [rewrite Hhas in *;
               match goal with
               | E : exists v, parse_val _ (getAttribute _ ?k) ?fo = Ok v /\ _
                 |- context [getAttribute _ ?k] =>
                   destruct E as (v & Hv & _); by exists fo, v
               end|]).
      by apply elem_of_nil in Hkey. }
    destruct Hbad as [[Hty Hnone]|[[Hty Hnone]|[(st & sz & Hshape) Hnone]]].
    + rewrite (type_rule_integer p Hty) in Hrule. injection Hrule as <- _ _.
      by rewrite (parse_val_int_none _ _ Hnone) in Hv.
    + rewrite (type_rule_float p Hty) in Hrule. injection Hrule as <- _ _.
      by rewrite (parse_val_float_none _ _ Hnone) in Hv.
    + rewrite (type_rule_shape p st sz Hshape) in Hrule. injection Hrule as <- _ _.
      by rewrite (parse_val_vector_none _ _ Hnone) in Hv.
  - destruct Hfill as (key & first_only & Hin & Hhas & Hraise).
    apply parse_val_raise in Hraise
      as [-> [[-> Hnone]|[[-> Hnone]|[-> Hnone]]]];
      (split; [done|]); exists key;
      (split; [by eapply parsed_with_keys|]); (split; [done|]); auto.
Qed.

Section WarningFacts.
Context `{Host}.

Lemma create_property_log p : (create_property p).2 = (type_rule p).2.
Proof. unfold create_property. by destruct (type_rule p). Qed.

Lemma type_rule_recognized p :
  recognized (mp_type p) -> (type_rule p).2 = [].
Proof.
  intros Hrec. unfold type_rule.
  destruct (String.eqb_spec (mp_type p) "string") as [_|N1];
    [by destruct (hasAttribute _ _)|].
  destruct (String.eqb_spec (mp_type p) "filename") as [_|N2]; [done|].
  destruct (String.eqb_spec (mp_type p) "integer") as [_|N3]; [done|].
  destruct (String.eqb_spec (mp_type p) "float") as [_|N4]; [done|].
  destruct (String.eqb_spec (mp_type p) "boolean") as [_|N5]; [done|].
  destruct (existsb _ shader_types) eqn:Hshader; [done|].
  destruct (PyStr.match_digit2 "matrix" _) as [[R C]|] eqn:Hm; [done|].
  destruct (PyStr.match_digit "color" _) as [N|] eqn:Hcol; [done|].
  destruct (PyStr.match_digit "vector" _) as [N|] eqn:Hvec; [done|].
  destruct (PyStr.match_array _) eqn:Harr; [done|].
  exfalso.
  destruct Hrec as [Hin|[(r & c & [R HR] & [C HC] & E)|[(n & [N HN] & E)
                   |[(n & [N HN] & E)|(pre & Hne & Hdot & E)]]]].
  - repeat (apply elem_of_cons in Hin as [E|Hin];
            [first [done|by rewrite E in Hshader]|]).
    by apply elem_of_nil in Hin.
  - by rewrite E, (match_digit2_app "matrix" r c R C) in Hm.
  - by rewrite E, (match_digit_app "color" n N) in Hcol.
  - by rewrite E, (match_digit_app "vector" n N) in Hvec.
  - by rewrite E, match_array_app in Harr.
Qed.

End WarningFacts.

(** X2. For a parameter whose type some rule recognizes,
    [create_property] logs nothing: with C7, the warning is logged for
    the types no rule recognizes and for no other. *)
Theorem create_property_quiet `{Host} (p : MxParam) :
  recognized (mp_type p) -> (create_property p).2 = [].
Proof.
  intros Hrec. rewrite create_property_log. by apply type_rule_recognized.
Qed.

(** X3. A [string] parameter that has an [enum] attribute becomes an
    [EnumProperty], whatever its other attributes hold: nothing is
    raised and nothing logged.  Its items are the tokens of the [enum]
    attribute between commas, each with the white space around it
    stripped, so no item holds a comma or starts or ends with white
    space; an item is its own identifier and [title_str] of it is its
    label and its description.  A default is there when [value] is set,
    and is the first token of [value], stripped. *)
Theorem create_property_enum `{Host} (p : MxParam) :
  mp_type p = "string" ->
  hasAttribute (mp_attrs p) "enum" = true ->
  exists a tokens,
    create_property p = (Ok (mp_name p, EnumProperty, a), [])
    /\ tokens = PyStr.strip <$> PyStr.split "," (getAttribute (mp_attrs p) "enum")
    /\ pa_items a = Some ((fun it => (it, title_str it, title_str it)) <$> tokens)
    /\ tokens ≠ []
    /\ Forall (fun it => has_char "," it = false /\ trimmed it) tokens
    /\ pa_default a
       = if hasAttribute (mp_attrs p) "value"
         then (fun t => VStr (PyStr.strip t))
                <$> head (PyStr.split "," (getAttribute (mp_attrs p) "value"))
         else None.
Proof.
  intros Hty Henum. unfold create_property.
  rewrite (type_rule_enum p Hty Henum). cbn [result_bind].
  set (tokens := PyStr.strip <$> PyStr.split "," (getAttribute (mp_attrs p) "enum")).
  pose proof (fill_attrs_cases p EnumProperty
                (set_items ((fun it => (it, title_str it, title_str it)) <$> tokens)
                           no_attrs)) as Hfill.
  destruct (fill_attrs p EnumProperty _) as [a|e]; cbn [result_bind].
  - destruct Hfill as ((Hitems & _ & _) & _ & _ & _ & _ & _ & _ & Hdefault).
    exists a, tokens. split_and!; try done.
    + subst tokens. pose proof (split_not_nil "," (getAttribute (mp_attrs p) "enum")).
      by destruct (PyStr.split _ _).
    + subst tokens. apply Forall_fmap.
      eapply Forall_impl; [apply split_sep_free|].
      intros t Ht. cbn. split; [by apply strip_has_char|apply strip_trimmed].
    + unfold attr_entry_from in Hdefault.
      destruct (hasAttribute (mp_attrs p) "value"); [|done].
      destruct Hdefault as (v & Hv & ->).
      destruct (parse_val_enum_first (getAttribute (mp_attrs p) "value"))
        as (t & rest & Hsplit & Hfirst).
      rewrite bool_decide_eq_true_2 in Hv by done.
      rewrite Hsplit. cbn. congruence.
  - exfalso. destruct Hfill as (key & first_only & Hin & _ & Hraise).
    apply parse_val_raise in Hraise as [_ [[? _]|[[? _]|[? _]]]]; done.
Qed.

(** X4. Whenever [create_property] returns, the dictionary has the
    display name (the [uiname] attribute when set, or else [title_str]
    of the parameter's name) and the description (the [doc] attribute,
    empty when not set), and has [min], [max], [soft_min], [soft_max] and
    [default] exactly for the attributes [uimin], [uimax], [uisoftmin],
    [uisoftmax] and [value] that are set, each as [parse_val] reads it at
    the property type: the bounds with [first_only], the default with
    [first_only] for an enum alone. *)
Theorem create_property_entries `{Host} (p : MxParam) (prop_name : string)
    (prop_type : PropType) (a : PropAttrs) :
  (create_property p).1 = Ok (prop_name, prop_type, a) ->
  prop_name = mp_name p
  /\ pa_name a = Some (if hasAttribute (mp_attrs p) "uiname"
                       then getAttribute (mp_attrs p) "uiname"
                       else title_str (mp_name p))
  /\ pa_description a = Some (getAttribute (mp_attrs p) "doc")
  /\ attr_entry p prop_type "uimin" true (pa_min a)
  /\ attr_entry p prop_type "uimax" true (pa_max a)
  /\ attr_entry p prop_type "uisoftmin" true (pa_soft_min a)
  /\ attr_entry p prop_type "uisoftmax" true (pa_soft_max a)
  /\ attr_entry p prop_type "value" (bool_decide (prop_type = EnumProperty))
       (pa_default a).
Proof.
  unfold create_property.
  destruct (type_rule_kinds p)
    as (ty & a0 & log & Hrule & Hunfilled & _).
  rewrite Hrule. cbn [fst result_bind].
  pose proof (fill_attrs_cases p ty a0) as Hfill.
  destruct (fill_attrs p ty a0) as [a'|e]; cbn [result_bind]; [|done].
  intros [= <- <- <-].
  destruct Hunfilled as (_ & _ & Hmin & Hmax & Hsmin & Hsmax & Hdef).
  destruct Hfill as (_ & Hname & Hdoc & E1 & E2 & E3 & E4 & E5).
  rewrite Hmin in E1. rewrite Hmax in E2. rewrite Hsmin in E3.
  rewrite Hsmax in E4. rewrite Hdef in E5.
  rewrite <- !attr_entry_from_None. done.
Qed.

Section VectorEntries.
Context `{Host}.

Lemma parse_val_vector_first val v :
  parse_val FloatVectorProperty val true = Ok v ->
  exists t rest f,
    PyStr.split "," val = t :: rest /\ py_float t = Some f /\ v = VFloat f.
Proof.
  cbn [parse_val]. rewrite result_map_floats.
  destruct (mapM py_float (PyStr.split "," val)) as [fs|] eqn:Hfs; [|done].
  cbn [result_bind]. apply mapM_Some_1 in Hfs.
  destruct Hfs as [|t f rest fs Hf _]; [done|].
  intros [= <-]. by exists t, rest, f.
Qed.

Lemma parse_val_vector_all val v :
  parse_val FloatVectorProperty val false = Ok v ->
  exists fs,
    mapM py_float (PyStr.split "," val) = Some fs /\ v = VTuple (VFloat <$> fs).
Proof.
  cbn [parse_val]. rewrite result_map_floats.
  destruct (mapM py_float (PyStr.split "," val)) as [fs|]; [|done].
  intros [= <-]. by exists fs.
Qed.

End VectorEntries.

(** X5. For a matrix, colour or vector parameter that [create_property]
    returns a property for, a bound is one number: the [float] of the
    first token of [uimin], [uimax], [uisoftmin] or [uisoftmax], the
    other tokens only having to be floats.  The default is the tuple of
    the floats of all the tokens of [value], as many as there are,
    whatever the size of the property. *)
Theorem create_property_vector_entries `{Host} (p : MxParam)
    (subtype : string) (size : Z) (prop_name : string) (prop_type : PropType)
    (a : PropAttrs) :
  type_shape (mp_type p) (Some (subtype, size)) ->
  (create_property p).1 = Ok (prop_name, prop_type, a) ->
  pa_size a = Some size
  /\ first_float p "uimin" (pa_min a)
  /\ first_float p "uimax" (pa_max a)
  /\ first_float p "uisoftmin" (pa_soft_min a)
  /\ first_float p "uisoftmax" (pa_soft_max a)
  /\ (hasAttribute (mp_attrs p) "value" = true ->
      exists fs,
        mapM py_float (PyStr.split "," (getAttribute (mp_attrs p) "value"))
        = Some fs
        /\ pa_default a = Some (VTuple (VFloat <$> fs))).
Proof.
  intros Hshape. unfold create_property.
  rewrite (type_rule_shape p subtype size Hshape). cbn [fst result_bind].
  pose proof (fill_attrs_cases p FloatVectorProperty
                (set_size size (set_subtype subtype no_attrs))) as Hfill.
  destruct (fill_attrs p FloatVectorProperty _) as [a'|e];
    cbn [result_bind]; [|done].
  intros [= _ <- <-].
  destruct Hfill as ((_ & _ & Hsize) & _ & _ & E1 & E2 & E3 & E4 & E5).
  unfold attr_entry_from, first_float in *.
  split; [done|].
  split_and!; intros Hhas; rewrite Hhas in *.
  - destruct E1 as (v & Hv & ->).
    apply parse_val_vector_first in Hv as (t & rest & f & ? & ? & ->). eauto 10.
  - destruct E2 as (v & Hv & ->).
    apply parse_val_vector_first in Hv as (t & rest & f & ? & ? & ->). eauto 10.
  - destruct E3 as (v & Hv & ->).
    apply parse_val_vector_first in Hv as (t & rest & f & ? & ? & ->). eauto 10.
  - destruct E4 as (v & Hv & ->).
    apply parse_val_vector_first in Hv as (t & rest & f & ? & ? & ->). eauto 10.
  - destruct E5 as (v & Hv & ->).
    apply parse_val_vector_all in Hv as (fs & ? & ->). eauto.
Qed.

(** ** [MxNodedef.new] *)

Lemma append_inj_r (pre a b : string) : pre +:+ a = pre +:+ b -> a = b.
Proof. induction pre as [|c pre IH]; [done|]. intros [= Heq]. by apply IH. Qed.

Section AnnotateFacts.
Context `{Host}.

Lemma create_property_name p prop_name prop_type a :
  (create_property p).1 = Ok (prop_name, prop_type, a) -> prop_name = mp_name p.
Proof.
  unfold create_property. destruct (type_rule p) as [[[ty a0]|e] log]; [|done].
  cbn [fst result_bind]. destruct (fill_attrs p ty a0); [|done].
  by intros [= <- _ _].
Qed.

(** One loop of [MxNodedef.new]: it goes through when every
    [create_property] does, and then the dictionary has gained the keys
    of the loop and lost none. *)
Lemma annotate_cases prefix ps ann :
  match (annotate prefix ps ann).1 with
  | Ok ann' =>
      Forall (fun p => is_ok (create_property p).1 = true) ps
      /\ (forall k, (forall p, p ∈ ps -> k ≠ prefix +:+ mp_name p) ->
            ann' !! k = ann !! k)
      /\ (forall k, is_Some (ann' !! k)
            <-> is_Some (ann !! k) \/ exists p, p ∈ ps /\ k = prefix +:+ mp_name p)
      /\ (NoDup (mp_name <$> ps) ->
          forall p, p ∈ ps -> ann' !! (prefix +:+ mp_name p) = annotation_of p)
  | Raise e =>
      exists p, p ∈ ps /\ (create_property p).1 = Raise e
  end.
Proof.
  revert ann. induction ps as [|p ps IH]; intros ann.
  - cbn. split_and!; [done|done| |].
    + intros k. split; [auto|]. intros [?|(p & Hp & _)]; [done|].
      by apply elem_of_nil in Hp.
    + intros _ p Hp. by apply elem_of_nil in Hp.
  - cbn [annotate].
    destruct (create_property p) as [[[[prop_name prop_type] prop_attrs]|e] log]
      eqn:Hp.
    2:{ cbn. exists p. split; [apply list_elem_of_here|]. by rewrite Hp. }
    assert (prop_name = mp_name p) as ->
      by (apply (create_property_name p _ prop_type prop_attrs); by rewrite Hp).
    specialize (IH (<[prefix +:+ mp_name p := (prop_type, prop_attrs)]> ann)).
    destruct (annotate prefix ps _) as [[ann'|e] log'] eqn:Hrest; cbn [fst] in *.
    2:{ destruct IH as (q & Hq & Hraise). exists q.
        split; [by apply list_elem_of_further|done]. }
    destruct IH as (Hall & Hother & Hdom & Hget). split_and!.
    + constructor; [by rewrite Hp|done].
    + intros k Hk. rewrite Hother.
      * rewrite lookup_insert_ne; [done|]. intros Heq.
        by apply (Hk p); [apply list_elem_of_here|].
      * intros q Hq. apply Hk. by apply list_elem_of_further.
    + intros k. rewrite Hdom. rewrite lookup_insert_is_Some.
      split.
      * intros [[Heq|[_ Hold]]|(q & Hq & Hk)].
        -- right. exists p. split; [apply list_elem_of_here|done].
        -- by left.
        -- right. exists q. split; [by apply list_elem_of_further|done].
      * intros [Hold|(q & Hq & Hk)].
        -- destruct (decide (prefix +:+ mp_name p = k)); auto.
        -- apply elem_of_cons in Hq as [->|Hq]; [auto|].
           right. by exists q.
    + intros Hnd q Hq. rewrite fmap_cons in Hnd.
      apply NoDup_cons in Hnd as [Hfresh Hnd].
      apply elem_of_cons in Hq as [->|Hq].
      * rewrite Hother.
        -- rewrite lookup_insert_eq. unfold annotation_of. by rewrite Hp.
        -- intros q Hq Heq. apply append_inj_r in Heq.
           apply Hfresh. rewrite Heq. by apply list_elem_of_fmap_2.
      * by apply Hget.
Qed.

End AnnotateFacts.

(** X6. The class [MxNodedef.new] builds keeps its nodedef and is named
    [Mx] followed by the nodedef's name.  Its annotations have a key for
    every parameter, input and output ([p_], [in_] and [out_] before the
    name) and no other key.  The three prefixes keep the three loops
    apart: whatever the inputs and outputs are called, the annotation of
    a parameter is the type and dictionary [create_property] gave for
    that parameter, and the same holds for inputs and for outputs, when
    no two of the same list share a name. *)
Theorem MxNodedef_new_annotations `{Host} (nd : MxNodeDef) (t : MxNodedefType) :
  (MxNodedef_new nd).1 = Ok t ->
  mx_nodedef t = nd
  /\ nt_class_name t = "Mx" +:+ nd_name nd
  /\ (forall k,
        is_Some (nt_annotations t !! k)
        <-> (exists p, p ∈ nd_parameters nd /\ k = "p_" +:+ mp_name p)
            \/ (exists p, p ∈ nd_inputs nd /\ k = "in_" +:+ mp_name p)
            \/ (exists p, p ∈ nd_outputs nd /\ k = "out_" +:+ mp_name p))
  /\ (NoDup (mp_name <$> nd_parameters nd) ->
      forall p, p ∈ nd_parameters nd ->
        nt_annotations t !! ("p_" +:+ mp_name p) = annotation_of p)
  /\ (NoDup (mp_name <$> nd_inputs nd) ->
      forall p, p ∈ nd_inputs nd ->
        nt_annotations t !! ("in_" +:+ mp_name p) = annotation_of p)
  /\ (NoDup (mp_name <$> nd_outputs nd) ->
      forall p, p ∈ nd_outputs nd ->
        nt_annotations t !! ("out_" +:+ mp_name p) = annotation_of p).
Proof.
  unfold MxNodedef_new.
  pose proof (annotate_cases "p_" (nd_parameters nd) ∅) as H1.
  destruct (annotate "p_" _ _) as [[a1|e1] l1]; [|done].
  pose proof (annotate_cases "in_" (nd_inputs nd) a1) as H2.
  destruct (annotate "in_" _ _) as [[a2|e2] l2]; [|done].
  pose proof (annotate_cases "out_" (nd_outputs nd) a2) as H3.
  destruct (annotate "out_" _ _) as [[a3|e3] l3]; [|done].
  cbn [fst] in *. intros [= <-]. cbn [mx_nodedef nt_class_name nt_annotations].
  destruct H1 as (_ & Hother1 & Hdom1 & Hget1).
  destruct H2 as (_ & Hother2 & Hdom2 & Hget2).
  destruct H3 as (_ & Hother3 & Hdom3 & Hget3).
  split_and!; try done.
  - intros k. rewrite Hdom3, Hdom2, Hdom1, lookup_empty.
    split; [intros [[[[? [=]]|?]|?]|?]; auto|intros [?|[?|?]]; auto].
  - intros Hnd p Hp. rewrite Hother3 by (by intros q _ [=]).
    rewrite Hother2 by (by intros q _ [=]). by apply Hget1.
  - intros Hnd p Hp. rewrite Hother3 by (by intros q _ [=]). by apply Hget2.
Qed.

(** X7. [MxNodedef.new] catches nothing: it returns when
    [create_property] returns for every parameter, input and output of
    the nodedef, and it raises what [create_property] raises for one of
    them when it does not. *)
Theorem MxNodedef_new_raises `{Host} (nd : MxNodeDef) :
  match (MxNodedef_new nd).1 with
  | Ok _ => Forall (fun p => is_ok (create_property p).1 = true) (all_params nd)
  | Raise e => exists p, p ∈ all_params nd /\ (create_property p).1 = Raise e
  end.
Proof.
  unfold MxNodedef_new, all_params.
  pose proof (annotate_cases "p_" (nd_parameters nd) ∅) as H1.
  destruct (annotate "p_" _ _) as [[a1|e1] l1]; cbn [fst] in *.
  2:{ destruct H1 as (p & Hp & Hraise). exists p. split; [|done].
      apply elem_of_app. by left. }
  pose proof (annotate_cases "in_" (nd_inputs nd) a1) as H2.
  destruct (annotate "in_" _ _) as [[a2|e2] l2]; cbn [fst] in *.
  2:{ destruct H2 as (p & Hp & Hraise). exists p. split; [|done].
      apply elem_of_app. right. apply elem_of_app. by left. }
  pose proof (annotate_cases "out_" (nd_outputs nd) a2) as H3.
  destruct (annotate "out_" _ _) as [[a3|e3] l3]; cbn [fst] in *.
  2:{ destruct H3 as (p & Hp & Hraise). exists p. split; [|done].
      apply elem_of_app. right. apply elem_of_app. by right. }
  destruct H1 as (Hall1 & _), H2 as (Hall2 & _), H3 as (Hall3 & _).
  rewrite !Forall_app. done.
Qed.

(** ** What [create_node_types] logs *)

Section LoadFacts.
Context `{Host}.

Lemma type_rule_no_error p : Forall (fun e => is_error e = false) (type_rule p).2.
Proof.
  unfold type_rule.
  repeat (match goal with
          | |- context [if ?b then _ else _] => destruct b
          | |- context [match ?o with Some _ => _ | None => _ end] => destruct o
          | |- context [let '(_, _) := ?x in _] => destruct x
          end; cbn [snd]; try by repeat constructor).
Qed.

Lemma annotate_no_error prefix ps ann :
  Forall (fun e => is_error e = false) (annotate prefix ps ann).2.
Proof.
  revert ann. induction ps as [|p ps IH]; intros ann; [by constructor|].
  cbn [annotate].
  pose proof (type_rule_no_error p) as Hp. rewrite <- create_property_log in Hp.
  destruct (create_property p) as [[[[n ty] a]|e] log]; cbn [snd] in *; [|done].
  specialize (IH (<[prefix +:+ n := (ty, a)]> ann)).
  destruct (annotate prefix ps _) as [r log']. cbn [snd] in *.
  by apply Forall_app.
Qed.

Lemma MxNodedef_new_no_error nd :
  Forall (fun e => is_error e = false) (MxNodedef_new nd).2.
Proof.
  unfold MxNodedef_new.
  pose proof (annotate_no_error "p_" (nd_parameters nd) ∅) as H1.
  destruct (annotate "p_" _ _) as [[a1|e1] l1]; cbn [snd] in *; [|done].
  pose proof (annotate_no_error "in_" (nd_inputs nd) a1) as H2.
  destruct (annotate "in_" _ _) as [[a2|e2] l2]; cbn [snd] in *;
    [|by apply Forall_app].
  pose proof (annotate_no_error "out_" (nd_outputs nd) a2) as H3.
  destruct (annotate "out_" _ _) as [[a3|e3] l3]; cbn [snd] in *;
    rewrite !Forall_app; done.
Qed.

Lemma filter_no_error (log : list LogEntry) :
  Forall (fun e => is_error e = false) log ->
  filter (fun e => is_error e = true) log = [].
Proof.
  induction 1 as [|e log He _ IH]; [done|].
  rewrite filter_cons_False by congruence. done.
Qed.

Lemma load_nodedefs_errors nds :
  filter (fun e => is_error e = true) (load_nodedefs nds).2
  = (fun nd => LogError [nd_name nd])
      <$> filter (fun nd => is_ok (MxNodedef_new nd).1 = false) nds.
Proof.
  induction nds as [|nd nds IH]; [done|].
  cbn [load_nodedefs].
  pose proof (MxNodedef_new_no_error nd) as Hnd.
  destruct (MxNodedef_new nd) as [r log] eqn:Hnew.
  destruct (load_nodedefs nds) as [types log']. cbn [fst snd] in *.
  apply filter_no_error in Hnd.
  destruct r as [t|e]; cbn [snd].
  - rewrite filter_app, Hnd, IH.
    rewrite (filter_cons_False _ nd) by (by rewrite Hnew). done.
  - rewrite !filter_app, Hnd, IH.
    rewrite (filter_cons_True _ nd) by (by rewrite Hnew). done.
Qed.

Lemma load_nodedefs_count nds :
  length (load_nodedefs nds).1
  + length (filter (fun nd => is_ok (MxNodedef_new nd).1 = false) nds)
  = length nds.
Proof.
  induction nds as [|nd nds IH]; [done|].
  cbn [load_nodedefs].
  destruct (MxNodedef_new nd) as [r log] eqn:Hnew.
  destruct (load_nodedefs nds) as [types log']. cbn [fst snd] in *.
  destruct r as [t|e]; cbn [fst].
  - rewrite (filter_cons_False _ nd) by (by rewrite Hnew). cbn [length]. lia.
  - rewrite (filter_cons_True _ nd) by (by rewrite Hnew). cbn [length]. lia.
Qed.

End LoadFacts.

(** X8. [create_node_types] raises what reading a file raises, and
    nothing else.  The files are read outside the [try]: when one cannot
    be read, the exception of the first such file leaves
    [create_node_types], after the files before it have been gone
    through.  When every file can be read, the call returns.  Either
    way an exception of [MxNodedef.new] never gets out: the definition is
    left out and reported, and the errors in the log are one [log.error]
    with the definition's name for each such definition of the files
    gone through, in their order, and nothing else; so on return every
    definition is either among the nodedef types returned or reported,
    and none is both. *)
Theorem create_node_types_errors `{Host}
    (readFromXmlFile : string -> Result (list MxNodeDef))
    (file_paths : list string) :
  match (create_node_types readFromXmlFile file_paths).1 with
  | Ok (nodedef_types, node_types) =>
      exists files,
        Forall2 (fun p f => readFromXmlFile p = Ok f) file_paths files
        /\ mx_nodedef <$> nodedef_types
           = filter (fun nd => is_ok (MxNodedef_new nd).1 = true) (concat files)
        /\ filter (fun e => is_error e = true)
                  (create_node_types readFromXmlFile file_paths).2
           = (fun nd => LogError [nd_name nd])
               <$> filter (fun nd => is_ok (MxNodedef_new nd).1 = false)
                          (concat files)
        /\ length nodedef_types
           + length (filter (fun e => is_error e = true)
                            (create_node_types readFromXmlFile file_paths).2)
           = length (concat files)
  | Raise e =>
      exists before p after files,
        file_paths = before ++ p :: after
        /\ Forall2 (fun p f => readFromXmlFile p = Ok f) before files
        /\ readFromXmlFile p = Raise e
        /\ filter (fun e => is_error e = true)
                  (create_node_types readFromXmlFile file_paths).2
           = (fun nd => LogError [nd_name nd])
               <$> filter (fun nd => is_ok (MxNodedef_new nd).1 = false)
                          (concat files)
  end.
Proof.
  unfold create_node_types.
  pose proof (load_files_cases readFromXmlFile file_paths) as Hcases.
  destruct (load_files readFromXmlFile file_paths) as [[nts|e] log] eqn:Hload;
    cbn [fst snd] in *.
  - destruct Hcases as (files & Hfiles).
    rewrite (load_files_read _ _ _ Hfiles) in Hload.
    injection Hload as <- <-.
    destruct (group_nodedefs_partition (load_nodedefs (concat files)).1)
      as (groups & node_types & Hmap & _).
    rewrite Hmap. cbn [result_bind fst snd].
    exists files. split; [done|].
    split; [apply load_nodedefs_parsed|].
    rewrite load_nodedefs_errors. split; [done|].
    rewrite length_fmap. apply load_nodedefs_count.
  - destruct Hcases as (before & p & after & files & -> & Hbefore & Hp & ->).
    exists before, p, after, files. split_and!; [done|done|done|].
    apply load_nodedefs_errors.
Qed.

(** ** The order of the node types *)

Section KeyOrder.
Context {K V : Type} `{EqDecision K}.
Variable key_of : V -> K.

Lemma foldl_note_key (ks acc : list K) :
  foldl note_key acc ks
  = acc ++ filter (fun x => x ∉ acc) (first_occurrences ks).
Proof.
  revert acc. induction ks as [|k ks IH]; intros acc.
  - by rewrite app_nil_r.
  - cbn [foldl first_occurrences]. rewrite IH. unfold note_key.
    destruct (decide (k ∈ acc)) as [Hin|Hnin].
    + rewrite filter_cons_False by (intros Hk; by apply Hk).
      rewrite list_filter_filter. f_equal.
      apply list_filter_iff. intros x. split; [|tauto].
      intros Hx. split; [done|]. by intros ->.
    + rewrite filter_cons_True by done.
      rewrite <- app_assoc. cbn [app]. do 2 f_equal.
      rewrite list_filter_filter. apply list_filter_iff. intros x.
      rewrite not_elem_of_app, list_elem_of_singleton. tauto.
Qed.

Lemma dict_append_note k (x : V) (d : list (K * list V)) :
  (dict_append k x d).*1 = note_key d.*1 k.
Proof.
  rewrite dict_append_keys. unfold note_key.
  destruct (decide (k ∈ d.*1)); [by rewrite app_nil_r|done].
Qed.

Lemma foldl_dict_append_keys (xs : list V) (d : list (K * list V)) :
  (foldl (fun d x => dict_append (key_of x) x d) d xs).*1
  = foldl note_key d.*1 (key_of <$> xs).
Proof.
  revert d. induction xs as [|x xs IH]; intros d; [done|].
  cbn [foldl]. rewrite fmap_cons. cbn [foldl].
  by rewrite IH, dict_append_note.
Qed.

Lemma foldl_dict_append_first (xs : list V) :
  (foldl (fun d x => dict_append (key_of x) x d) [] xs).*1
  = first_occurrences (key_of <$> xs).
Proof.
  rewrite foldl_dict_append_keys, foldl_note_key. cbn [fmap list_fmap app].
  induction (first_occurrences (key_of <$> xs)) as [|k l IH]; [done|].
  rewrite filter_cons_True by apply not_elem_of_nil. by rewrite IH.
Qed.

End KeyOrder.

Section NodeTypeOrder.
Context `{Host}.

Lemma result_map_Forall2 {A B} (f : A -> Result B) (xs : list A) (ys : list B) :
  result_map f xs = Ok ys -> Forall2 (fun x y => f x = Ok y) xs ys.
Proof.
  revert ys. induction xs as [|x xs IH]; intros ys; cbn [result_map].
  - intros [= <-]. constructor.
  - destruct (f x) as [y|e] eqn:Hx; cbn [result_bind]; [|done].
    destruct (result_map f xs) as [ys'|e]; cbn [result_bind]; [|done].
    intros [= <-]. constructor; [done|]. by apply IH.
Qed.

Lemma Forall2_with_members {A B} (P : A -> B -> Prop) (l : list A) (k : list B) :
  Forall2 P l k -> Forall2 (fun x y => P x y /\ x ∈ l) l k.
Proof.
  intros Hall.
  assert (Forall (fun x => x ∈ l) l) as Hin by (by apply Forall_forall).
  revert Hin. generalize l at 1 3. intros l0.
  induction Hall as [|x y l k Hxy _ IH]; [constructor|].
  intros [Hx Hin]%Forall_cons. constructor; [done|]. by apply IH.
Qed.

(** What a run of [create_node_types] that returned went through. *)
Lemma create_node_types_run readFromXmlFile file_paths nodedef_types
    node_types :
  (create_node_types readFromXmlFile file_paths).1
  = Ok (nodedef_types, node_types) ->
  (load_files readFromXmlFile file_paths).1 = Ok nodedef_types
  /\ Forall2 (fun g t => MxNode_new g.2 = Ok t)
             (group_nodedefs nodedef_types) node_types.
Proof.
  unfold create_node_types.
  destruct (load_files readFromXmlFile file_paths) as [[nts|e] log];
    cbn [fst]; [|done].
  destruct (result_map _ (group_nodedefs nts)) as [types|e] eqn:Hmap;
    cbn [result_bind]; [|done].
  intros [= <- <-]. split; [done|]. by apply result_map_Forall2 in Hmap.
Qed.

Lemma MxNode_new_fields (first : MxNodedefType) rest t :
  MxNode_new (first :: rest) = Ok t ->
  mn_class_name t = "MxNode_" +:+ nd_node_string (mx_nodedef first)
  /\ bl_label t = title_str (nd_node_string (mx_nodedef first))
  /\ bl_idname t = "hdusd.MxNode_" +:+ nodedef_name first
  /\ mx_nodedefs t = mx_nodedef <$> first :: rest
  /\ var_items t
     = var_item (nd_node_string (mx_nodedef first)) <$> first :: rest
  /\ var_default t = nodedef_name first.
Proof. by intros [= <-]. Qed.

Lemma group_nodedefs_keys nodedef_types :
  (group_nodedefs nodedef_types).*1
  = first_occurrences (group_key <$> nodedef_types).
Proof. apply foldl_dict_append_first. Qed.

Lemma group_nodedefs_member nodedef_types k ms :
  (k, ms) ∈ group_nodedefs nodedef_types ->
  ms = filter (fun t => group_key t = k) nodedef_types /\ ms ≠ [].
Proof.
  destruct (group_nodedefs_files nodedef_types) as (_ & Hgroups & _).
  apply Hgroups.
Qed.

End NodeTypeOrder.

(** X9. When [create_node_types] returns, the node types come in the
    order in which their keys [(node string, nodegroup)] first occur
    among the nodedef types, one for each key.  The type for a key takes
    its identity from the first nodedef of the key: the class is named
    [MxNode_] and the node string, the label is [title_str] of the node
    string, [bl_idname] ends in the name of that first nodedef; and its
    [mx_nodedefs] are the nodedefs of the key in the order they were
    read. *)
Theorem create_node_types_order `{Host}
    (readFromXmlFile : string -> Result (list MxNodeDef))
    (file_paths : list string)
    (nodedef_types : list MxNodedefType) (node_types : list MxNodeType) :
  (create_node_types readFromXmlFile file_paths).1
  = Ok (nodedef_types, node_types) ->
  Forall2 (fun k t =>
             exists first rest,
               filter (fun nt => group_key nt = k) nodedef_types = first :: rest
               /\ mn_class_name t = "MxNode_" +:+ k.1
               /\ bl_label t = title_str k.1
               /\ bl_idname t = "hdusd.MxNode_" +:+ nodedef_name first
               /\ mx_nodedefs t = mx_nodedef <$> first :: rest)
          (first_occurrences (group_key <$> nodedef_types)) node_types.
Proof.
  intros Hrun. apply create_node_types_run in Hrun as [_ Hnew].
  rewrite <- group_nodedefs_keys. apply Forall2_fmap_l.
  eapply Forall2_impl;
    [apply (Forall2_with_members _ _ _ Hnew)|]. cbn beta.
  intros [k ms] t [Ht Hg]. cbn beta iota delta [fst snd] in *.
  destruct (group_nodedefs_member _ _ _ Hg) as [Hms Hnil].
  unfold compose. cbn beta iota delta [fst snd].
  rewrite <- Hms.
  destruct ms as [|first rest]; [done|].
  assert (group_key first = k) as Hkey.
  { assert (first ∈ filter (fun t => group_key t = k) nodedef_types) as Hf
      by (rewrite <- Hms; apply list_elem_of_here).
    by apply list_elem_of_filter in Hf as [Hf _]. }
  exists first, rest.
  destruct (MxNode_new_fields _ _ _ Ht) as (Hclass & Hlabel & Hid & Hdefs & _).
  rewrite <- Hkey. by split_and!.
Qed.

(** X10. When [create_node_types] returns, every nodedef type it
    returns is a variant of one of the node types: its nodedef is among
    the type's [mx_nodedefs], and the type's variant list holds the
    nodedef's name with, as label and description, [title_str] of what
    follows the first [4 + len(node string)] characters of the name.  For
    a name made the usual way, [ND_], the node string, [_] and a suffix,
    that is [title_str] of the suffix. *)
Theorem create_node_types_variant_labels `{Host}
    (readFromXmlFile : string -> Result (list MxNodeDef))
    (file_paths : list string)
    (nodedef_types : list MxNodedefType) (node_types : list MxNodeType)
    (nt : MxNodedefType) :
  (create_node_types readFromXmlFile file_paths).1
  = Ok (nodedef_types, node_types) ->
  nt ∈ nodedef_types ->
  exists t label,
    t ∈ node_types
    /\ mx_nodedef nt ∈ mx_nodedefs t
    /\ label = title_str
                 (PyStr.drop (4 + String.length (nd_node_string (mx_nodedef nt)))
                             (nodedef_name nt))
    /\ (nodedef_name nt, label, label) ∈ var_items t
    /\ (forall suffix,
          nodedef_name nt
          = "ND_" +:+ nd_node_string (mx_nodedef nt) +:+ "_" +:+ suffix ->
          label = title_str suffix).
Proof.
  intros Hrun Hnt. apply create_node_types_run in Hrun as [_ Hnew].
  destruct (group_nodedefs_files nodedef_types) as (_ & Hgroups & Hcover).
  specialize (Hcover nt Hnt).
  apply list_elem_of_fmap in Hcover as ([k ms] & Hk & Hg). cbn [fst] in Hk.
  destruct (Hgroups k ms Hg) as [Hms Hnil].
  apply list_elem_of_lookup in Hg as [i Hi].
  destruct (Forall2_lookup_l _ _ _ _ _ Hnew Hi) as (t & Ht & Hmake).
  cbn [snd] in Hmake.
  assert (nt ∈ ms) as Hmem
    by (rewrite Hms; apply list_elem_of_filter; by split).
  destruct ms as [|first rest]; [done|].
  assert (nd_node_string (mx_nodedef first) = nd_node_string (mx_nodedef nt))
    as Hnode.
  { assert (first ∈ filter (fun t => group_key t = k) nodedef_types) as Hf
      by (rewrite <- Hms; apply list_elem_of_here).
    apply list_elem_of_filter in Hf as [Hf _].
    unfold group_key in *. congruence. }
  destruct (MxNode_new_fields _ _ _ Hmake) as (_ & _ & _ & Hdefs & Hitems & _).
  eexists t, _. split; [by eapply list_elem_of_lookup_2|].
  rewrite Hdefs, Hitems. split_and!.
  - by apply (list_elem_of_fmap_2 mx_nodedef).
  - reflexivity.
  - rewrite <- Hnode.
    apply (list_elem_of_fmap_2 (var_item _) _ _ Hmem).
  - intros suffix Hname. f_equal. rewrite Hname.
    change ("ND_" +:+ ?x) with (String "N" (String "D" (String "_" x))).
    cbn [Nat.add PyStr.drop].
    generalize (nd_node_string (mx_nodedef nt)). intros node.
    induction node as [|c node IH]; [done|]. exact IH.
Qed.

(** ** The node [MxNode.compute] emits *)

Section Emission.
Context `{MaterialX}.
Variable graph : Graph.
Variable dispatch : NodeId -> Key -> M (option NodeRef).

Lemma yields_and {A} (m : M A) d (Q1 Q2 : Result A -> Document -> Prop) :
  yields m d Q1 -> yields m d Q2 -> yields m d (fun r d' => Q1 r d' /\ Q2 r d').
Proof. intros H1 H2 r d' l Hrun. split; eauto. Qed.

Lemma get_nodedef_output_run self prop out_key (d : Document) :
  get_nodedef_output self prop out_key d
  = (result_bind (coll_get (outputs self) out_key)
       (fun s => Ok (getOutput (prop_nodedef prop) (code_str (sock_name s)))),
     d, []).
Proof.
  unfold get_nodedef_output, bind, lift.
  by destruct (coll_get (outputs self) out_key).
Qed.

Lemma get_nodedef_input_run self prop in_key (d : Document) :
  get_nodedef_input self prop in_key d
  = (result_bind (coll_get (inputs self) in_key)
       (fun s => Ok (getInput (prop_nodedef prop)
                       (PyStr.drop 3 (node_prop_name s)))),
     d, []).
Proof.
  unfold get_nodedef_input, bind, lift.
  by destruct (coll_get (inputs self) in_key).
Qed.

Lemma get_input_value_kind self prop i d :
  yields (get_input_value graph dispatch self prop (KInt i)) d
         (fun r _ => forall val, r = Ok val ->
            exists s, inputs self !! i = Some s /\ socket_value prop s val).
Proof.
  intros r d' l. unfold get_input_value, get_input_link, get_input_default.
  unfold bind at 1 2. unfold lift at 1. cbn [coll_get].
  destruct (inputs self !! i) as [s|] eqn:Hs; cbn [of_option];
    [|by intros [= <- _ _]].
  destruct (links s) as [|link rest] eqn:Hlinks.
  - unfold ret at 1. cbn beta iota.
    unfold bind, lift, prop_getattr.
    destruct (prop_values prop !! node_prop_name s) as [v|] eqn:Hv;
      cbn [of_option ret]; intros [= <- _ _]; [|done].
    intros val [= <-]. by exists s.
  - destruct (bind _ _ d) as [[[[n|]|e] d1] l1]; cbn beta iota.
    + intros [= <- _ _] val [= <-]. exists s. split; [done|].
      cbn [socket_value]. by rewrite Hlinks.
    + unfold bind, lift, prop_getattr.
      destruct (prop_values prop !! node_prop_name s) as [v|] eqn:Hv;
        cbn [of_option ret]; intros [= <- _ _]; [|done].
      intros val [= <-]. by exists s.
    + by intros [= <- _ _].
Qed.

Lemma input_values_kinds self prop in_key count d :
  yields (input_values graph dispatch self prop in_key count) d
         (fun r _ => forall vs, r = Ok vs ->
            Forall2 (socket_value prop)
                    (take count (drop in_key (inputs self))) vs).
Proof.
  revert in_key d. induction count as [|count IH]; intros in_key d.
  - apply yields_ret. intros vs [= <-]. constructor.
  - cbn [input_values].
    eapply yields_bind; [apply get_input_value_kind| |done].
    cbn beta. intros v d1 Hv.
    destruct (Hv v eq_refl) as (s & Hs & Hkind).
    eapply yields_bind; [apply IH| |done].
    cbn beta. intros vs d2 Hvs. apply yields_ret. intros ? [= <-].
    rewrite (drop_S _ _ _ Hs). cbn [take]. constructor; [done|].
    by apply Hvs.
Qed.

Lemma with_ports_nil k (x : DocNode) : with_ports k (fun qs => qs ++ []) x = x.
Proof. destruct k, x; cbn [with_ports]; by rewrite app_nil_r. Qed.

Lemma with_ports_app k ps1 ps2 (x : DocNode) :
  with_ports k (fun qs => qs ++ ps2) (with_ports k (fun qs => qs ++ ps1) x)
  = with_ports k (fun qs => qs ++ (ps1 ++ ps2)) x.
Proof.
  destruct k; cbn [with_ports dn_inputs dn_parameters dn_category dn_name dn_type];
    by rewrite app_assoc.
Qed.

(** [port = node.addInput(name, type); set_value(port, val, type)] on
    the last node of the document: the node gains one port; the port is
    set when [set_value] returns, and is left unset when it raises. *)
Lemma add_port_set_value_bound k d x name type val :
  (forall n, val = INode n -> n < length d) ->
  yields (let! port := addPort k (length d) name type in
          set_value port val type)
         (d ++ [x])
         (fun r d' =>
            exists b,
              d' = d ++ [with_ports k (fun ps => ps ++ [bound_port name type b]) x]
              /\ (r = Ok tt -> exists b', b = Some b' /\ bound_to d val type b')).
Proof.
  intros Hval r d' l. unfold bind. rewrite addPort_last.
  destruct val as [n|v]; cbn [set_value bound_to].
  - unfold bind, getName.
    rewrite (set_binding_last k d x name type).
    intros [= <- <- _]. eexists. split; [done|]. intros _.
    eexists. split; [done|].
    specialize (Hval n eq_refl).
    destruct (lookup_lt_is_Some_2 d n Hval) as [y Hy].
    rewrite (lookup_app_l_Some _ _ _ _ Hy).
    cbn [fmap option_fmap option_map default]. by exists y.
  - unfold stored_as. destruct (String.eqb type "filename").
    { rewrite (set_binding_last k d x name type).
      intros [= <- <- _]. eexists. split; [done|]. intros _. by eexists. }
    destruct (mx_getattr (title_str type)) as [mx_type|].
    + unfold bind, lift. destruct (mx_type v) as [y|e].
      * rewrite (set_binding_last k d x name type).
        intros [= <- <- _]. eexists. split; [done|]. intros _.
        eexists. split; [done|]. by exists y.
      * intros [= <- <- _]. eexists. split; [done|]. by intros [=].
    + rewrite (set_binding_last k d x name type).
      intros [= <- <- _]. eexists. split; [done|]. intros _. by eexists.
Qed.

Lemma add_inputs_ports self prop d in_key values x :
  (forall n, INode n ∈ values -> n < length d) ->
  yields (add_inputs self prop (length d) in_key values) (d ++ [x])
         (fun r d' =>
            exists ps,
              d' = d ++ [with_ports IsInput (fun qs => qs ++ ps) x]
              /\ (r = Ok tt ->
                  Forall2 (port_of prop d)
                          (zip (drop in_key (inputs self)) values) ps)).
Proof.
  revert in_key x. induction values as [|val values IH]; intros in_key x Hvals.
  - apply yields_ret. exists []. rewrite with_ports_nil. split; [done|].
    intros _. rewrite zip_with_nil_r. constructor.
  - cbn [add_inputs].
    assert (forall e : Exn,
              exists ps, d ++ [x] = d ++ [with_ports IsInput (fun qs => qs ++ ps) x]
                         /\ (Raise e = Ok tt ->
                             Forall2 (port_of prop d)
                               (zip (drop in_key (inputs self)) (val :: values)) ps))
      as Hraise.
    { intros e. exists []. by rewrite with_ports_nil. }
    eapply (yields_bind _ _ _
              (fun r d' =>
                 d' = d ++ [x]
                 /\ r = result_bind (coll_get (inputs self) (KInt in_key))
                          (fun s => Ok (getInput (prop_nodedef prop)
                                          (PyStr.drop 3 (node_prop_name s)))))).
    { intros r d' l. rewrite get_nodedef_input_run. by intros [= <- <- _]. }
    2:{ intros e ? [-> _]. apply Hraise. }
    intros o ? [-> Ho].
    cbn [coll_get] in Ho.
    destruct (inputs self !! in_key) as [s|] eqn:Hs; cbn [of_option result_bind] in Ho;
      [|done].
    injection Ho as ->.
    eapply (yields_bind _ _ _
              (fun r d' =>
                 d' = d ++ [x]
                 /\ r = of_option AttributeError
                          (getInput (prop_nodedef prop)
                             (PyStr.drop 3 (node_prop_name s))))).
    { by intros r d' l [= <- <- _]. }
    2:{ intros e ? [-> _]. apply Hraise. }
    intros nd_input ? [-> Hnd].
    destruct (getInput _ _) as [nd|] eqn:Hget; cbn [of_option] in Hnd; [|done].
    injection Hnd as ->.
    eapply yields_ext; [apply bind_assoc|].
    eapply yields_bind.
    + apply (add_port_set_value_bound IsInput d x). intros n ->.
      apply Hvals, list_elem_of_here.
    + cbn beta. intros [] d1 (b & -> & Hb).
      destruct (Hb eq_refl) as (b' & -> & Hbound).
      eapply yields_weaken.
      * apply IH. intros n Hn. by apply Hvals, list_elem_of_further.
      * cbn beta. intros r d2 (ps & -> & Hps).
        exists (bound_port (mp_name nd) (mp_type nd) (Some b') :: ps).
        split; [by rewrite with_ports_app|].
        intros Hr. rewrite (drop_S _ _ _ Hs). cbn [zip_with].
        constructor; [|by apply Hps].
        exists nd, b'. by split_and!.
    + cbn beta. intros e d1 (b & -> & _). eexists [_]. by split.
Qed.

Lemma add_parameters_ports prop d params x :
  yields (add_parameters prop (length d) params) (d ++ [x])
         (fun r d' =>
            exists ps,
              d' = d ++ [with_ports IsParameter (fun qs => qs ++ ps) x]
              /\ (r = Ok tt -> Forall2 (parameter_port prop) params ps)).
Proof.
  revert x. induction params as [|p params IH]; intros x.
  - apply yields_ret. exists []. rewrite with_ports_nil. split; [done|].
    intros _. constructor.
  - cbn [add_parameters].
    eapply (yields_bind _ _ _
              (fun r d' =>
                 d' = d ++ [x]
                 /\ r = of_option AttributeError
                          (prop_values prop !! ("p_" +:+ mp_name p)))).
    { by intros r d' l [= <- <- _]. }
    2:{ intros e ? [-> _]. exists []. by rewrite with_ports_nil. }
    intros v ? [-> Hv].
    destruct (prop_values prop !! _) as [v'|] eqn:Hget; cbn [of_option] in Hv;
      [|done].
    injection Hv as ->.
    eapply yields_ext; [apply bind_assoc|].
    eapply yields_bind.
    + by apply (add_port_set_value_bound IsParameter d x).
    + cbn beta. intros [] d1 (b & -> & Hb).
      destruct (Hb eq_refl) as (b' & -> & Hbound).
      eapply yields_weaken; [apply IH|].
      cbn beta. intros r d2 (ps & -> & Hps).
      exists (bound_port (mp_name p) (mp_type p) (Some b') :: ps).
      split; [by rewrite with_ports_app|].
      intros Hr. constructor; [|by apply Hps].
      exists v', b'. by split_and!.
    + cbn beta. intros e d1 (b & -> & _). eexists [_]. by split.
Qed.

(** The ports made for sockets and the values read for them are the
    input ports of a node that comes last in the document. *)
Lemma port_of_input_port prop (d : Document) x ss vs ps :
  Forall2 (socket_value prop) ss vs ->
  (forall n, INode n ∈ vs -> n < length d) ->
  Forall2 (port_of prop d) (zip ss vs) ps ->
  Forall2 (input_port prop (d ++ [x]) (length d)) ss ps.
Proof.
  intros Hkinds. revert ps.
  induction Hkinds as [|s val ss vs Hkind _ IH]; intros ps Hin Hports.
  - rewrite zip_with_nil_r in Hports. inversion Hports. constructor.
  - cbn [zip_with] in Hports.
    inversion Hports as [|? port ? ps' Hport Hrest]; subst.
    constructor.
    + destruct Hport as (nd & b & Hget & -> & Hbound). cbn [fst snd] in *.
      exists nd, b. split_and!; [done|done|].
      destruct val as [n|v]; cbn [socket_value bound_to] in *.
      * left. split; [done|]. destruct Hbound as (up & Hup & ->).
        exists n, up. split_and!; [|by apply lookup_app_l_Some|done].
        apply Hin, list_elem_of_here.
      * right. by exists v.
    + apply IH; [|done]. intros n Hn. by apply Hin, list_elem_of_further.
Qed.

End Emission.

(** X11. What [MxNode.compute] leaves in the document when it returns a
    node.  The node is the last of the document and is new; its category
    is the node string of the nodedef, its name [code_str] of the name
    of the editor's node, and its type the type of the nodedef output
    that [code_str] of the output socket's name selects.  It has one
    input port for each input socket, in the order of the sockets, named
    and typed as the nodedef input the socket stands for; the port of a
    socket with no link holds the value the node has for the socket, and
    a port that refers to a node does so by the name of a node that
    comes earlier in the document.  It has one parameter port for each
    parameter of the nodedef, in their order, holding the value the node
    has under [p_] and the name: a parameter never refers to a node.
    No port is left unset. *)
Theorem compute_emits `{MaterialX} (fuel : nat) (graph : Graph) (node : NodeId)
    (self : BNode) (prop : NodeProp) (out_key : Key) (d : Document)
    (n : NodeRef) (d' : Document) (log : list LogEntry) :
  graph node = GMxNode self prop ->
  compute fuel graph node out_key d = (Ok (Some n), d', log) ->
  exists s nd_output x,
    coll_get (outputs self) out_key = Ok s
    /\ getOutput (prop_nodedef prop) (code_str (sock_name s)) = Some nd_output
    /\ d' !! n = Some x /\ S n = length d' /\ length d <= n
    /\ dn_category x = nd_node_string (prop_nodedef prop)
    /\ dn_name x = code_str (bn_name self)
    /\ dn_type x = mp_type nd_output
    /\ Forall2 (input_port prop d' n) (inputs self) (dn_inputs x)
    /\ Forall2 (parameter_port prop) (nd_parameters (prop_nodedef prop))
               (dn_parameters x).
Proof.
  intros Hnode Hrun. destruct fuel as [|fuel]; [done|].
  cbn [compute] in Hrun. rewrite Hnode in Hrun.
  revert n d' log Hrun.
  cut (yields (MxNode_compute graph (compute fuel graph) self prop out_key) d
         (fun r d' => forall n, r = Ok (Some n) ->
            exists s nd_output x,
              coll_get (outputs self) out_key = Ok s
              /\ getOutput (prop_nodedef prop) (code_str (sock_name s))
                 = Some nd_output
              /\ d' !! n = Some x /\ S n = length d' /\ length d <= n
              /\ dn_category x = nd_node_string (prop_nodedef prop)
              /\ dn_name x = code_str (bn_name self)
              /\ dn_type x = mp_type nd_output
              /\ Forall2 (input_port prop d' n) (inputs self) (dn_inputs x)
              /\ Forall2 (parameter_port prop)
                         (nd_parameters (prop_nodedef prop)) (dn_parameters x))).
  { intros Hy n d' log Hrun. exact (Hy _ _ _ Hrun n eq_refl). }
  unfold MxNode_compute.
  eapply yields_bind; [apply (yields_emit _ _ (fun _ d' => d' = d)); done| |done].
  intros _ ? ->.
  eapply (yields_bind _ _ _
            (fun r d' =>
               d' = d
               /\ r = result_bind (coll_get (outputs self) out_key)
                        (fun s => Ok (getOutput (prop_nodedef prop)
                                        (code_str (sock_name s)))))).
  { intros r d' l. rewrite get_nodedef_output_run. by intros [= <- <- _]. }
  2:{ done. }
  intros nd_output ? [-> Hout].
  destruct (coll_get (outputs self) out_key) as [s|e] eqn:Hs;
    cbn [result_bind] in Hout; [|done].
  injection Hout as ->.
  eapply yields_bind;
    [apply yields_and;
       [apply input_values_in; intros; apply compute_compiled
       |apply input_values_kinds]
    | |done].
  cbn beta. intros values d1 [[Hg1 Hin] Hkinds].
  specialize (Hkinds values eq_refl). rewrite drop_0, firstn_all in Hkinds.
  specialize (Hin values eq_refl).
  eapply (yields_bind _ _ _
            (fun r d' =>
               d' = d1
               /\ r = of_option AttributeError
                        (mp_type <$> getOutput (prop_nodedef prop)
                                       (code_str (sock_name s))))).
  { by intros r d' l [= <- <- _]. }
  2:{ done. }
  intros out_type ? [-> Htype].
  destruct (getOutput _ _) as [o|] eqn:Hget;
    cbn [fmap option_fmap option_map of_option] in Htype; [|done].
  injection Htype as ->.
  set (x0 := {| dn_category := nd_node_string (prop_nodedef prop);
                dn_name := code_str (bn_name self); dn_type := mp_type o;
                dn_inputs := []; dn_parameters := [] |}).
  eapply (yields_bind _ _ _ (fun r d' => r = Ok (length d1) /\ d' = d1 ++ [x0])).
  { intros r d' l [= <- <- _]. done. }
  2:{ done. }
  intros ? ? [[= ->] ->].
  eapply yields_bind; [by apply add_inputs_ports| |done].
  cbn beta. intros [] ? (ps1 & -> & Hps1). specialize (Hps1 eq_refl).
  rewrite drop_0 in Hps1.
  eapply yields_bind; [apply add_parameters_ports| |done].
  cbn beta. intros [] ? (ps2 & -> & Hps2). specialize (Hps2 eq_refl).
  apply yields_ret. intros ? [= <-].
  exists s, o,
    (with_ports IsParameter (fun qs => qs ++ ps2)
       (with_ports IsInput (fun qs => qs ++ ps1) x0)).
  split; [done|]. split; [done|].
  split; [by apply list_lookup_middle|].
  split; [rewrite length_app; cbn [length]; lia|].
  split; [by apply grows_length|].
  do 3 (split; [done|]).
  split; [|done].
  cbn [with_ports dn_inputs x0 app]. by eapply port_of_input_port.
Qed.


(** ** Sockets made by [init], as the compiler reads them *)

Lemma find_by_key {A} (key : A -> string) (l : list A) (i : nat) (x : A) :
  NoDup (key <$> l) -> l !! i = Some x ->
  find (fun y => String.eqb (key y) (key x)) l = Some x.
Proof.
  revert i. induction l as [|a l IH]; intros i Hnd Hi; [done|].
  rewrite fmap_cons in Hnd. apply NoDup_cons in Hnd as [Ha Hnd].
  destruct i as [|i]; cbn [find].
  - injection Hi as ->. by rewrite String.eqb_refl.
  - cbn in Hi. destruct (String.eqb_spec (key a) (key x)) as [Heq|_].
    + exfalso. apply Ha. rewrite Heq. apply list_elem_of_fmap.
      exists x. split; [done|]. by eapply list_elem_of_lookup_2.
    + by eapply IH.
Qed.

(** X12. The input sockets [MxNode.init] makes are read back by the
    compiler as the nodedef inputs they were made from.  A node
    initialised from a nodedef whose inputs have distinct names has one
    input socket for each input; for the socket at the position of the
    input [p], [get_nodedef_input] answers [p] itself, and
    [get_input_default] and [get_input_value] read the property
    [in_] and the name of [p], the one [MxNodedef.new] annotates for
    [p]: nothing is linked yet, so nothing is compiled or logged, and
    [AttributeError] is raised when the node holds no such property. *)
Theorem init_inputs_resolve `{MaterialX} (graph : Graph)
    (dispatch : NodeId -> Key -> M (option NodeRef)) (name : string)
    (prop : NodeProp) (i : nat) (p : MxParam) (d : Document) :
  nd_inputs (prop_nodedef prop) !! i = Some p ->
  NoDup (mp_name <$> nd_inputs (prop_nodedef prop)) ->
  let self := MxNode_init (bare_node name) prop in
  length (inputs self) = length (nd_inputs (prop_nodedef prop))
  /\ get_nodedef_input self prop (KInt i) d = (Ok (Some p), d, [])
  /\ get_input_default self prop (KInt i) d
     = (of_option AttributeError (prop_values prop !! ("in_" +:+ mp_name p)),
        d, [])
  /\ get_input_value graph dispatch self prop (KInt i) d
     = (match prop_values prop !! ("in_" +:+ mp_name p) with
        | Some v => Ok (ILit v)
        | None => Raise AttributeError
        end, d, []).
Proof.
  intros Hp Hnd self.
  assert (inputs self !! i = Some (create_input p)) as Hs.
  { subst self. cbn [MxNode_init inputs bare_node app].
    by rewrite list_lookup_fmap, Hp. }
  assert (getInput (prop_nodedef prop)
            (PyStr.drop 3 (node_prop_name (create_input p))) = Some p) as Hget.
  { unfold getInput, find_by_name. cbn [create_input node_prop_name].
    change (PyStr.drop 3 ("in_" +:+ mp_name p)) with (mp_name p).
    by apply (find_by_key mp_name _ i). }
  split_and!.
  - subst self. cbn [MxNode_init inputs bare_node app]. by rewrite length_fmap.
  - unfold get_nodedef_input, bind, lift, ret. cbn [coll_get].
    rewrite Hs. cbn [of_option]. by rewrite Hget.
  - unfold get_input_default, bind, lift, prop_getattr. cbn [coll_get].
    rewrite Hs. cbn [of_option create_input node_prop_name].
    by destruct (prop_values prop !! _).
  - unfold get_input_value, get_input_link, get_input_default,
      bind, lift, ret, prop_getattr.
    cbn [coll_get]. rewrite Hs.
    cbn [of_option create_input node_prop_name links].
    by destruct (prop_values prop !! _).
Qed.

(** X13. The output sockets [MxNode.init] makes are read back as the
    nodedef outputs they were made from when [code_str] takes the name
    shown on a socket back to the name of the output.  For a nodedef
    whose outputs have distinct names and an output [o] with [code_str]
    of its socket's name equal to its name,
    [get_nodedef_output] answers [o] for the position of [o]; it answers
    [o] for the name of the socket too, the key a link carries, when no
    two outputs are shown under the same name. *)
Theorem init_outputs_resolve `{MaterialX} (name : string) (prop : NodeProp)
    (j : nat) (o : MxParam) (d : Document) :
  nd_outputs (prop_nodedef prop) !! j = Some o ->
  NoDup (mp_name <$> nd_outputs (prop_nodedef prop)) ->
  code_str (socket_label o) = mp_name o ->
  let self := MxNode_init (bare_node name) prop in
  length (outputs self) = length (nd_outputs (prop_nodedef prop))
  /\ get_nodedef_output self prop (KInt j) d = (Ok (Some o), d, [])
  /\ (NoDup (socket_label <$> nd_outputs (prop_nodedef prop)) ->
      get_nodedef_output self prop (KStr (socket_label o)) d
      = (Ok (Some o), d, [])).
Proof.
  intros Ho Hnd Hcode self.
  assert (outputs self = create_output <$> nd_outputs (prop_nodedef prop))
    as Houts by done.
  assert (getOutput (prop_nodedef prop) (code_str (sock_name (create_output o)))
          = Some o) as Hget.
  { unfold getOutput, find_by_name. cbn [create_output sock_name].
    rewrite Hcode. by apply (find_by_key mp_name _ j). }
  split_and!.
  - by rewrite Houts, length_fmap.
  - unfold get_nodedef_output, bind, lift, ret. cbn [coll_get].
    rewrite Houts, list_lookup_fmap, Ho. cbn [fmap option_fmap option_map of_option].
    by rewrite Hget.
  - intros Hlabels.
    unfold get_nodedef_output, bind, lift, ret. cbn [coll_get].
    rewrite Houts.
    change (socket_label o) with (sock_name (create_output o)) at 1.
    rewrite (find_by_key sock_name _ j (create_output o)).
    + cbn [of_option]. by rewrite Hget.
    + by rewrite <- list_fmap_compose.
    + by rewrite list_lookup_fmap, Ho.
Qed.

(** ** Outputs that cannot be resolved *)

(** X14. How [MxNode.compute] fails on an output it cannot resolve.
    When the key names no output socket, the lookup raises
    ([IndexError] for a position, [KeyError] for a name) before anything
    is compiled: the document is unchanged and only the [compute] line
    is logged.  When the socket is there but [code_str] of its name is
    no output of the nodedef, the inputs are compiled first, and what
    that adds stays in the document; only then is [AttributeError]
    raised (or what an input raised before), and no node is made for the
    node itself. *)
Theorem MxNode_compute_output_errors `{MaterialX} (graph : Graph)
    (dispatch : NodeId -> Key -> M (option NodeRef)) (self : BNode)
    (prop : NodeProp) (out_key : Key) (d : Document) :
  match coll_get (outputs self) out_key with
  | Raise e =>
      MxNode_compute graph dispatch self prop out_key d
      = (Raise e, d, [LogInfo ["compute"; bn_name self; key_repr out_key]])
  | Ok s =>
      getOutput (prop_nodedef prop) (code_str (sock_name s)) = None ->
      exists r d1 l,
        input_values graph dispatch self prop 0 (length (inputs self)) d
        = (r, d1, l)
        /\ MxNode_compute graph dispatch self prop out_key d
           = (match r with
              | Ok _ => Raise AttributeError
              | Raise e => Raise e
              end, d1,
              LogInfo ["compute"; bn_name self; key_repr out_key] :: l)
  end.
Proof.
  unfold MxNode_compute.
  rewrite (bind_ok _ _ d tt d [LogInfo ["compute"; bn_name self; key_repr out_key]])
    by done.
  destruct (coll_get (outputs self) out_key) as [s|e] eqn:Hs.
  - intros Hnone.
    rewrite (bind_ok _ _ d None d []);
      [|by rewrite get_nodedef_output_run, Hs; cbn; rewrite Hnone].
    destruct (input_values graph dispatch self prop 0 (length (inputs self)) d)
      as [[[values|e] d1] l] eqn:Hvalues;
      eexists _, _, _; (split; [reflexivity|]).
    + rewrite (bind_ok _ _ d values d1 l Hvalues).
      cbn [fmap option_fmap option_map]. unfold deref, lift, bind.
      cbn [of_option app]. by rewrite app_nil_r.
    + by rewrite (bind_raise _ _ d e d1 l Hvalues).
  - by rewrite (bind_raise _ _ d e d []) by (by rewrite get_nodedef_output_run, Hs).
Qed.

(** ** Links that lead back *)

Section Cycles.
Context `{MaterialX}.
Variable graph : Graph.
Variable dispatch : NodeId -> Key -> M (option NodeRef).

Lemma coll_get_elem c k s : coll_get c k = Ok s -> s ∈ c.
Proof.
  destruct k as [i|name]; cbn [coll_get].
  - destruct (c !! i) as [x|] eqn:Hi; cbn [of_option]; [|done].
    intros [= <-]. by eapply list_elem_of_lookup_2.
  - destruct (find _ c) as [x|] eqn:Hfind; cbn [of_option]; [|done].
    intros [= <-]. apply find_some in Hfind as [Hin _].
    by apply list_elem_of_In.
Qed.

(** When what is linked to the input at position [i] cannot be
    compiled, neither can the node. *)
Lemma get_input_value_raises self prop i s link rest d :
  inputs self !! i = Some s -> links s = link :: rest ->
  (forall out_key d1,
     is_ok (_compute_node graph dispatch (from_node link) out_key d1).1.1 = false) ->
  yields (get_input_value graph dispatch self prop (KInt i)) d
         (fun r _ => is_ok r = false).
Proof.
  intros Hs Hlinks Hup. unfold get_input_value.
  eapply (yields_bind _ _ _ (fun r _ => is_ok r = false)); [|done|done].
  unfold get_input_link.
  eapply (yields_bind _ _ _ (fun r _ => r = Ok s)).
  { intros r d' l. unfold lift. cbn [coll_get]. rewrite Hs. by intros [= <- _ _]. }
  2:{ done. }
  intros ? d1 [= ->]. rewrite Hlinks.
  apply yields_bind_any; [|done].
  intros _ d2 r d' l Hrun. specialize (Hup (KStr (from_socket_name link)) d2).
  by rewrite Hrun in Hup.
Qed.

Lemma input_values_raises self prop i in_key count d :
  in_key <= i < in_key + count ->
  (forall d1, yields (get_input_value graph dispatch self prop (KInt i)) d1
                     (fun r _ => is_ok r = false)) ->
  yields (input_values graph dispatch self prop in_key count) d
         (fun r _ => is_ok r = false).
Proof.
  intros Hi Hraise. revert in_key d Hi.
  induction count as [|count IH]; intros in_key d Hi; [lia|].
  cbn [input_values].
  destruct (decide (in_key = i)) as [->|Hne].
  - eapply yields_bind; [apply Hraise|done|done].
  - apply yields_bind_any; [|done]. intros v d1.
    eapply yields_bind; [apply IH; lia|done|done].
Qed.

Lemma MxNode_compute_raises self prop i out_key d :
  i < length (inputs self) ->
  (forall d1, yields (get_input_value graph dispatch self prop (KInt i)) d1
                     (fun r _ => is_ok r = false)) ->
  yields (MxNode_compute graph dispatch self prop out_key) d
         (fun r _ => is_ok r = false).
Proof.
  intros Hi Hraise. unfold MxNode_compute.
  apply yields_bind_any; [|done]. intros _ d1.
  apply yields_bind_any; [|done]. intros nd_output d2.
  eapply yields_bind; [apply (input_values_raises self prop i); [lia|done]| |done].
  done.
Qed.

(** *** What a call depends on *)

Variable dispatch' : NodeId -> Key -> M (option NodeRef).

Lemma get_input_link_ext self in_key d :
  (forall s link rest,
     s ∈ inputs self -> links s = link :: rest ->
     forall out_key d1,
       dispatch (from_node link) out_key d1 = dispatch' (from_node link) out_key d1) ->
  get_input_link graph dispatch self in_key d
  = get_input_link graph dispatch' self in_key d.
Proof.
  intros Hext. unfold get_input_link.
  destruct (coll_get (inputs self) in_key) as [s|e] eqn:Hs.
  - rewrite !(bind_ok _ _ d s d []) by done.
    destruct (links s) as [|link rest] eqn:Hlinks; [done|].
    cut (forall m : M unit,
           bind m (fun _ => _compute_node graph dispatch (from_node link)
                              (KStr (from_socket_name link))) d
           = bind m (fun _ => _compute_node graph dispatch' (from_node link)
                                (KStr (from_socket_name link))) d).
    { intros Hcut. by rewrite Hcut. }
    intros m. apply bind_ext; [done|]. intros _ d2. unfold _compute_node.
    destruct (graph (from_node link)); try done;
      apply (Hext s link rest); try done; by eapply coll_get_elem.
  - by rewrite !(bind_raise _ _ d e d []) by done.
Qed.

Lemma input_values_ext self prop in_key count d :
  (forall s link rest,
     s ∈ inputs self -> links s = link :: rest ->
     forall out_key d1,
       dispatch (from_node link) out_key d1 = dispatch' (from_node link) out_key d1) ->
  input_values graph dispatch self prop in_key count d
  = input_values graph dispatch' self prop in_key count d.
Proof.
  intros Hext. revert in_key d.
  induction count as [|count IH]; intros in_key d; [done|].
  cbn [input_values]. apply bind_ext.
  - unfold get_input_value. apply bind_ext; [|done].
    by apply get_input_link_ext.
  - intros v d1. apply bind_ext; [apply IH|done].
Qed.

Lemma MxNode_compute_ext self prop out_key d :
  (forall s link rest,
     s ∈ inputs self -> links s = link :: rest ->
     forall out_key d1,
       dispatch (from_node link) out_key d1 = dispatch' (from_node link) out_key d1) ->
  MxNode_compute graph dispatch self prop out_key d
  = MxNode_compute graph dispatch' self prop out_key d.
Proof.
  intros Hext. unfold MxNode_compute.
  apply bind_ext; [done|]. intros _ d1.
  apply bind_ext; [done|]. intros nd_output d2.
  apply bind_ext; [by apply input_values_ext|done].
Qed.

Lemma MxNode_Output_compute_ext self out_key d :
  (forall s link rest,
     s ∈ inputs self -> links s = link :: rest ->
     forall out_key d1,
       dispatch (from_node link) out_key d1 = dispatch' (from_node link) out_key d1) ->
  MxNode_Output_compute graph dispatch self out_key d
  = MxNode_Output_compute graph dispatch' self out_key d.
Proof.
  intros Hext. unfold MxNode_Output_compute.
  apply bind_ext; [done|]. intros _ d1.
  apply bind_ext; [by apply get_input_link_ext|done].
Qed.

End Cycles.

(** X15. There is no defence against links that lead back.  Take any
    set of schema nodes each of which has an input whose first link
    comes from a node of the set: a node linked to itself, two nodes
    linked to each other, any cycle and whatever feeds on one.
    Compiling a node of the set returns nothing, whatever the depth
    allowed to the recursion: every call ends in an exception, the
    recursion being cut only by the depth running out. *)
Theorem compute_cycle `{MaterialX} (graph : Graph) (P : NodeId -> Prop)
    (fuel : nat) (node : NodeId) (out_key : Key) (d : Document) :
  (forall node, P node -> feeds_on graph P node) ->
  P node ->
  is_ok (compute fuel graph node out_key d).1.1 = false.
Proof.
  intros Hfeeds. revert node out_key d.
  induction fuel as [|fuel IH]; intros node out_key d Hnode; [done|].
  destruct (Hfeeds node Hnode)
    as (self & prop & i & s & link & rest & Hself & Hs & Hlinks & Hup).
  cbn [compute]. rewrite Hself.
  destruct (MxNode_compute graph (compute fuel graph) self prop out_key d)
    as [[r d'] l] eqn:Hrun. cbn [fst].
  refine (MxNode_compute_raises graph (compute fuel graph) self prop i out_key d
            _ _ r d' l Hrun).
  - by eapply lookup_lt_Some.
  - intros d1. apply (get_input_value_raises _ _ self prop i s link rest d1 Hs Hlinks).
    intros key d2. unfold _compute_node.
    destruct (Hfeeds _ Hup) as (self' & prop' & _ & _ & _ & _ & -> & _).
    by apply IH.
Qed.

(** X16. On a graph whose links all lead downwards, the compilation
    ends, and what it gives does not depend on the depth allowed to the
    recursion.  When every link a [compute] method may follow leads to a
    node of lower rank, any two depths above the rank of a node give the
    same result, the same document and the same log for it: a depth of
    one more than the rank is enough. *)
Theorem compute_acyclic `{MaterialX} (graph : Graph) (rank : NodeId -> nat)
    (fuel fuel' : nat) (node : NodeId) (out_key : Key) (d : Document) :
  ranked graph rank ->
  rank node < fuel -> rank node < fuel' ->
  compute fuel graph node out_key d = compute fuel' graph node out_key d.
Proof.
  intros Hranked. revert fuel' node out_key d.
  induction fuel as [|fuel IH]; intros fuel' node out_key d Hlt Hlt'; [lia|].
  destruct fuel' as [|fuel']; [lia|].
  cbn [compute].
  assert (forall s link rest,
            s ∈ followed (graph node) -> links s = link :: rest ->
            forall key d1,
              compute fuel graph (from_node link) key d1
              = compute fuel' graph (from_node link) key d1) as Hext.
  { intros s link rest Hs Hlinks key d1.
    pose proof (Hranked node s link rest Hs Hlinks) as Hrank.
    apply IH; lia. }
  destruct (graph node) as [self prop|self|b]; cbn [followed] in Hext.
  - by apply MxNode_compute_ext.
  - by apply MxNode_Output_compute_ext.
  - done.
Qed.


(** ** The properties a node is asked for *)

(** X17. The compiler asks a node only for properties its class
    declares.  Take the class [MxNodedef.new] makes for a nodedef, a
    property group that holds a value for every annotation of the class,
    and a node [MxNode.init] made for it.  Then [get_input_default]
    finds a value for every input socket of the node, and
    [get_param_value] one for every parameter of the nodedef: neither
    raises [AttributeError], and neither touches the document or the
    log. *)
Theorem node_props_declared `{MaterialX} (nd : MxNodeDef) (t : MxNodedefType)
    (name : string) (prop : NodeProp) (d : Document) :
  (MxNodedef_new nd).1 = Ok t ->
  prop_nodedef prop = nd ->
  dom (nt_annotations t) ⊆ dom (prop_values prop) ->
  let self := MxNode_init (bare_node name) prop in
  (forall i, i < length (inputs self) ->
     exists v, get_input_default self prop (KInt i) d = (Ok v, d, []))
  /\ (forall p, p ∈ nd_parameters nd ->
        exists v, get_param_value prop (mp_name p) d = (Ok v, d, [])).
Proof.
  intros Hnew Hnd Hdom self.
  assert (forall k, is_Some (nt_annotations t !! k) ->
                    is_Some (prop_values prop !! k)) as Hvalues.
  { intros k Hk. apply elem_of_dom, Hdom, elem_of_dom, Hk. }
  assert (forall k,
            (exists p, p ∈ nd_parameters nd /\ k = "p_" +:+ mp_name p)
            \/ (exists p, p ∈ nd_inputs nd /\ k = "in_" +:+ mp_name p) ->
            is_Some (nt_annotations t !! k)) as Hdeclared.
  { revert Hnew. unfold MxNodedef_new.
    pose proof (annotate_cases "p_" (nd_parameters nd) ∅) as H1.
    destruct (annotate "p_" _ _) as [[a1|e1] l1]; [|done].
    pose proof (annotate_cases "in_" (nd_inputs nd) a1) as H2.
    destruct (annotate "in_" _ _) as [[a2|e2] l2]; [|done].
    pose proof (annotate_cases "out_" (nd_outputs nd) a2) as H3.
    destruct (annotate "out_" _ _) as [[a3|e3] l3]; [|done].
    cbn [fst] in *. intros [= <-]. cbn [nt_annotations].
    destruct H1 as (_ & _ & Hdom1 & _), H2 as (_ & _ & Hdom2 & _),
      H3 as (_ & _ & Hdom3 & _).
    intros k Hk. rewrite Hdom3, Hdom2, Hdom1. tauto. }
  split.
  - intros i Hi.
    assert (inputs self = create_input <$> nd_inputs nd) as Hinputs
      by (subst nd; done).
    rewrite Hinputs, length_fmap in Hi.
    destruct (lookup_lt_is_Some_2 _ _ Hi) as [p Hp].
    destruct (Hvalues ("in_" +:+ mp_name p)) as [v Hv].
    { apply Hdeclared. right. exists p.
      split; [by eapply list_elem_of_lookup_2|done]. }
    exists v. unfold get_input_default, bind, lift, prop_getattr.
    cbn [coll_get]. rewrite Hinputs, list_lookup_fmap, Hp.
    cbn [fmap option_fmap option_map of_option create_input node_prop_name].
    by rewrite Hv.
  - intros p Hp.
    destruct (Hvalues ("p_" +:+ mp_name p)) as [v Hv].
    { apply Hdeclared. left. by exists p. }
    exists v. unfold get_param_value, prop_getattr, lift. by rewrite Hv.
Qed.

(** ** The variants of a node type and its property groups *)

Section PointerFacts.
Context `{Host}.

Lemma foldl_pointer_lookup (l : list MxNodedefType)
    (acc : gmap string NodeAnnotation) :
  NoDup (nodedef_name <$> l) ->
  (forall nt, nt ∈ l ->
     foldl (fun a nd_type =>
              <[nd_name (mx_nodedef nd_type) := APointer nd_type]> a) acc l
     !! nodedef_name nt = Some (APointer nt))
  /\ (forall k, k ∉ nodedef_name <$> l ->
        foldl (fun a nd_type =>
                 <[nd_name (mx_nodedef nd_type) := APointer nd_type]> a) acc l
        !! k = acc !! k).
Proof.
  revert acc. induction l as [|a l IH]; intros acc Hnd.
  - split; [|done]. intros nt Hnt. by apply elem_of_nil in Hnt.
  - rewrite fmap_cons in Hnd. apply NoDup_cons in Hnd as [Hfresh Hnd].
    cbn [foldl].
    destruct (IH (<[nd_name (mx_nodedef a) := APointer a]> acc) Hnd)
      as [Hin Hout].
    split.
    + intros nt [->|Hnt]%elem_of_cons; [|by apply Hin].
      rewrite Hout by done. apply lookup_insert_eq.
    + intros k Hk. rewrite fmap_cons, not_elem_of_cons in Hk.
      destruct Hk as [Hne Hk]. rewrite Hout by done.
      by rewrite lookup_insert_ne.
Qed.

End PointerFacts.

(** X18. The variants a node type offers and the property groups it
    holds stay in step.  For nodedef types of distinct names, none of
    them named [data_type], the class [MxNode.new] makes has one pointer
    annotation under the name of each nodedef, pointing at its type, the
    [data_type] annotation, and no other; every identifier among the
    items of [data_type] names the pointer of the nodedef of that name,
    so that [prop], which reads the attribute [data_type] names, finds a
    property group whichever variant is chosen; and the default of
    [data_type] names the pointer of the first nodedef. *)
Theorem MxNode_new_data_type `{Host} (nodedef_types : list MxNodedefType)
    (t : MxNodeType) :
  MxNode_new nodedef_types = Ok t ->
  NoDup (nodedef_name <$> nodedef_types) ->
  "data_type" ∉ nodedef_name <$> nodedef_types ->
  (forall k, is_Some (mn_annotations t !! k)
             <-> k = "data_type" \/ k ∈ nodedef_name <$> nodedef_types)
  /\ mn_annotations t !! "data_type"
     = Some (ADataType (var_items t) (var_default t))
  /\ (forall nt, nt ∈ nodedef_types ->
        mn_annotations t !! nodedef_name nt = Some (APointer nt))
  /\ (forall id label description,
        (id, label, description) ∈ var_items t ->
        exists nt, nt ∈ nodedef_types /\ nodedef_name nt = id
                   /\ mn_annotations t !! id = Some (APointer nt))
  /\ (exists first,
        head nodedef_types = Some first
        /\ var_default t = nodedef_name first
        /\ mn_annotations t !! var_default t = Some (APointer first)).
Proof.
  intros Hnew Hnd Hfree.
  destruct nodedef_types as [|first rest]; [done|].
  destruct (foldl_pointer_lookup (first :: rest) ∅ Hnd) as [Hin Hout].
  injection Hnew as <-.
  cbn [mn_annotations var_items var_default var_item map].
  assert (forall nt, nt ∈ first :: rest -> nodedef_name nt ≠ "data_type") as Hne.
  { intros nt Hnt Heq. apply Hfree. rewrite <- Heq. by apply list_elem_of_fmap_2. }
  assert (forall nt, nt ∈ first :: rest ->
            <["data_type" := ADataType
                 (var_item (nd_node_string (mx_nodedef first)) first
                  :: map (var_item (nd_node_string (mx_nodedef first))) rest)
                 (nd_name (mx_nodedef first))]>
              (foldl (fun a nd_type =>
                        <[nd_name (mx_nodedef nd_type) := APointer nd_type]> a)
                     (∅ : gmap string NodeAnnotation) (first :: rest))
            !! nodedef_name nt = Some (APointer nt)) as Hpointer.
  { intros nt Hnt. rewrite lookup_insert_ne by (by intros Heq; apply (Hne nt)).
    by apply Hin. }
  split_and!.
  - intros k. destruct (decide (k = "data_type")) as [->|Hk].
    + rewrite lookup_insert_eq. split; [auto|by eexists].
    + rewrite lookup_insert_ne by done. split.
      * intros Hsome. right.
        destruct (decide (k ∈ nodedef_name <$> first :: rest)); [done|].
        rewrite Hout, lookup_empty in Hsome by done. by destruct Hsome.
      * intros [?|(nt & -> & Hnt)%list_elem_of_fmap]; [done|].
        rewrite Hin by done. by eexists.
  - apply lookup_insert_eq.
  - exact Hpointer.
  - intros id label description Hitem.
    change (var_item ?n first :: map (var_item ?n) rest)
      with (var_item n <$> first :: rest) in Hitem.
    apply list_elem_of_fmap in Hitem as (nt & Hitem & Hnt).
    injection Hitem as -> _ _. exists nt. split_and!; [done|done|].
    by apply Hpointer.
  - exists first. split_and!; [done|done|].
    apply (Hpointer first), list_elem_of_here.
Qed.

(** ** A node nothing is linked to *)

Section Fresh.
Context `{MaterialX}.
Variable graph : Graph.
Variable dispatch : NodeId -> Key -> M (option NodeRef).
Variable self : BNode.
Variable prop : NodeProp.

Lemma add_port_literal k (d : Document) x name type v b :
  stored_as v type b ->
  (let! port := addPort k (length d) name type in
   set_value port (ILit v) type) (d ++ [x])
  = (Ok tt, d ++ [with_ports k (fun ps => ps ++ [bound_port name type (Some b)]) x],
     []).
Proof.
  intros Hb. unfold bind. rewrite addPort_last. cbn [set_value].
  unfold stored_as in Hb. destruct (String.eqb type "filename").
  { subst b. by rewrite (set_binding_last k d x name type). }
  destruct (mx_getattr (title_str type)) as [mx_type|].
  - destruct Hb as (y & Hy & ->). unfold bind, lift. rewrite Hy.
    by rewrite (set_binding_last k d x name type).
  - subst b. by rewrite (set_binding_last k d x name type).
Qed.

Lemma input_values_fresh ps in_key (d : Document) :
  (forall i p, ps !! i = Some p ->
     inputs self !! (in_key + i) = Some (create_input p)) ->
  (forall p, p ∈ ps -> is_Some (prop_values prop !! ("in_" +:+ mp_name p))) ->
  exists vs,
    input_values graph dispatch self prop in_key (length ps) d = (Ok vs, d, [])
    /\ Forall2 (fun p val =>
                  exists v, prop_values prop !! ("in_" +:+ mp_name p) = Some v
                            /\ val = ILit v) ps vs.
Proof.
  revert in_key. induction ps as [|p ps IH]; intros in_key Hsockets Hvalues.
  - exists []. split; [done|constructor].
  - destruct (Hvalues p) as [v Hv]; [apply list_elem_of_here|].
    destruct (IH (S in_key)) as (vs & Hrun & Hvs).
    { intros i q Hq. replace (S in_key + i) with (in_key + S i) by lia.
      by apply Hsockets. }
    { intros q Hq. by apply Hvalues, list_elem_of_further. }
    exists (ILit v :: vs). split; [|constructor; [by exists v|done]].
    cbn [length input_values].
    pose proof (Hsockets 0 p eq_refl) as Hs. rewrite Nat.add_0_r in Hs.
    rewrite (bind_ok _ _ d (ILit v) d []).
    + rewrite (bind_ok _ _ d vs d [] Hrun). done.
    + unfold get_input_value, get_input_link, get_input_default,
        bind, lift, ret, prop_getattr.
      cbn [coll_get]. rewrite Hs.
      cbn [of_option create_input node_prop_name links]. by rewrite Hv.
Qed.

Lemma add_inputs_fresh ps vs in_key (d : Document) x :
  (forall i p, ps !! i = Some p ->
     inputs self !! (in_key + i) = Some (create_input p)) ->
  (forall p, p ∈ ps -> getInput (prop_nodedef prop) (mp_name p) = Some p) ->
  Forall2 (fun p val =>
             exists v, prop_values prop !! ("in_" +:+ mp_name p) = Some v
                       /\ val = ILit v) ps vs ->
  (forall p, p ∈ ps ->
     exists v b, prop_values prop !! ("in_" +:+ mp_name p) = Some v
                 /\ stored_as v (mp_type p) b) ->
  exists ports,
    add_inputs self prop (length d) in_key vs (d ++ [x])
    = (Ok tt, d ++ [with_ports IsInput (fun qs => qs ++ ports) x], [])
    /\ Forall2 (unlinked_port prop) ps ports.
Proof.
  intros Hsockets Hget Hvs. revert in_key x Hsockets Hget.
  induction Hvs as [|p val ps vs (v & Hv & ->) _ IH];
    intros in_key x Hsockets Hget Hstored.
  - exists []. rewrite with_ports_nil. split; [done|constructor].
  - destruct (Hstored p) as (v' & b & Hv' & Hb); [apply list_elem_of_here|].
    assert (v' = v) as -> by congruence.
    pose proof (Hsockets 0 p eq_refl) as Hs. rewrite Nat.add_0_r in Hs.
    destruct (IH (S in_key)
                (with_ports IsInput
                   (fun qs => qs ++ [bound_port (mp_name p) (mp_type p) (Some b)]) x))
      as (ports & Hrun & Hports).
    { intros i q Hq. replace (S in_key + i) with (in_key + S i) by lia.
      by apply Hsockets. }
    { intros q Hq. by apply Hget, list_elem_of_further. }
    { intros q Hq. by apply Hstored, list_elem_of_further. }
    exists (bound_port (mp_name p) (mp_type p) (Some b) :: ports).
    split; [|constructor; [by exists v, b|done]].
    cbn [add_inputs].
    rewrite (bind_ok _ _ (d ++ [x]) (Some p) (d ++ [x]) []).
    2:{ rewrite get_nodedef_input_run. cbn [coll_get]. rewrite Hs.
        cbn [of_option result_bind create_input node_prop_name].
        change (PyStr.drop 3 ("in_" +:+ mp_name p)) with (mp_name p).
        rewrite Hget; [done|apply list_elem_of_here]. }
    rewrite (bind_ok _ _ (d ++ [x]) p (d ++ [x]) []) by done.
    unfold addInput.
    rewrite <- (bind_assoc (addPort IsInput (length d) (mp_name p) (mp_type p))
                  (fun input => set_value input (ILit v) (mp_type p))
                  (fun _ => add_inputs self prop (length d) (S in_key) vs)
                  (d ++ [x])).
    rewrite (bind_ok _ _ (d ++ [x]) tt _ []
               (add_port_literal IsInput d x _ _ v b Hb)).
    rewrite Hrun. by rewrite with_ports_app.
Qed.

Lemma add_parameters_fresh params (d : Document) x :
  (forall p, p ∈ params ->
     exists v b, prop_values prop !! ("p_" +:+ mp_name p) = Some v
                 /\ stored_as v (mp_type p) b) ->
  exists ports,
    add_parameters prop (length d) params (d ++ [x])
    = (Ok tt, d ++ [with_ports IsParameter (fun qs => qs ++ ports) x], [])
    /\ Forall2 (parameter_port prop) params ports.
Proof.
  revert x. induction params as [|p params IH]; intros x Hstored.
  - exists []. rewrite with_ports_nil. split; [done|constructor].
  - destruct (Hstored p) as (v & b & Hv & Hb); [apply list_elem_of_here|].
    destruct (IH (with_ports IsParameter
                    (fun qs => qs ++ [bound_port (mp_name p) (mp_type p) (Some b)])
                    x))
      as (ports & Hrun & Hports).
    { intros q Hq. by apply Hstored, list_elem_of_further. }
    exists (bound_port (mp_name p) (mp_type p) (Some b) :: ports).
    split; [|constructor; [by exists v, b|done]].
    cbn [add_parameters].
    rewrite (bind_ok _ _ (d ++ [x]) v (d ++ [x]) []).
    2:{ unfold get_param_value, prop_getattr, lift. by rewrite Hv. }
    unfold addParameter.
    rewrite <- (bind_assoc
                  (addPort IsParameter (length d) (mp_name p) (mp_type p))
                  (fun param => set_value param (ILit v) (mp_type p))
                  (fun _ => add_parameters prop (length d) params)
                  (d ++ [x])).
    rewrite (bind_ok _ _ (d ++ [x]) tt _ []
               (add_port_literal IsParameter d x _ _ v b Hb)).
    rewrite Hrun. by rewrite with_ports_app.
Qed.

End Fresh.

(** X19. A node as [MxNode.init] makes it, with nothing linked yet,
    compiles.  Let the inputs and the outputs of its nodedef have
    distinct names, let [code_str] take the name shown on the output
    socket back to the name of the output, and let the node hold, for
    every input and every parameter, a value that [set_value] can store
    at the type of the input or parameter.  Then [MxNode.compute]
    returns for that output: it adds exactly one node, at the end of the
    document, logs its one [compute] line, and the node has the type of
    the output, one input port for each input of the nodedef and one
    parameter port for each parameter, in order, each holding the value
    the node has for it. *)
Theorem fresh_node_compiles `{MaterialX} (graph : Graph)
    (dispatch : NodeId -> Key -> M (option NodeRef)) (name : string)
    (prop : NodeProp) (j : nat) (o : MxParam) (d : Document) :
  nd_outputs (prop_nodedef prop) !! j = Some o ->
  NoDup (mp_name <$> nd_outputs (prop_nodedef prop)) ->
  code_str (socket_label o) = mp_name o ->
  NoDup (mp_name <$> nd_inputs (prop_nodedef prop)) ->
  (forall p, p ∈ nd_inputs (prop_nodedef prop) ->
     exists v b, prop_values prop !! ("in_" +:+ mp_name p) = Some v
                 /\ stored_as v (mp_type p) b) ->
  (forall p, p ∈ nd_parameters (prop_nodedef prop) ->
     exists v b, prop_values prop !! ("p_" +:+ mp_name p) = Some v
                 /\ stored_as v (mp_type p) b) ->
  exists x,
    MxNode_compute graph dispatch (MxNode_init (bare_node name) prop) prop
      (KInt j) d
    = (Ok (Some (length d)), d ++ [x], [LogInfo ["compute"; name; pretty j]])
    /\ dn_category x = nd_node_string (prop_nodedef prop)
    /\ dn_name x = code_str name
    /\ dn_type x = mp_type o
    /\ Forall2 (unlinked_port prop) (nd_inputs (prop_nodedef prop)) (dn_inputs x)
    /\ Forall2 (parameter_port prop) (nd_parameters (prop_nodedef prop))
               (dn_parameters x).
Proof.
  intros Ho Hnd_out Hcode Hnd_in Hins Hparams.
  set (self := MxNode_init (bare_node name) prop).
  assert (forall i p, nd_inputs (prop_nodedef prop) !! i = Some p ->
                      inputs self !! (0 + i) = Some (create_input p))
    as Hsockets.
  { intros i p Hp. subst self. cbn [MxNode_init inputs bare_node app Nat.add].
    by rewrite list_lookup_fmap, Hp. }
  assert (length (inputs self) = length (nd_inputs (prop_nodedef prop)))
    as Hlen
    by (subst self; cbn [MxNode_init inputs bare_node app];
        by rewrite length_fmap).
  destruct (input_values_fresh graph dispatch self prop
              (nd_inputs (prop_nodedef prop)) 0 d)
    as (vs & Hvalues & Hvs); [done| |].
  { intros p Hp. destruct (Hins p Hp) as (v & _ & Hv & _). by exists v. }
  set (x0 := {| dn_category := nd_node_string (prop_nodedef prop);
                dn_name := code_str name; dn_type := mp_type o;
                dn_inputs := []; dn_parameters := [] |}).
  destruct (add_inputs_fresh self prop (nd_inputs (prop_nodedef prop)) vs 0 d x0)
    as (ps1 & Hrun1 & Hps1); [done| |done|done|].
  { intros p [i Hp]%list_elem_of_lookup.
    by apply (find_by_key mp_name _ i). }
  destruct (add_parameters_fresh prop (nd_parameters (prop_nodedef prop)) d
              (with_ports IsInput (fun qs => qs ++ ps1) x0))
    as (ps2 & Hrun2 & Hps2); [done|].
  exists (with_ports IsParameter (fun qs => qs ++ ps2)
            (with_ports IsInput (fun qs => qs ++ ps1) x0)).
  split; [|by split_and!].
  unfold MxNode_compute.
  rewrite (bind_ok _ _ d tt d [LogInfo ["compute"; name; pretty j]]) by done.
  rewrite (bind_ok _ _ d (Some o) d []).
  2:{ rewrite get_nodedef_output_run. cbn [coll_get].
      subst self. cbn [MxNode_init outputs bare_node app].
      rewrite list_lookup_fmap. rewrite Ho.
      cbn [fmap option_fmap option_map of_option result_bind create_output
           sock_name].
      rewrite Hcode. unfold getOutput, find_by_name.
      by rewrite (find_by_key mp_name _ j o Hnd_out Ho). }
  rewrite Hlen, (bind_ok _ _ d vs d [] Hvalues).
  rewrite (bind_ok _ _ d (mp_type o) d []) by done.
  rewrite (bind_ok _ _ d (length d) (d ++ [x0]) []) by done.
  rewrite (bind_ok _ _ (d ++ [x0]) tt _ [] Hrun1).
  rewrite (bind_ok _ _ _ tt _ [] Hrun2).
  done.
Qed.

(** ** The sockets of the output node *)

(** X20. [MxNode_Output.compute] compiles what is linked to [Surface]
    and nothing else.  On an output node with the sockets
    [MxNode_Output.init] makes, whatever is linked to [Volume] or to
    [Displacement] is never followed: with the links of such a socket
    taken away the call gives the same result, the same document and
    the same log. *)
Theorem output_compiles_surface_only `{MaterialX} (graph : Graph)
    (dispatch : NodeId -> Key -> M (option NodeRef)) (self : BNode) (i : nat)
    (out_key : Key) (d : Document) :
  sock_name <$> inputs self
  = sock_name <$> inputs (MxNode_Output_init (bare_node (bn_name self))) ->
  i ≠ 0 ->
  MxNode_Output_compute graph dispatch (unlink self i) out_key d
  = MxNode_Output_compute graph dispatch self out_key d.
Proof.
  intros Hnames Hi.
  cbn [MxNode_Output_init bare_node inputs app fmap list_fmap sock_name]
    in Hnames.
  destruct self as [name [|s0 [|s1 [|s2 [|s3 rest]]]] outs];
    cbn [inputs fmap list_fmap] in Hnames; try discriminate Hnames.
  injection Hnames as Hs0 Hs1 Hs2.
  unfold MxNode_Output_compute, unlink. cbn [bn_name inputs outputs].
  apply bind_ext; [done|]. intros _ d1.
  apply bind_ext; [|done].
  unfold get_input_link. cbn [bn_name inputs].
  apply bind_ext; [|done].
  unfold lift. do 2 f_equal. cbn [coll_get].
  destruct i as [|[|[|i]]]; [done| | |];
    cbn [alter list_alter find]; by rewrite Hs0.
Qed.

(** ** The further properties at concrete inputs *)

Section FurtherWitnesses.
Local Existing Instance Sample.host.
Local Existing Instance Sample.materialx.

Lemma color3_recognized : recognized "color3".
Proof.
  right. right. left. exists "3"%char. split; [by eexists|reflexivity].
Qed.

Lemma create_property_quiet_witness :
  recognized (mp_type Sample.tint) /\ (create_property Sample.tint).2 = [].
Proof.
  split; [exact color3_recognized|].
  exact (create_property_quiet Sample.tint color3_recognized).
Defined.

Lemma create_property_enum_witness :
  mp_type Sample.mode = "string"
  /\ hasAttribute (mp_attrs Sample.mode) "enum" = true
  /\ exists a tokens,
       create_property Sample.mode = (Ok ("mode", EnumProperty, a), [])
       /\ tokens = ["clamp"; "periodic"]
       /\ pa_items a = Some ((fun it => (it, it, it)) <$> tokens)
       /\ tokens ≠ []
       /\ Forall (fun it => has_char "," it = false /\ trimmed it) tokens
       /\ pa_default a = Some (VStr "periodic").
Proof.
  split; [reflexivity|]. split; [reflexivity|].
  exact (create_property_enum Sample.mode eq_refl eq_refl).
Defined.

Lemma create_property_entries_witness :
  exists a,
    (create_property Sample.tint).1 = Ok ("tint", FloatVectorProperty, a)
    /\ pa_name a = Some "tint"
    /\ pa_description a = Some ""
    /\ attr_entry Sample.tint FloatVectorProperty "uimin" true (pa_min a)
    /\ attr_entry Sample.tint FloatVectorProperty "uimax" true (pa_max a)
    /\ attr_entry Sample.tint FloatVectorProperty "uisoftmin" true (pa_soft_min a)
    /\ attr_entry Sample.tint FloatVectorProperty "uisoftmax" true (pa_soft_max a)
    /\ attr_entry Sample.tint FloatVectorProperty "value" false (pa_default a).
Proof.
  eexists. split; [reflexivity|].
  exact (proj2 (create_property_entries Sample.tint "tint" FloatVectorProperty _
                  eq_refl)).
Defined.

Lemma create_property_vector_entries_witness :
  type_shape (mp_type Sample.tint) (Some ("COLOR", 3%Z))
  /\ exists a,
       (create_property Sample.tint).1 = Ok ("tint", FloatVectorProperty, a)
       /\ pa_size a = Some 3%Z
       /\ first_float Sample.tint "uimin" (pa_min a)
       /\ first_float Sample.tint "uimax" (pa_max a)
       /\ first_float Sample.tint "uisoftmin" (pa_soft_min a)
       /\ first_float Sample.tint "uisoftmax" (pa_soft_max a)
       /\ (hasAttribute (mp_attrs Sample.tint) "value" = true ->
           exists fs,
             mapM py_float
               (PyStr.split "," (getAttribute (mp_attrs Sample.tint) "value"))
             = Some fs
             /\ pa_default a = Some (VTuple (VFloat <$> fs))).
Proof.
  assert (type_shape (mp_type Sample.tint) (Some ("COLOR", 3%Z))) as Hshape
    by exact (shape_color "3" 3 eq_refl).
  split; [exact Hshape|]. eexists. split; [reflexivity|].
  exact (create_property_vector_entries Sample.tint "COLOR" 3 "tint"
           FloatVectorProperty _ Hshape eq_refl).
Defined.

Lemma MxNodedef_new_annotations_witness :
  let nd := Sample.ND_mix_color3 in
  exists t,
    (MxNodedef_new nd).1 = Ok t
    /\ mx_nodedef t = nd
    /\ nt_class_name t = "MxND_mix_color3"
    /\ (forall k,
          is_Some (nt_annotations t !! k)
          <-> (exists p, p ∈ nd_parameters nd /\ k = "p_" +:+ mp_name p)
              \/ (exists p, p ∈ nd_inputs nd /\ k = "in_" +:+ mp_name p)
              \/ (exists p, p ∈ nd_outputs nd /\ k = "out_" +:+ mp_name p))
    /\ (NoDup (mp_name <$> nd_parameters nd) ->
        forall p, p ∈ nd_parameters nd ->
          nt_annotations t !! ("p_" +:+ mp_name p) = annotation_of p)
    /\ (NoDup (mp_name <$> nd_inputs nd) ->
        forall p, p ∈ nd_inputs nd ->
          nt_annotations t !! ("in_" +:+ mp_name p) = annotation_of p)
    /\ (NoDup (mp_name <$> nd_outputs nd) ->
        forall p, p ∈ nd_outputs nd ->
          nt_annotations t !! ("out_" +:+ mp_name p) = annotation_of p).
Proof.
  intros nd. eexists. split; [reflexivity|].
  exact (MxNodedef_new_annotations nd _ eq_refl).
Defined.

Lemma create_node_types_order_witness :
  exists nodedef_types node_types,
    (create_node_types Sample.readFromXmlFile Sample.schema_paths).1
    = Ok (nodedef_types, node_types)
    /\ Forall2 (fun k t =>
                  exists first rest,
                    filter (fun nt => group_key nt = k) nodedef_types
                    = first :: rest
                    /\ mn_class_name t = "MxNode_" +:+ k.1
                    /\ bl_label t = title_str k.1
                    /\ bl_idname t = "hdusd.MxNode_" +:+ nodedef_name first
                    /\ mx_nodedefs t = mx_nodedef <$> first :: rest)
               (first_occurrences (group_key <$> nodedef_types)) node_types.
Proof.
  eexists _, _. split; [reflexivity|].
  exact (create_node_types_order Sample.readFromXmlFile Sample.schema_paths
           _ _ eq_refl).
Defined.

Lemma create_node_types_variant_labels_witness :
  exists nodedef_types node_types nt,
    (create_node_types Sample.readFromXmlFile Sample.schema_paths).1
    = Ok (nodedef_types, node_types)
    /\ nt ∈ nodedef_types
    /\ mx_nodedef nt = Sample.ND_constant_color3
    /\ exists t label,
         t ∈ node_types
         /\ mx_nodedef nt ∈ mx_nodedefs t
         /\ label = title_str
                      (PyStr.drop
                         (4 + String.length (nd_node_string (mx_nodedef nt)))
                         (nodedef_name nt))
         /\ (nodedef_name nt, label, label) ∈ var_items t
         /\ (forall suffix,
               nodedef_name nt
               = "ND_" +:+ nd_node_string (mx_nodedef nt) +:+ "_" +:+ suffix ->
               label = title_str suffix).
Proof.
  eexists _, _, _. split; [reflexivity|].
  split; [apply list_elem_of_here|]. split; [reflexivity|].
  exact (create_node_types_variant_labels Sample.readFromXmlFile
           Sample.schema_paths _ _ _ eq_refl
           (list_elem_of_here _ _)).
Defined.

Lemma compute_emits_witness :
  let self := Sample.mix_node [Sample.link false 1 "out"] [] in
  let d' := [Sample.doc_K;
             Sample.doc_M (Sample.by_name "K") (Sample.literal 0 0 0)] in
  Sample.broken 0 = GMxNode self Sample.mix_prop
  /\ compute 3 Sample.broken 0 (KStr "out") []
     = (Ok (Some 1), d',
        [LogInfo ["compute"; "M"; "out"];
         LogError ["Invalid link found"; "out"; "Fg"; "M"];
         LogInfo ["compute"; "K"; "out"]])
  /\ exists s nd_output x,
       coll_get (outputs self) (KStr "out") = Ok s
       /\ getOutput (prop_nodedef Sample.mix_prop) (code_str (sock_name s))
          = Some nd_output
       /\ d' !! 1 = Some x /\ 2 = length d' /\ length (@nil DocNode) <= 1
       /\ dn_category x = nd_node_string (prop_nodedef Sample.mix_prop)
       /\ dn_name x = code_str (bn_name self)
       /\ dn_type x = mp_type nd_output
       /\ Forall2 (input_port Sample.mix_prop d' 1) (inputs self) (dn_inputs x)
       /\ Forall2 (parameter_port Sample.mix_prop)
                  (nd_parameters (prop_nodedef Sample.mix_prop))
                  (dn_parameters x).
Proof.
  intros self d'. split; [reflexivity|]. split; [reflexivity|].
  exact (compute_emits 3 Sample.broken 0 self Sample.mix_prop (KStr "out") []
           1 d' _ eq_refl eq_refl).
Defined.

Lemma init_inputs_resolve_witness :
  let p := Sample.param "fg" "color3" [("value", "0,0,0")] "ND_mix_color3" in
  let self := MxNode_init (bare_node "M") Sample.mix_prop in
  nd_inputs (prop_nodedef Sample.mix_prop) !! 0 = Some p
  /\ NoDup (mp_name <$> nd_inputs (prop_nodedef Sample.mix_prop))
  /\ length (inputs self) = 2
  /\ get_nodedef_input self Sample.mix_prop (KInt 0) [] = (Ok (Some p), [], [])
  /\ get_input_default self Sample.mix_prop (KInt 0) []
     = (Ok (Sample.color 0 0 0), [], [])
  /\ get_input_value Sample.alone (compute 2 Sample.alone) self Sample.mix_prop
       (KInt 0) []
     = (Ok (ILit (Sample.color 0 0 0)), [], []).
Proof.
  intros p self.
  assert (NoDup (mp_name <$> nd_inputs (prop_nodedef Sample.mix_prop))) as Hnd
    by exact (bool_decide_unpack
                (NoDup (mp_name <$> nd_inputs (prop_nodedef Sample.mix_prop))) I).
  split; [reflexivity|]. split; [exact Hnd|].
  exact (init_inputs_resolve Sample.alone (compute 2 Sample.alone) "M"
           Sample.mix_prop 0 p [] eq_refl Hnd).
Defined.

Lemma init_outputs_resolve_witness :
  let o := Sample.param "out" "color3" [] "ND_mix_color3" in
  let self := MxNode_init (bare_node "M") Sample.mix_prop in
  nd_outputs (prop_nodedef Sample.mix_prop) !! 0 = Some o
  /\ NoDup (mp_name <$> nd_outputs (prop_nodedef Sample.mix_prop))
  /\ code_str (socket_label o) = mp_name o
  /\ length (outputs self) = 1
  /\ get_nodedef_output self Sample.mix_prop (KInt 0) [] = (Ok (Some o), [], [])
  /\ (NoDup (socket_label <$> nd_outputs (prop_nodedef Sample.mix_prop)) ->
      get_nodedef_output self Sample.mix_prop (KStr "out") []
      = (Ok (Some o), [], [])).
Proof.
  intros o self.
  assert (NoDup (mp_name <$> nd_outputs (prop_nodedef Sample.mix_prop))) as Hnd
    by exact (bool_decide_unpack
                (NoDup (mp_name <$> nd_outputs (prop_nodedef Sample.mix_prop))) I).
  split; [reflexivity|]. split; [exact Hnd|]. split; [reflexivity|].
  exact (init_outputs_resolve "M" Sample.mix_prop 0 o [] eq_refl Hnd eq_refl).
Defined.

Lemma looped_feeds_on (node : NodeId) :
  node = 0 -> feeds_on Sample.looped (fun n => n = 0) node.
Proof.
  intros ->.
  exists (Sample.mix_node [Sample.link true 0 "out"] []), Sample.mix_prop, 0,
    (Sample.socket "Fg" "in_fg" [Sample.link true 0 "out"]),
    (Sample.link true 0 "out"), [].
  by split_and!.
Qed.

Lemma compute_cycle_witness :
  (forall node, node = 0 -> feeds_on Sample.looped (fun n => n = 0) node)
  /\ 0 = 0
  /\ is_ok (compute 5 Sample.looped 0 (KStr "out") []).1.1 = false.
Proof.
  split; [exact looped_feeds_on|]. split; [reflexivity|].
  exact (compute_cycle Sample.looped (fun n => n = 0) 5 0 (KStr "out") []
           looped_feeds_on eq_refl).
Defined.

Lemma shared_ranked : ranked Sample.shared Sample.rank.
Proof.
  intros node s link rest Hs Hlinks.
  destruct node as [|[|[|[|node]]]];
    cbn [Sample.shared Sample.graph_of followed Sample.mix Sample.mix_node
         Sample.K Sample.K_node Sample.S Sample.foreign Sample.output
         Sample.output_node inputs] in Hs;
    repeat (apply elem_of_cons in Hs as [->|Hs]);
    try (by apply elem_of_nil in Hs);
    try discriminate Hlinks;
    injection Hlinks as <- _; cbn; lia.
Qed.

Lemma compute_acyclic_witness :
  ranked Sample.shared Sample.rank
  /\ Sample.rank 0 < 2 /\ Sample.rank 0 < 7
  /\ compute 2 Sample.shared 0 (KStr "out") []
     = compute 7 Sample.shared 0 (KStr "out") [].
Proof.
  split; [exact shared_ranked|]. split; [cbn; lia|]. split; [cbn; lia|].
  refine (compute_acyclic Sample.shared Sample.rank 2 7 0 (KStr "out") []
            shared_ranked _ _); cbn; lia.
Defined.

Lemma node_props_declared_witness :
  let nd := Sample.ND_mix_color3 in
  let prop := Sample.mix_instance in
  let self := MxNode_init (bare_node "M") prop in
  exists t,
    (MxNodedef_new nd).1 = Ok t
    /\ prop_nodedef prop = nd
    /\ dom (nt_annotations t) ⊆ dom (prop_values prop)
    /\ (forall i, i < length (inputs self) ->
          exists v, get_input_default self prop (KInt i) [] = (Ok v, [], []))
    /\ (forall p, p ∈ nd_parameters nd ->
          exists v, get_param_value prop (mp_name p) [] = (Ok v, [], [])).
Proof.
  intros nd prop self.
  assert (dom (nt_annotations
                 (match (MxNodedef_new nd).1 with
                  | Ok t => t
                  | Raise _ =>
                      {| nt_class_name := ""; mx_nodedef := nd;
                         nt_annotations := ∅ |}
                  end))
          ⊆ dom (prop_values prop)) as Hdom.
  { apply (bool_decide_unpack _). reflexivity. }
  eexists. split; [reflexivity|]. split; [reflexivity|]. split; [exact Hdom|].
  exact (node_props_declared nd _ "M" prop [] eq_refl eq_refl Hdom).
Defined.

Lemma MxNode_new_data_type_witness :
  let nodedef_types :=
    (load_nodedefs [Sample.ND_constant_color3; Sample.ND_constant_float]).1 in
  exists t,
    MxNode_new nodedef_types = Ok t
    /\ NoDup (nodedef_name <$> nodedef_types)
    /\ ("data_type" ∉ nodedef_name <$> nodedef_types)
    /\ (forall k, is_Some (mn_annotations t !! k)
                  <-> k = "data_type" \/ k ∈ nodedef_name <$> nodedef_types)
    /\ mn_annotations t !! "data_type"
       = Some (ADataType (var_items t) (var_default t))
    /\ (forall nt, nt ∈ nodedef_types ->
          mn_annotations t !! nodedef_name nt = Some (APointer nt))
    /\ (forall id label description,
          (id, label, description) ∈ var_items t ->
          exists nt, nt ∈ nodedef_types /\ nodedef_name nt = id
                     /\ mn_annotations t !! id = Some (APointer nt))
    /\ (exists first,
          head nodedef_types = Some first
          /\ var_default t = nodedef_name first
          /\ mn_annotations t !! var_default t = Some (APointer first)).
Proof.
  intros nodedef_types.
  assert (NoDup (nodedef_name <$> nodedef_types)) as Hnd
    by exact (bool_decide_unpack (NoDup (nodedef_name <$> nodedef_types)) I).
  assert ("data_type" ∉ nodedef_name <$> nodedef_types) as Hfree
    by exact (bool_decide_unpack
                ("data_type" ∉ nodedef_name <$> nodedef_types) I).
  eexists. split; [reflexivity|]. split; [exact Hnd|]. split; [exact Hfree|].
  exact (MxNode_new_data_type nodedef_types _ eq_refl Hnd Hfree).
Defined.

Lemma mix_inputs_stored (p : MxParam) :
  p ∈ nd_inputs (prop_nodedef Sample.mix_prop) ->
  exists v b, prop_values Sample.mix_prop !! ("in_" +:+ mp_name p) = Some v
              /\ stored_as v (mp_type p) b.
Proof.
  intros Hp. repeat (apply elem_of_cons in Hp as [->|Hp]).
  - exists (Sample.color 0 0 0), (Sample.literal 0 0 0).
    split; [reflexivity|]. by eexists.
  - exists (Sample.color 0 0 0), (Sample.literal 0 0 0).
    split; [reflexivity|]. by eexists.
  - by apply elem_of_nil in Hp.
Qed.

Lemma mix_parameters_stored (p : MxParam) :
  p ∈ nd_parameters (prop_nodedef Sample.mix_prop) ->
  exists v b, prop_values Sample.mix_prop !! ("p_" +:+ mp_name p) = Some v
              /\ stored_as v (mp_type p) b.
Proof.
  intros Hp. repeat (apply elem_of_cons in Hp as [->|Hp]).
  - exists (@VFloat Sample.host 7%Z), (BValue (@VFloat Sample.host 7%Z)).
    by split.
  - by apply elem_of_nil in Hp.
Qed.

Lemma fresh_node_compiles_witness :
  let prop := Sample.mix_prop in
  let o := Sample.param "out" "color3" [] "ND_mix_color3" in
  nd_outputs (prop_nodedef prop) !! 0 = Some o
  /\ NoDup (mp_name <$> nd_outputs (prop_nodedef prop))
  /\ code_str (socket_label o) = mp_name o
  /\ NoDup (mp_name <$> nd_inputs (prop_nodedef prop))
  /\ (forall p, p ∈ nd_inputs (prop_nodedef prop) ->
        exists v b, prop_values prop !! ("in_" +:+ mp_name p) = Some v
                    /\ stored_as v (mp_type p) b)
  /\ (forall p, p ∈ nd_parameters (prop_nodedef prop) ->
        exists v b, prop_values prop !! ("p_" +:+ mp_name p) = Some v
                    /\ stored_as v (mp_type p) b)
  /\ exists x,
       MxNode_compute Sample.alone (compute 2 Sample.alone)
         (MxNode_init (bare_node "M") prop) prop (KInt 0) []
       = (Ok (Some 0), [] ++ [x], [LogInfo ["compute"; "M"; "0"]])
       /\ dn_category x = "mix"
       /\ dn_name x = "M"
       /\ dn_type x = "color3"
       /\ Forall2 (unlinked_port prop) (nd_inputs (prop_nodedef prop))
                  (dn_inputs x)
       /\ Forall2 (parameter_port prop) (nd_parameters (prop_nodedef prop))
                  (dn_parameters x).
Proof.
  intros prop o.
  assert (NoDup (mp_name <$> nd_outputs (prop_nodedef prop))) as Hout
    by exact (bool_decide_unpack
                (NoDup (mp_name <$> nd_outputs (prop_nodedef prop))) I).
  assert (NoDup (mp_name <$> nd_inputs (prop_nodedef prop))) as Hin
    by exact (bool_decide_unpack
                (NoDup (mp_name <$> nd_inputs (prop_nodedef prop))) I).
  split; [reflexivity|]. split; [exact Hout|]. split; [reflexivity|].
  split; [exact Hin|]. split; [exact mix_inputs_stored|].
  split; [exact mix_parameters_stored|].
  exact (fresh_node_compiles Sample.alone (compute 2 Sample.alone) "M" prop 0 o
           [] eq_refl Hout eq_refl Hin mix_inputs_stored mix_parameters_stored).
Defined.

Lemma output_compiles_surface_only_witness :
  let self := Sample.output_with [Sample.link true 1 "out"]
                                 [Sample.link true 3 "out"] in
  sock_name <$> inputs self
  = sock_name <$> inputs (MxNode_Output_init (bare_node (bn_name self)))
  /\ 1 ≠ 0
  /\ MxNode_Output_compute Sample.wrapped (compute 2 Sample.wrapped)
       (unlink self 1) (KStr "") []
     = MxNode_Output_compute Sample.wrapped (compute 2 Sample.wrapped)
         self (KStr "") [].
Proof.
  intros self. split; [reflexivity|]. split; [discriminate|].
  refine (output_compiles_surface_only Sample.wrapped (compute 2 Sample.wrapped)
            self 1 (KStr "") [] eq_refl _).
  discriminate.
Defined.

End FurtherWitnesses.
